(** * AutoPilotDev: the repository analysis pipeline

    A shallow embedding of
    - [backend/src/services/repoAnalyzer.js]   (class [RepoAnalyzer]),
    - [backend/src/services/ai/openaiService.js] ([getRepositoryInsights],
      [getRepositorySuggestions], [performCodeReview], [analyzeDependencies],
      the parsers and the mock answers they fall back to),
    - [backend/models/Analysis.js]             (schema, [updateStatus]),
    - [backend/models/User.js]                 (the daily quota),
    - [backend/src/middleware/authMiddleware.js] ([verifyToken],
      [requireRole], [canAnalyze]),
    - [backend/src/controllers/analyzeController.js]
      ([analyzeRepository], [getAnalysisById], [getSuggestions],
      [getFileStructure], [deleteAnalysis]),
    - the Docker controller's [validateDockerfile],
    followed by the properties of the pipeline, of the walks over a
    repository, of the requests on stored analyses and of the middleware.

    Asynchronous functions are run to completion: an [await] is a bind in
    the monad [M] below, whose outcomes are a returned value, a thrown
    [error], or a promise that never settles. *)

From stdpp Require Import base option list strings pretty gmap.
From Stdlib Require Import ZArith Lia Ascii.

Set Warnings "-register-all".

Open Scope Z_scope.

(** * Errors and outcomes *)

Inductive error :=
| ExecError (cmd diagnostic : string)   (* child_process.exec rejected *)
| ENOENT (path : string)                (* fs: no such file or directory *)
| EACCES (path : string)                (* fs: the file cannot be read *)
| EISDIR (path : string)                (* fs: read of a directory *)
| SyntaxError (text : string)           (* JSON.parse *)
| TypeError (what : string)
| ValidationError (field : string)      (* mongoose, on save *)
| MongoError (reason : string)          (* the driver rejected *)
| APIError (reason : string).           (* the OpenAI client rejected *)

Definition message (e : error) : string :=
  match e with
  | ExecError cmd diagnostic => "Command failed: " +:+ cmd +:+ " " +:+ diagnostic
  | ENOENT path => "ENOENT: no such file or directory, scandir '" +:+ path +:+ "'"
  | EACCES path => "EACCES: permission denied, open '" +:+ path +:+ "'"
  | EISDIR path => "EISDIR: illegal operation on a directory, read '" +:+ path +:+ "'"
  | SyntaxError text => "Unexpected token in JSON: " +:+ text
  | TypeError what => what
  | ValidationError field => "Analysis validation failed: " +:+ field
  | MongoError reason => reason
  | APIError reason => reason
  end.

Inductive outcome (A : Type) :=
| Returned (a : A)
| Threw (e : error)
| Pending.                              (* the awaited promise never settles *)
Arguments Returned {A} a.
Arguments Threw {A} e.
Arguments Pending {A}.

(** * JavaScript values

    Object literals keep their keys in insertion order, so an object is an
    association list. *)

Inductive json :=
| JNull
| JBool (b : bool)
| JNum (n : Z)
| JStr (s : string)
| JArr (items : list json)
| JObj (fields : list (string * json)).

Definition keys (j : json) : list string :=
  match j with
  | JObj fields => fields.*1
  | _ => []
  end.

(** [o[k]]: [None] is [undefined]. *)
Fixpoint assoc {A : Type} (k : string) (l : list (string * A)) : option A :=
  match l with
  | [] => None
  | (k', v) :: l' => if String.eqb k k' then Some v else assoc k l'
  end.

Definition prop (k : string) (j : json) : option json :=
  match j with
  | JObj fields => assoc k fields
  | _ => None
  end.

Definition truthy (j : json) : bool :=
  match j with
  | JNull => false
  | JBool b => b
  | JNum n => negb (Z.eqb n 0)
  | JStr s => negb (String.eqb s "")
  | JArr _ | JObj _ => true
  end.

(** [x || d] *)
Definition or_else (x : option json) (d : json) : json :=
  match x with
  | Some v => if truthy v then v else d
  | None => d
  end.

(** [x.k] where [x] is a value: reading a property of [null] throws. *)
Definition member (k : string) (x : json) : error + option json :=
  match x with
  | JNull => inl (TypeError ("Cannot read properties of null (reading '" +:+ k +:+ "')"))
  | JObj fields => inr (assoc k fields)
  | JArr items =>
      inr (if String.eqb k "length" then Some (JNum (Z.of_nat (length items))) else None)
  | JStr s =>
      inr (if String.eqb k "length" then Some (JNum (Z.of_nat (String.length s))) else None)
  | JNum _ | JBool _ => inr None
  end.

(** [x?.k] where [x] may be [undefined] or [null] *)
Definition opt_member (k : string) (x : option json) : option json :=
  match x with
  | None | Some JNull => None
  | Some v => match member k v with
              | inr r => r
              | inl _ => None
              end
  end.

(** [x?.length || 0] *)
Definition length_or_0 (x : option json) : json := or_else (opt_member "length" x) (JNum 0).

(** * Strings and paths

    The JavaScript string methods the service calls. *)

Definition is_upper (c : ascii) : bool :=
  let n := nat_of_ascii c in (65 <=? n)%nat && (n <=? 90)%nat.
Definition is_lower (c : ascii) : bool :=
  let n := nat_of_ascii c in (97 <=? n)%nat && (n <=? 122)%nat.
Definition is_digit (c : ascii) : bool :=
  let n := nat_of_ascii c in (48 <=? n)%nat && (n <=? 57)%nat.

Definition lower_char (c : ascii) : ascii :=
  if is_upper c then ascii_of_nat (nat_of_ascii c + 32) else c.

(** [s.toLowerCase()], on ASCII letters *)
Fixpoint toLowerCase (s : string) : string :=
  match s with
  | "" => ""
  | String c s' => String (lower_char c) (toLowerCase s')
  end.

(** [s.replace(c, '')] with a string pattern of one character: only the
    first occurrence is replaced. *)
Fixpoint replace_first (c : ascii) (s : string) : string :=
  match s with
  | "" => ""
  | String a s' => if Ascii.eqb a c then s' else String a (replace_first c s')
  end.

(** [s.split('\n')] *)
Fixpoint split_lines (s : string) : list string :=
  match s with
  | "" => [""]
  | String c s' =>
      if Ascii.eqb c "010" then "" :: split_lines s'
      else match split_lines s' with
           | l :: ls => String c l :: ls
           | [] => [String c ""]
           end
  end.

(** The longest prefix whose characters satisfy [p], and what follows it. *)
Fixpoint span (p : ascii → bool) (s : string) : string * string :=
  match s with
  | "" => ("", "")
  | String c s' =>
      if p c then let '(a, b) := span p s' in (String c a, b) else ("", s)
  end.

Fixpoint strip_prefix (pre s : string) : option string :=
  match pre, s with
  | "", _ => Some s
  | String a pre', String b s' => if Ascii.eqb a b then strip_prefix pre' s' else None
  | _, "" => None
  end.

Fixpoint occurs (c : ascii) (s : string) : bool :=
  match s with
  | "" => false
  | String a s' => Ascii.eqb a c || occurs c s'
  end.

(** [path.extname(name)] for a directory entry (no separator in [name]):
    from the last dot to the end; empty when there is no dot, when the only
    dot is the first character, and for [".."]. *)
Fixpoint from_last_dot (s : string) : option string :=
  match s with
  | "" => None
  | String c s' =>
      match from_last_dot s' with
      | Some ext => Some ext
      | None => if Ascii.eqb c "." then Some s else None
      end
  end.

Definition extname (name : string) : string :=
  match name with
  | "" => ""
  | String _ rest =>
      if String.eqb name ".." then "" else default "" (from_last_dot rest)
  end.

Definition includes (x : string) (l : list string) : bool :=
  existsb (String.eqb x) l.

(** [path.join(dir, name)] for a directory entry [name] *)
Definition path_join (dir name : string) : string :=
  if String.eqb dir "" then name else dir +:+ "/" +:+ name.

(** [s.startsWith(pre)] *)
Definition startsWith (pre s : string) : bool :=
  match strip_prefix pre s with
  | Some _ => true
  | None => false
  end.

(** [s.includes(sub)] on strings *)
Fixpoint includes_text (sub s : string) : bool :=
  startsWith sub s
  || match s with
     | String _ s' => includes_text sub s'
     | "" => false
     end.

(** [s.replace(pat, '')] with a string pattern: the first occurrence goes. *)
Fixpoint replace_text (pat s : string) : string :=
  match strip_prefix pat s with
  | Some rest => rest
  | None => match s with
            | String c s' => String c (replace_text pat s')
            | "" => ""
            end
  end.

(** White space and line terminators, on ASCII text: tab, line feed,
    vertical tab, form feed, carriage return and space. *)
Definition is_space (c : ascii) : bool :=
  let n := nat_of_ascii c in Nat.eqb n 32 || ((9 <=? n)%nat && (n <=? 13)%nat).

Fixpoint trimStart (s : string) : string :=
  match s with
  | String c s' => if is_space c then trimStart s' else s
  | "" => ""
  end.

Fixpoint trimEnd (s : string) : string :=
  match s with
  | "" => ""
  | String c s' =>
      match trimEnd s' with
      | "" => if is_space c then "" else String c ""
      | t => String c t
      end
  end.

(** [s.trim()] *)
Definition trim (s : string) : string := trimEnd (trimStart s).

(** * Data model *)

(** ** The file system under the temp directory *)

Inductive node :=
| File (name : string) (size : Z) (content : option string)
    (* [content = None]: [fs.readFileSync] throws on this file *)
| Dir (name : string) (children : list node).

(** Entries as [fs.readdirSync(dir, { withFileTypes: true })] lists them. *)
Definition tree := list node.

Definition node_name (n : node) : string :=
  match n with
  | File name _ _ => name
  | Dir name _ => name
  end.

(** What is left of an entry when the entries whose path, relative to the
    root of the removal, is marked [gone] have been unlinked: a directory
    goes only once nothing is left in it. *)
Fixpoint left_item (gone : string → bool) (rel : string) (item : node) : option node :=
  match item with
  | File name _ _ => if gone (path_join rel name) then None else Some item
  | Dir name children =>
      match omap (left_item gone (path_join rel name)) children with
      | [] => if gone (path_join rel name) then None else Some (Dir name [])
      | kept => Some (Dir name kept)
      end
  end.

Definition left_tree (gone : string → bool) (items : tree) : tree :=
  omap (left_item gone "") items.

(** ** The analysis result and its parts *)

Record RepoInfo := {
  platform : string;
  owner : option string;
  repo : option string;
  ri_url : string
}.

Record Structure := {
  directories : Z;
  files : Z;
  byType : list (string * Z);
  maxDepth : Z
}.

Record ConfigFile := { cf_name : string; cf_path : string; cf_size : Z }.

Record DependencyRecord := {
  d_name : string;
  d_version : string;
  d_type : string;
  d_manager : string
}.

Record LargestFile := { lf_name : string; lf_lines : Z }.

Record CodeMetrics := {
  totalLines : Z;
  totalFiles : Z;
  avgLinesPerFile : Z;
  largestFile : LargestFile
}.

Record FileEntry := {
  fe_name : string;
  fe_path : string;
  fe_isDirectory : bool;
  fe_size : Z;
  fe_extension : string
}.

Record Options := {
  o_branch : option string;
  o_depth : option Z;
  o_includeDependencies : option bool
}.

Record AnalysisResult := {
  r_repository : RepoInfo;
  r_branch : string;
  r_structure : Structure;
  r_languages : list string;
  r_configFiles : list ConfigFile;
  r_dependencies : list DependencyRecord;
  r_metrics : CodeMetrics;
  r_files : list FileEntry
}.

(** ** Persisted documents (the schema of [models/Analysis.js])

    [analysisData] is a [Mixed] path with default [{}]; [metrics] and
    [error] are [None] until something is assigned to them. Timestamps are
    left out. *)

Record Analysis := {
  _id : N;
  userId : option string;               (* required *)
  repositoryUrl : option string;        (* required *)
  a_branch : string;                    (* default 'main' *)
  status : string;                      (* enum, default 'pending' *)
  analysisData : json;
  a_metrics : option json;
  a_error : option json
}.

Definition status_enum : list string := ["pending"; "analyzing"; "completed"; "failed"].

Definition set_status (st : string) (a : Analysis) : Analysis :=
  {| _id := _id a; userId := userId a; repositoryUrl := repositoryUrl a;
     a_branch := a_branch a; status := st; analysisData := analysisData a;
     a_metrics := a_metrics a; a_error := a_error a |}.

Definition set_analysisData (data : json) (a : Analysis) : Analysis :=
  {| _id := _id a; userId := userId a; repositoryUrl := repositoryUrl a;
     a_branch := a_branch a; status := status a; analysisData := data;
     a_metrics := a_metrics a; a_error := a_error a |}.

Definition set_metrics (m : json) (a : Analysis) : Analysis :=
  {| _id := _id a; userId := userId a; repositoryUrl := repositoryUrl a;
     a_branch := a_branch a; status := status a; analysisData := analysisData a;
     a_metrics := Some m; a_error := a_error a |}.

Definition set_error (e : json) (a : Analysis) : Analysis :=
  {| _id := _id a; userId := userId a; repositoryUrl := repositoryUrl a;
     a_branch := a_branch a; status := status a; analysisData := analysisData a;
     a_metrics := a_metrics a; a_error := Some e |}.

(** ** Requests and responses of the controller *)

Record Request := {
  body_url : option string;
  body_branch : option string;
  body_depth : option Z;
  body_includeDependencies : option bool;
  req_user : option string              (* [req.user.id], set by the auth middleware *)
}.

Record GetRequest := {
  analysisId : N;
  includeFiles : bool;                  (* truthiness of [req.query.includeFiles] *)
  includeMetrics : bool;
  get_user : option string
}.

Record FilesRequest := {
  fr_analysisId : N;
  fr_path : option string;              (* [req.query.path] *)
  fr_type : option string;              (* [req.query.type] *)
  fr_user : option string
}.

Record SuggestRequest := {
  sr_analysisId : N;
  sr_aspects : option json;             (* [req.body.aspects] *)
  sr_includeExamples : option json;
  sr_user : option string
}.

Record Response := { code : Z; body : json }.

(** * The world *)

(** What running a shell command does to the disk. *)
Inductive shell_outcome :=
| Exit0 (disk' : gmap string tree)
| ExitErr (diagnostic : string)
| NeverExits.

Inductive ai_outcome :=
| AIRejected (reason : string)
    (* [chat.completions.create] rejects: timeout, service unavailable, ... *)
| AIMalformed
    (* it resolves, but the response has no [choices[0].message] *)
| AIContent (content : string).
    (* it resolves and [choices[0].message.content] is this text *)

(** How the promise of another external service ends. *)
Inductive settled :=
| Resolved
| Rejected (reason : string)
| Unsettled.

Record Env := {
  tempDir : string;
  newRepoId : string;               (* `${Date.now()}_${Math.random()...}` *)
  shell : string → gmap string tree → shell_outcome;
  rmSync_fails : string → bool;
  (* what a removal of the path that fails has unlinked before it throws *)
  rmSync_removed : string → string → bool;
  JSON_parse : string → option json;
  (* the request is the prompt, which is computed from [analysisData] *)
  chat_completions_create : AnalysisResult → ai_outcome;
  Math_random : Z → Z;              (* [Math.floor(Math.random() * n)] *)
  db_down : bool                    (* the database cannot be reached *)
}.

Record State := {
  disk : gmap string tree;          (* directories that exist, by path *)
  execLog : list string;            (* commands handed to [exec], oldest first *)
  rmLog : list string;              (* paths handed to [fs.rmSync] *)
  db : list Analysis;               (* the analyses collection, oldest first *)
  statusWrites : list (N * string); (* every status persisted, oldest first *)
  nextId : N;                       (* the next fresh [ObjectId] *)
  emitted : list string             (* socket events, oldest first *)
}.

Definition set_disk (d : gmap string tree) (s : State) : State :=
  {| disk := d; execLog := execLog s; rmLog := rmLog s; db := db s;
     statusWrites := statusWrites s; nextId := nextId s; emitted := emitted s |}.

Definition log_exec (cmd : string) (s : State) : State :=
  {| disk := disk s; execLog := execLog s ++ [cmd]; rmLog := rmLog s; db := db s;
     statusWrites := statusWrites s; nextId := nextId s; emitted := emitted s |}.

Definition log_rm (path : string) (s : State) : State :=
  {| disk := disk s; execLog := execLog s; rmLog := rmLog s ++ [path]; db := db s;
     statusWrites := statusWrites s; nextId := nextId s; emitted := emitted s |}.

Definition log_emit (event : string) (s : State) : State :=
  {| disk := disk s; execLog := execLog s; rmLog := rmLog s; db := db s;
     statusWrites := statusWrites s; nextId := nextId s;
     emitted := emitted s ++ [event] |}.

(** Writing document [a]: replaces the stored document with the same
    [_id], or inserts it. *)
Fixpoint upsert (a : Analysis) (docs : list Analysis) : list Analysis :=
  match docs with
  | [] => [a]
  | d :: docs' => if N.eqb (_id d) (_id a) then a :: docs' else d :: upsert a docs'
  end.

Definition persist (a : Analysis) (s : State) : State :=
  {| disk := disk s; execLog := execLog s; rmLog := rmLog s; db := upsert a (db s);
     statusWrites := statusWrites s ++ [(_id a, status a)]; nextId := nextId s;
     emitted := emitted s |}.

Definition take_id (s : State) : State :=
  {| disk := disk s; execLog := execLog s; rmLog := rmLog s; db := db s;
     statusWrites := statusWrites s; nextId := N.succ (nextId s);
     emitted := emitted s |}.

(** Deleting one document: the first that satisfies [p] goes. *)
Fixpoint remove_first (p : Analysis → bool) (docs : list Analysis) : list Analysis :=
  match docs with
  | [] => []
  | d :: docs' => if p d then docs' else d :: remove_first p docs'
  end.

Definition set_db (docs : list Analysis) (s : State) : State :=
  {| disk := disk s; execLog := execLog s; rmLog := rmLog s; db := docs;
     statusWrites := statusWrites s; nextId := nextId s; emitted := emitted s |}.

(** * The monad of the asynchronous code *)

Definition M (A : Type) : Type := State → outcome A * State.

Definition ret {A} (a : A) : M A := λ s, (Returned a, s).
Definition throw {A} (e : error) : M A := λ s, (Threw e, s).

Definition bind {A B} (m : M A) (k : A → M B) : M B :=
  λ s, match m s with
       | (Returned a, s') => k a s'
       | (Threw e, s') => (Threw e, s')
       | (Pending, s') => (Pending, s')
       end.

(** [try { m } catch (error) { h error }] *)
Definition try_catch {A} (m : M A) (h : error → M A) : M A :=
  λ s, match m s with
       | (Threw e, s') => h e s'
       | r => r
       end.

Definition lift {A} (r : error + A) : M A :=
  match r with
  | inl e => throw e
  | inr a => ret a
  end.

Definition modify (f : State → State) : M unit := λ s, (Returned tt, f s).

Notation "'let*' x := m 'in' k" := (bind m (λ x, k))
  (at level 10, x binder, m at level 100, k at level 200, only parsing).
Notation "m ;;; k" := (bind m (λ _, k))
  (at level 100, k at level 200, right associativity, only parsing).

(** * [services/repoAnalyzer.js] *)

Module RepoAnalyzer.

(** ** [parseRepoUrl] *)

Definition not_slash (c : ascii) : bool := negb (Ascii.eqb c "/").

(** [([^\/]+)\/([^\/]+)] anchored at the start of [s]. *)
Definition match_owner_repo (s : string) : option (string * string) :=
  let '(o, rest) := span not_slash s in
  match o, rest with
  | String _ _, String _ rest' =>
      let '(r, _) := span not_slash rest' in
      match r with
      | String _ _ => Some (o, r)
      | "" => None
      end
  | _, _ => None
  end.

(** [url.match(/host\/([^\/]+)\/([^\/]+)/)]: the leftmost match. *)
Fixpoint match_host (host : string) (url : string) : option (string * string) :=
  let here := strip_prefix host url ≫= match_owner_repo in
  match here, url with
  | Some m, _ => Some m
  | None, String _ url' => match_host host url'
  | None, "" => None
  end.

(** [s.replace(/\.git$/, '')] *)
Fixpoint strip_git_suffix (s : string) : string :=
  match s with
  | "" => ""
  | String c s' => if String.eqb s ".git" then "" else String c (strip_git_suffix s')
  end.

Definition patterns_hosts : list (string * string) :=
  [("github", "github.com/"); ("gitlab", "gitlab.com/"); ("bitbucket", "bitbucket.org/")].

Fixpoint parseRepoUrl_from (patterns : list (string * string)) (url : string) : RepoInfo :=
  match patterns with
  | [] => {| platform := "other"; owner := None; repo := None; ri_url := url |}
  | (platform, host) :: patterns' =>
      match match_host host url with
      | Some (o, r) =>
          {| platform := platform; owner := Some o;
             repo := Some (strip_git_suffix r); ri_url := url |}
      | None => parseRepoUrl_from patterns' url
      end
  end.

Definition parseRepoUrl (url : string) : RepoInfo := parseRepoUrl_from patterns_hosts url.

(** ** [analyzeStructure] *)

(** [byType[ext] = (byType[ext] || 0) + 1] *)
Fixpoint bump (ext : string) (byType : list (string * Z)) : list (string * Z) :=
  match byType with
  | [] => [(ext, 0 + 1)]
  | (k, n) :: rest =>
      if String.eqb k ext then (k, n + 1) :: rest
      else (k, n) :: bump ext rest
  end.

Fixpoint structure_item (depth : Z) (st : Structure) (item : node) : Structure :=
  match item with
  | Dir _ children =>
      let st1 := {| directories := directories st + 1; files := files st;
                    byType := byType st; maxDepth := maxDepth st |} in
      (* walk(path.join(dir, item.name), depth + 1) *)
      let st2 := {| directories := directories st1; files := files st1;
                    byType := byType st1;
                    maxDepth := Z.max (maxDepth st1) (depth + 1) |} in
      foldl (structure_item (depth + 1)) st2 children
  | File name _ _ =>
      {| directories := directories st; files := files st + 1;
         byType := bump (toLowerCase (extname name)) (byType st);
         maxDepth := maxDepth st |}
  end.

Definition structure_walk (items : tree) : Structure :=
  foldl (structure_item 0)
        {| directories := 0; files := 0; byType := []; maxDepth := Z.max 0 0 |} items.

(** ** [detectLanguages] *)

Definition extensions : list (string * string) :=
  [(".js", "JavaScript"); (".ts", "TypeScript"); (".py", "Python");
   (".java", "Java"); (".go", "Go"); (".rs", "Rust"); (".rb", "Ruby");
   (".php", "PHP"); (".cpp", "C++"); (".c", "C"); (".cs", "C#");
   (".swift", "Swift"); (".kt", "Kotlin"); (".scala", "Scala");
   (".html", "HTML"); (".css", "CSS"); (".json", "JSON"); (".yaml", "YAML");
   (".yml", "YAML"); (".xml", "XML"); (".md", "Markdown")].

(** [languages.add(x)] on a [Set], which keeps insertion order *)
Definition set_add (x : string) (languages : list string) : list string :=
  if includes x languages then languages else languages ++ [x].

Fixpoint languages_item (languages : list string) (item : node) : list string :=
  match item with
  | Dir _ children => foldl languages_item languages children
  | File name _ _ =>
      match assoc (toLowerCase (extname name)) extensions with
      | Some lang => set_add lang languages
      | None => languages
      end
  end.

Definition languages_walk (items : tree) : list string := foldl languages_item [] items.

(** ** [findConfigFiles] *)

Definition config_patterns : list string :=
  ["package.json"; "package-lock.json"; "yarn.lock";
   "pom.xml"; "build.gradle"; "build.gradle.kts";
   "requirements.txt"; "Pipfile"; "pyproject.toml";
   "Cargo.toml"; "go.mod"; "composer.json";
   "docker-compose.yml"; "docker-compose.yaml";
   ".dockerignore"; ".gitignore"; ".env.example";
   "Makefile"; "Procfile"; "webpack.config.js";
   "tsconfig.json"; ".eslintrc"; ".prettierrc"].

(** [rel] is [path.relative(repoPath, dir)]: the names from the workspace
    root down to [dir]. *)
Fixpoint config_item (rel : string) (configFiles : list ConfigFile) (item : node)
    : list ConfigFile :=
  match item with
  | Dir name children => foldl (config_item (path_join rel name)) configFiles children
  | File name size _ =>
      if includes name config_patterns
      then configFiles ++ [{| cf_name := name; cf_path := path_join rel name; cf_size := size |}]
      else configFiles
  end.

Definition config_walk (items : tree) : list ConfigFile := foldl (config_item "") [] items.

(** ** [analyzeDependencies]: the two manifest formats *)

Fixpoint chars_from (i : nat) (s : string) : list (string * json) :=
  match s with
  | "" => []
  | String c s' => (pretty i, JStr (String c "")) :: chars_from (S i) s'
  end.

(** [Object.entries(x)]; the fields of a [JObj] are in property order. *)
Definition Object_entries (j : json) : list (string * json) :=
  match j with
  | JObj fields => fields
  | JArr items => imap (λ i v, (pretty i, v)) items
  | JStr s => chars_from 0 s
  | _ => []
  end.

(** One [forEach] step over [Object.entries(packageJson.dependencies)]:
    [version.replace] exists on strings only. *)
Definition npm_record (entry : string * json) : error + DependencyRecord :=
  match entry with
  | (name, JStr version) =>
      inr {| d_name := name;
             d_version := replace_first "~" (replace_first "^" version);
             d_type := "runtime"; d_manager := "npm" |}
  | (_, _) => inl (TypeError "version.replace is not a function")
  end.

Fixpoint npm_records (entries : list (string * json)) : error + list DependencyRecord :=
  match entries with
  | [] => inr []
  | entry :: rest =>
      match npm_record entry with
      | inl e => inl e
      | inr d => match npm_records rest with
                 | inl e => inl e
                 | inr ds => inr (d :: ds)
                 end
      end
  end.

(** The records of a parsed [package.json]. *)
Definition npm_dependencies (packageJson : json) : error + list DependencyRecord :=
  match packageJson with
  | JNull => inl (TypeError "Cannot read properties of null (reading 'dependencies')")
  | _ =>
      match prop "dependencies" packageJson with
      | Some deps => if truthy deps then npm_records (Object_entries deps) else inr []
      | None => inr []
      end
  end.

Definition name_char (c : ascii) : bool :=
  is_lower c || is_upper c || is_digit c || Ascii.eqb c "_" || Ascii.eqb c "-".
Definition version_char (c : ascii) : bool := is_digit c || Ascii.eqb c ".".

(** [line.match(/^([a-zA-Z0-9_-]+)==([0-9.]+)/)] *)
Definition match_requirement (line : string) : option (string * string) :=
  let '(name, rest) := span name_char line in
  match name, strip_prefix "==" rest with
  | String _ _, Some rest' =>
      let '(version, _) := span version_char rest' in
      match version with
      | String _ _ => Some (name, version)
      | "" => None
      end
  | _, _ => None
  end.

Definition pip_record (line : string) : option DependencyRecord :=
  match match_requirement line with
  | Some (name, version) =>
      Some {| d_name := name; d_version := version;
              d_type := "runtime"; d_manager := "pip" |}
  | None => None
  end.

(** The records of the text of a [requirements.txt]. *)
Definition pip_dependencies (content : string) : list DependencyRecord :=
  omap pip_record (split_lines content).

(** ** [calculateMetrics] and [isTextFile] *)

Definition binaryExtensions : list string :=
  [".png"; ".jpg"; ".jpeg"; ".gif"; ".ico"; ".svg";
   ".pdf"; ".zip"; ".tar"; ".gz"; ".exe"; ".dll";
   ".so"; ".dylib"; ".class"; ".jar"; ".war"].

Definition isTextFile (filename : string) : bool :=
  let ext := toLowerCase (extname filename) in
  negb (includes ext binaryExtensions).

Definition count_lines (content : string) : Z := Z.of_nat (length (split_lines content)).

Fixpoint metrics_item (rel : string) (metrics : CodeMetrics) (item : node) : CodeMetrics :=
  match item with
  | Dir name children => foldl (metrics_item (path_join rel name)) metrics children
  | File name _ content =>
      if isTextFile name then
        let m1 := {| totalLines := totalLines metrics; totalFiles := totalFiles metrics + 1;
                     avgLinesPerFile := avgLinesPerFile metrics;
                     largestFile := largestFile metrics |} in
        match content with
        | Some text =>
            let lines := count_lines text in
            let m2 := {| totalLines := totalLines m1 + lines; totalFiles := totalFiles m1;
                         avgLinesPerFile := avgLinesPerFile m1;
                         largestFile := largestFile m1 |} in
            if lf_lines (largestFile m2) <? lines
            then {| totalLines := totalLines m2; totalFiles := totalFiles m2;
                    avgLinesPerFile := avgLinesPerFile m2;
                    largestFile := {| lf_name := path_join rel name; lf_lines := lines |} |}
            else m2
        | None => m1                    (* catch: skip binary files *)
        end
      else metrics
  end.

Definition metrics_init : CodeMetrics :=
  {| totalLines := 0; totalFiles := 0; avgLinesPerFile := 0;
     largestFile := {| lf_name := ""; lf_lines := 0 |} |}.

(** [Math.round(a / b)] for [a >= 0] and [b > 0]: halves round up. *)
Definition Math_round_div (a b : Z) : Z := (2 * a + b) / (2 * b).

Definition metrics_walk (items : tree) : CodeMetrics :=
  let metrics := foldl (metrics_item "") metrics_init items in
  if 0 <? totalFiles metrics
  then {| totalLines := totalLines metrics; totalFiles := totalFiles metrics;
          avgLinesPerFile := Math_round_div (totalLines metrics) (totalFiles metrics);
          largestFile := largestFile metrics |}
  else metrics.

(** ** [getFileList] *)

Fixpoint filelist_item (relativePath : string) (acc : list FileEntry) (item : node)
    : list FileEntry :=
  match item with
  | Dir name children =>
      let fileRelativePath := path_join relativePath name in
      foldl (filelist_item fileRelativePath)
            (acc ++ [{| fe_name := name; fe_path := fileRelativePath; fe_isDirectory := true;
                        fe_size := 0; fe_extension := toLowerCase (extname name) |}])
            children
  | File name size _ =>
      acc ++ [{| fe_name := name; fe_path := path_join relativePath name;
                 fe_isDirectory := false; fe_size := size;
                 fe_extension := toLowerCase (extname name) |}]
  end.

Definition filelist_walk (items : tree) : list FileEntry := foldl (filelist_item "") [] items.

Section WithEnv.
Variable E : Env.

(** ** [child_process.exec], promisified and called with no options: no
    [timeout] is passed, so Node never kills the child. *)
Definition execPromise (cmd : string) : M unit :=
  λ s, let s1 := log_exec cmd s in
       match shell E cmd (disk s) with
       | Exit0 d => (Returned tt, set_disk d s1)
       | ExitErr diagnostic => (Threw (ExecError cmd diagnostic), s1)
       | NeverExits => (Pending, s1)
       end.

(** [fs.mkdirSync(path, { recursive: true })] *)
Definition mkdirSync (path : string) : M unit :=
  modify (λ s, match disk s !! path with
               | Some _ => s
               | None => set_disk (<[path := []]> (disk s)) s
               end).

(** [fs.rmSync(path, { recursive: true, force: true })]: a removal that
    throws has removed a part of the directory, which itself stays. *)
Definition rmSync (path : string) : M unit :=
  λ s, let s1 := log_rm path s in
       if rmSync_fails E path
       then (Threw (EACCES path),
             set_disk (alter (left_tree (rmSync_removed E path)) path (disk s)) s1)
       else (Returned tt, set_disk (delete path (disk s)) s1).

(** [fs.readdirSync(dir, { withFileTypes: true })] on a workspace root *)
Definition readdirSync (dir : string) : M tree :=
  λ s, match disk s !! dir with
       | Some t => (Returned t, s)
       | None => (Threw (ENOENT dir), s)
       end.

(** ** [cloneRepository] *)

Definition cloneCmd (depth : Z) (branch url repoPath : string) : string :=
  "git clone --depth " +:+ pretty depth +:+ " --branch " +:+ branch +:+ " "
    +:+ url +:+ " " +:+ repoPath.

Definition fallbackCmd (depth : Z) (url repoPath : string) : string :=
  "git clone --depth " +:+ pretty depth +:+ " " +:+ url +:+ " " +:+ repoPath.

Definition cloneRepository (url branch : string) (depth : Z) : M string :=
  let repoId := newRepoId E in
  let repoPath := path_join (tempDir E) repoId in
  mkdirSync repoPath;;;
  try_catch
    (execPromise (cloneCmd depth branch url repoPath);;;
     ret repoPath)
    (λ error,
       (* Try without branch *)
       execPromise (fallbackCmd depth url repoPath);;;
       ret repoPath).

(** ** The stages, each reading the workspace from disk *)

Definition analyzeStructure (repoPath : string) : M Structure :=
  let* items := readdirSync repoPath in
  ret (structure_walk items).

Definition detectLanguages (repoPath : string) : M (list string) :=
  let* items := readdirSync repoPath in
  ret (languages_walk items).

Definition findConfigFiles (repoPath : string) : M (list ConfigFile) :=
  let* items := readdirSync repoPath in
  ret (config_walk items).

Definition find_entry (name : string) (items : tree) : option node :=
  List.find (λ item, String.eqb (node_name item) name) items.

(** [fs.existsSync(path.join(repoPath, name))] *)
Definition existsSync (repoPath name : string) : M bool :=
  λ s, (Returned (bool_decide (is_Some (disk s !! repoPath ≫= find_entry name))), s).

(** [fs.readFileSync(path.join(repoPath, name), 'utf8')] *)
Definition readFileSync (repoPath name : string) : M string :=
  λ s, match disk s !! repoPath ≫= find_entry name with
       | Some (File _ _ (Some text)) => (Returned text, s)
       | Some (File _ _ None) => (Threw (EACCES (path_join repoPath name)), s)
       | Some (Dir _ _) => (Threw (EISDIR (path_join repoPath name)), s)
       | None => (Threw (ENOENT (path_join repoPath name)), s)
       end.

(** [JSON.parse(text)] *)
Definition JSON_parse_M (text : string) : M json :=
  match JSON_parse E text with
  | Some j => ret j
  | None => throw (SyntaxError text)
  end.

Definition analyzeDependencies (repoPath : string) : M (list DependencyRecord) :=
  let dependencies := [] in
  (* Check for package.json (Node.js) *)
  let* hasPackageJson := existsSync repoPath "package.json" in
  let* dependencies :=
    if hasPackageJson : bool then
      let* text := readFileSync repoPath "package.json" in
      let* packageJson := JSON_parse_M text in
      let* records := lift (npm_dependencies packageJson) in
      ret (dependencies ++ records)
    else ret dependencies in
  (* Check for requirements.txt (Python) *)
  let* hasRequirements := existsSync repoPath "requirements.txt" in
  let* dependencies :=
    if hasRequirements : bool then
      let* content := readFileSync repoPath "requirements.txt" in
      ret (dependencies ++ pip_dependencies content)
    else ret dependencies in
  ret dependencies.

Definition calculateMetrics (repoPath : string) : M CodeMetrics :=
  let* items := readdirSync repoPath in
  ret (metrics_walk items).

Definition getFileList (repoPath : string) : M (list FileEntry) :=
  let* items := readdirSync repoPath in
  ret (filelist_walk items).

Definition cleanupTempDir (repoPath : string) : M unit :=
  try_catch (rmSync repoPath)
            (λ error, (* logger.warn *) ret tt).

(** ** [analyzeRepository] (the service) *)

Definition analyzeRepository (url : string) (options : Options) : M AnalysisResult :=
  try_catch
    (let branch := default "main" (o_branch options) in
     let depth := default 3 (o_depth options) in
     let includeDependencies := default true (o_includeDependencies options) in
     let repoInfo := parseRepoUrl url in
     (* Clone repository *)
     let* repoPath := cloneRepository url branch depth in
     (* Analyze structure *)
     let* structure := analyzeStructure repoPath in
     (* Get languages *)
     let* languages := detectLanguages repoPath in
     (* Find configuration files *)
     let* configFiles := findConfigFiles repoPath in
     (* Analyze dependencies if requested *)
     let* dependencies :=
       if includeDependencies : bool then analyzeDependencies repoPath else ret [] in
     (* Calculate metrics *)
     let* metrics := calculateMetrics repoPath in
     (* Clean up temp directory *)
     cleanupTempDir repoPath;;;
     let* files := getFileList repoPath in
     ret {| r_repository := repoInfo; r_branch := branch; r_structure := structure;
            r_languages := languages; r_configFiles := configFiles;
            r_dependencies := dependencies; r_metrics := metrics; r_files := files |})
    (λ error, (* logger.error *) throw error).

End WithEnv.

(** ** [validateRepository] *)

Section Validation.
Variable E : Env.

(** [this.octokit.repos.get({ owner, repo })] *)
Variable octokit_repos_get : option string → option string → settled.

Definition repos_get (owner repo : option string) : M unit :=
  λ s, match octokit_repos_get owner repo with
       | Resolved => (Returned tt, s)
       | Rejected reason => (Threw (APIError reason), s)
       | Unsettled => (Pending, s)
       end.

Definition validateRepository (url : string) : M bool :=
  try_catch
    (let repoInfo := parseRepoUrl url in
     if String.eqb (platform repoInfo) "github" then
       repos_get (owner repoInfo) (repo repoInfo);;;
       ret true
     else
       (* For other platforms, try to clone *)
       let* repoPath := cloneRepository E url "main" 1 in
       cleanupTempDir E repoPath;;;
       ret true)
    (λ error, ret false).

End Validation.

End RepoAnalyzer.

Import RepoAnalyzer.

(** * Values as they are stored and sent *)

Definition opt_field (k : string) (v : option json) : list (string * json) :=
  match v with
  | Some j => [(k, j)]
  | None => []
  end.

Definition RepoInfo_json (r : RepoInfo) : json :=
  JObj ([("platform", JStr (platform r))]
        ++ opt_field "owner" (JStr <$> owner r)
        ++ opt_field "repo" (JStr <$> repo r)
        ++ [("url", JStr (ri_url r))]).

Definition Structure_json (st : Structure) : json :=
  JObj [("directories", JNum (directories st)); ("files", JNum (files st));
        ("byType", JObj (prod_map id JNum <$> byType st));
        ("maxDepth", JNum (maxDepth st))].

Definition ConfigFile_json (c : ConfigFile) : json :=
  JObj [("name", JStr (cf_name c)); ("path", JStr (cf_path c)); ("size", JNum (cf_size c))].

Definition DependencyRecord_json (d : DependencyRecord) : json :=
  JObj [("name", JStr (d_name d)); ("version", JStr (d_version d));
        ("type", JStr (d_type d)); ("manager", JStr (d_manager d))].

Definition CodeMetrics_json (m : CodeMetrics) : json :=
  JObj [("totalLines", JNum (totalLines m)); ("totalFiles", JNum (totalFiles m));
        ("avgLinesPerFile", JNum (avgLinesPerFile m));
        ("largestFile", JObj [("name", JStr (lf_name (largestFile m)));
                              ("lines", JNum (lf_lines (largestFile m)))])].

Definition FileEntry_json (f : FileEntry) : json :=
  JObj [("name", JStr (fe_name f)); ("path", JStr (fe_path f));
        ("isDirectory", JBool (fe_isDirectory f)); ("size", JNum (fe_size f));
        ("extension", JStr (fe_extension f))].

Definition AnalysisResult_fields (r : AnalysisResult) : list (string * json) :=
  [("repository", RepoInfo_json (r_repository r));
   ("branch", JStr (r_branch r));
   ("structure", Structure_json (r_structure r));
   ("languages", JArr (JStr <$> r_languages r));
   ("configFiles", JArr (ConfigFile_json <$> r_configFiles r));
   ("dependencies", JArr (DependencyRecord_json <$> r_dependencies r));
   ("metrics", CodeMetrics_json (r_metrics r));
   ("files", JArr (FileEntry_json <$> r_files r))].

(** * [services/ai/openaiService.js] *)

Module OpenAIService.

(** Mock Responses (Fallback when OpenAI is unavailable) *)
Definition getMockInsights (analysisData : AnalysisResult) : json :=
  JObj [("architecture", JStr "Monolithic application structure");
        ("quality", JStr "Good code organization, needs more tests");
        ("performance", JArr [JStr "Add caching layer";
                              JStr "Optimize database queries";
                              JStr "Implement CDN for static assets"]);
        ("security", JArr [JStr "Update dependencies";
                           JStr "Add input validation";
                           JStr "Implement rate limiting"]);
        ("devops", JArr [JStr "Add Docker support";
                         JStr "Create CI/CD pipeline";
                         JStr "Implement monitoring"])].

Section WithEnv.
Variable E : Env.

(** [try { return JSON.parse(content) } catch { return { raw: content } }] *)
Definition parseAIResponse (content : string) : json :=
  match JSON_parse E content with
  | Some j => j
  | None => JObj [("raw", JStr content)]
  end.

(** [await this.client.chat.completions.create({...})] followed by
    [response.choices[0].message.content] *)
Definition completion_content (analysisData : AnalysisResult) : M string :=
  match chat_completions_create E analysisData with
  | AIRejected reason => throw (APIError reason)
  | AIMalformed => throw (TypeError "Cannot read properties of undefined")
  | AIContent content => ret content
  end.

Definition getRepositoryInsights (analysisData : AnalysisResult) : M json :=
  try_catch
    (let* content := completion_content analysisData in
     ret (parseAIResponse content))
    (λ error, (* logger.error *) ret (getMockInsights analysisData)).

End WithEnv.

End OpenAIService.

Import OpenAIService.

(** * [services/ai/openaiService.js]: the other requests

    The module under the name the controllers import it by. *)

Module AIService.

Definition getMockSuggestions : list string :=
  ["Add unit tests";
   "Implement error handling";
   "Optimize database queries";
   "Add API documentation";
   "Implement caching"].

Definition getMockCodeReview : json :=
  JObj [("summary", JStr "Code quality is good overall");
        ("issues", JArr [JObj [("file", JStr "server.js");
                               ("line", JNum 45);
                               ("issue", JStr "Missing error handling");
                               ("severity", JStr "medium");
                               ("suggestion", JStr "Add try-catch block")]]);
        ("recommendations", JArr [JStr "Add more comments"; JStr "Extract constants"])].

Definition getMockDependencyAnalysis : json :=
  JObj [("outdated", JArr [JStr "express@4.17.1 → 4.18.2"; JStr "mongoose@6.0.0 → 7.0.0"]);
        ("vulnerabilities", JArr [JObj [("package", JStr "lodash");
                                        ("version", JStr "4.17.20");
                                        ("severity", JStr "medium");
                                        ("fix", JStr "Update to 4.17.21")]]);
        ("recommendations", JArr [JStr "Update all packages"; JStr "Add dependabot"])].

(** [content.split('\n').filter(line => line.trim())] *)
Definition parseSuggestions (content : string) : list string :=
  List.filter (λ line, negb (String.eqb (trim line) "")) (split_lines content).

(** [x.join(', ')] is a call of the method of arrays: the elements of [x]. *)
Definition joined (what : string) (x : option json) : M (list json) :=
  match x with
  | Some (JArr items) => ret items
  | None | Some JNull =>
      throw (TypeError ("Cannot read properties of undefined (reading 'join')"))
  | Some _ => throw (TypeError (what +:+ ".join is not a function"))
  end.

(** [response.choices[0].message.content] of an awaited response *)
Definition content_of (response : ai_outcome) : M string :=
  match response with
  | AIRejected reason => throw (APIError reason)
  | AIMalformed => throw (TypeError "Cannot read properties of undefined")
  | AIContent content => ret content
  end.

Section WithClient.

(** [this.client.chat.completions.create({...})], once for each method: the
    request is the prompt, which is computed from these arguments. *)
Variable suggestions_completion : list json → ai_outcome.             (* aspects *)
Variable review_completion : option json → list json → ai_outcome.    (* focus, files *)
Variable dependency_completion : ai_outcome.

Definition getRepositorySuggestions (analysisData options : json) : M (list string) :=
  try_catch
    (let* aspects := lift (member "aspects" options) in
     let* aspects := joined "options.aspects" aspects in
     let* content := content_of (suggestions_completion aspects) in
     ret (parseSuggestions content))
    (λ error, (* logger.error *) ret getMockSuggestions).

Definition performCodeReview (analysisData options : json) : M json :=
  try_catch
    (let* files := lift (member "files" options) in
     let* focus := lift (member "focus" options) in
     let* files := joined "files" files in
     let* content := content_of (review_completion focus files) in
     (* [this.parseCodeReview(content)]: the class has no method of that name *)
     throw (TypeError "this.parseCodeReview is not a function"))
    (λ error, (* logger.error *) ret getMockCodeReview).

Definition analyzeDependencies (analysisData options : json) : M json :=
  try_catch
    (let* content := content_of dependency_completion in
     (* [this.parseDependencyAnalysis(content)]: no method of that name either *)
     throw (TypeError "this.parseDependencyAnalysis is not a function"))
    (λ error, (* logger.error *) ret getMockDependencyAnalysis).

End WithClient.

End AIService.

(** * [models/Analysis.js] *)

Module AnalysisModel.

Section WithEnv.
Variable E : Env.

(** [new Analysis({...})]: a fresh [_id], and the schema defaults *)
Definition new_Analysis (userId repositoryUrl : option string) (branch status : option string)
    (analysisData metrics error : option json) : M Analysis :=
  λ s, (Returned {| _id := nextId s; userId := userId; repositoryUrl := repositoryUrl;
                    a_branch := default "main" branch;
                    status := default "pending" status;
                    analysisData := default (JObj []) analysisData;
                    a_metrics := metrics; a_error := error |},
        take_id s).

(** [doc.save()]: validation against the schema, then the write *)
Definition save (a : Analysis) : M unit :=
  λ s, if negb (bool_decide (is_Some (userId a))) then (Threw (ValidationError "userId"), s)
       else if negb (bool_decide (is_Some (repositoryUrl a)))
       then (Threw (ValidationError "repositoryUrl"), s)
       else if negb (includes (status a) status_enum) then (Threw (ValidationError "status"), s)
       else if db_down E then (Threw (MongoError "connection refused"), s)
       else (Returned tt, persist a s).

(** The helper [calculateMetrics] of the model file *)
Definition calculateMetrics (analysisData : json) : error + json :=
  match member "metrics" analysisData, member "files" analysisData,
        member "languages" analysisData, member "dependencies" analysisData with
  | inr metrics, inr files, inr languages, inr dependencies =>
      inr (JObj [("analysisDuration", JNum (Math_random E 300 + 60));
                 ("totalLines", or_else (opt_member "totalLines" metrics) (JNum 0));
                 ("totalFiles", length_or_0 files);
                 ("languageDistribution", or_else languages (JArr []));
                 ("dependencyCount", length_or_0 dependencies);
                 ("complexity", JObj [("cyclomatic", JNum (Math_random E 50 + 10));
                                      ("cognitive", JNum (Math_random E 100 + 20));
                                      ("maintainability", JNum (Math_random E 40 + 60))])])
  | inl e, _, _, _ | _, inl e, _, _ | _, _, inl e, _ | _, _, _, inl e => inl e
  end.

(** [analysisSchema.methods.updateStatus = function(status, data = {})] *)
Definition updateStatus (this : Analysis) (status : string) (data : option json) : M Analysis :=
  let data := default (JObj []) data in
  let this := set_status status this in
  let* this :=
    if String.eqb status "completed" then
      let this := set_analysisData data this in
      let* metrics := lift (calculateMetrics data) in
      ret (set_metrics metrics this)
    else if String.eqb status "failed" then
      let* error := lift (member "error" data) in
      ret (set_error (or_else error (JStr "Analysis failed")) this)
    else ret this in
  save this;;;
  ret this.

(** [Analysis.findOne({ _id, userId })] *)
Definition findOne (id : N) (uid : string) : M (option Analysis) :=
  λ s, if db_down E then (Threw (MongoError "connection refused"), s)
       else (Returned (List.find (λ a, N.eqb (_id a) id
                                        && bool_decide (userId a = Some uid)) (db s)), s).

(** [Analysis.deleteOne({ _id, userId })], resolved to its [deletedCount] *)
Definition deleteOne (id : N) (uid : string) : M Z :=
  λ s, if db_down E then (Threw (MongoError "connection refused"), s)
       else let matches := λ a, N.eqb (_id a) id && bool_decide (userId a = Some uid) in
            match List.find matches (db s) with
            | Some _ => (Returned 1, set_db (remove_first matches (db s)) s)
            | None => (Returned 0, s)
            end.

End WithEnv.

End AnalysisModel.

(** * [controllers/analyzeController.js] *)

Module AnalyzeController.

(** [aiInsights.recommendations?.length || 0] as a number; [None] when it
    is not one (a [length] property that is not a number). *)
Definition count_of (x : option json) : option Z :=
  match length_or_0 x with
  | JNum n => Some n
  | JBool true => Some 1
  | _ => None
  end.

Definition calculateQualityScore (aiInsights : json) : error + json :=
  match member "recommendations" aiInsights, member "issues" aiInsights with
  | inr recommendations, inr issues =>
      let baseScore := 80 in
      match count_of recommendations, count_of issues with
      | Some improvements, Some issues =>
          inr (JNum (Z.max 0 (Z.min 100 (baseScore - issues * 5 + improvements * 2))))
      | _, _ => inr JNull               (* NaN *)
      end
  | inl e, _ | _, inl e => inl e
  end.

Definition generateSummary (analysisResult : AnalysisResult) (aiInsights : json)
    : error + json :=
  match member "complexity" aiInsights, calculateQualityScore aiInsights with
  | inr complexity, inr qualityScore =>
      inr (JObj [("totalFiles", JNum (Z.of_nat (length (r_files analysisResult))));
                 ("totalLines", JNum (totalLines (r_metrics analysisResult)));
                 ("languages", JArr (JStr <$> r_languages analysisResult));
                 ("dependencies", JNum (Z.of_nat (length (r_dependencies analysisResult))));
                 ("complexity", or_else complexity (JStr "medium"));
                 ("qualityScore", qualityScore)])
  | inl e, _ | _, inl e => inl e
  end.

Section WithEnv.
Variable E : Env.

(** The controller's own [calculateMetrics(fullAnalysis)] *)
Definition calculateMetrics (analysisResult : AnalysisResult) : json :=
  JObj [("analysisDuration", JNum (Math_random E 300 + 60));
        ("totalLines", JNum (totalLines (r_metrics analysisResult)));
        ("totalFiles", JNum (Z.of_nat (length (r_files analysisResult))));
        ("languageDistribution", JArr (JStr <$> r_languages analysisResult));
        ("dependencyCount", JNum (Z.of_nat (length (r_dependencies analysisResult))))].

Definition emit (event : string) : M unit := modify (log_emit event).

Definition json_of_id (id : N) : json := JStr (pretty id).

(** The document the [try] block saves. *)
Definition completed_Analysis (userId : string) (url : option string) (branch : string)
    (analysisResult : AnalysisResult) (aiInsights summary : json) : M Analysis :=
  let fullAnalysis :=
    JObj (AnalysisResult_fields analysisResult
          ++ [("aiInsights", aiInsights); ("summary", summary)]) in
  AnalysisModel.new_Analysis (Some userId) url (Some branch) (Some "completed")
               (Some fullAnalysis) (Some (calculateMetrics analysisResult)) None.

(** The document the [catch] block saves. *)
Definition failed_Analysis (req : Request) (url : string) (error : error) : M Analysis :=
  AnalysisModel.new_Analysis (req_user req) (Some url) None (Some "failed") None None
               (Some (JStr (message error))).

(** The [try] block of [analyzeRepository] *)
Definition analyzeRepository_try (req : Request) : M Response :=
  let url := body_url req in
  let branch := default "main" (body_branch req) in
  let depth := default 3 (body_depth req) in
  let includeDependencies := default true (body_includeDependencies req) in
  let* userId :=
    match req_user req with
    | Some id => ret id
    | None => throw (TypeError "Cannot read properties of undefined (reading 'id')")
    end in
  (* Emit analysis started event *)
  emit "analysis-started";;;
  (* Clone and analyze repository *)
  let* analysisResult :=
    match url with
    | Some url =>
        RepoAnalyzer.analyzeRepository E url
          {| o_branch := Some branch; o_depth := Some depth;
             o_includeDependencies := Some includeDependencies |}
    | None => throw (TypeError "Cannot read properties of undefined (reading 'match')")
    end in
  (* Get AI insights *)
  let* aiInsights := OpenAIService.getRepositoryInsights E analysisResult in
  (* Combine results *)
  let* summary := lift (generateSummary analysisResult aiInsights) in
  (* Save to database *)
  let* analysis := completed_Analysis userId url branch analysisResult aiInsights summary in
  AnalysisModel.save E analysis;;;
  (* Emit analysis completed event *)
  emit "analysis-completed";;;
  let* insights := lift (member "recommendations" aiInsights) in
  ret {| code := 200;
         body := JObj [("success", JBool true);
                       ("data", JObj ([("analysisId", json_of_id (_id analysis));
                                       ("repository", default JNull (JStr <$> url));
                                       ("summary", summary)]
                                      ++ opt_field "insights" insights
                                      ++ opt_field "metrics" (a_metrics analysis)))] |}.

(** The [catch (error)] block of [analyzeRepository] *)
Definition analyzeRepository_catch (req : Request) (error : error) : M Response :=
  (* Save failed analysis *)
  (match body_url req with
   | Some url =>
       if negb (String.eqb url "") then
         let* failedAnalysis := failed_Analysis req url error in
         AnalysisModel.save E failedAnalysis
       else ret tt
   | None => ret tt
   end);;;
  ret {| code := 500;
         body := JObj [("success", JBool false);
                       ("error", JStr "Repository analysis failed");
                       ("details", JStr (message error))] |}.

Definition analyzeRepository (req : Request) : M Response :=
  try_catch (analyzeRepository_try req) (analyzeRepository_catch req).

Definition not_found : Response :=
  {| code := 404;
     body := JObj [("success", JBool false); ("error", JStr "Analysis not found")] |}.

Definition getAnalysisById (req : GetRequest) : M Response :=
  try_catch
    (let* userId :=
       match get_user req with
       | Some id => ret id
       | None => throw (TypeError "Cannot read properties of undefined (reading 'id')")
       end in
     let* found := AnalysisModel.findOne E (analysisId req) userId in
     match found with
     | None => ret not_found
     | Some analysis =>
         let data := Some (analysisData analysis) in
         (* Prepare response data *)
         let responseData :=
           [("analysisId", json_of_id (_id analysis));
            ("repositoryUrl", default JNull (JStr <$> repositoryUrl analysis));
            ("branch", JStr (a_branch analysis));
            ("status", JStr (status analysis));
            ("summary", or_else (opt_member "summary" data) (JObj []));
            ("insights",
             or_else (opt_member "recommendations" (opt_member "aiInsights" data)) (JArr []))] in
         let responseData :=
           match opt_member "files" data with
           | Some files =>
               if includeFiles req && truthy files
               then responseData ++ [("files", files)] else responseData
           | None => responseData
           end in
         let responseData :=
           if includeMetrics req
           then responseData ++ [("metrics", default (JObj []) (a_metrics analysis))]
           else responseData in
         let responseData :=
           match opt_member "structure" data with
           | Some structure =>
               if truthy structure
               then responseData ++ [("structure", structure)] else responseData
           | None => responseData
           end in
         ret {| code := 200;
                body := JObj [("success", JBool true); ("data", JObj responseData)] |}
     end)
    (λ error,
       ret {| code := 500;
              body := JObj [("success", JBool false);
                            ("error", JStr "Failed to fetch analysis")] |}).

End WithEnv.

(** ** The other requests on a stored analysis *)

(** [req.user.id] *)
Definition user_id (user : option string) : M string :=
  match user with
  | Some id => ret id
  | None => throw (TypeError "Cannot read properties of undefined (reading 'id')")
  end.

(** [items.filter(p)], where the callback may throw *)
Fixpoint filter_items (p : json → error + bool) (items : list json) : error + list json :=
  match items with
  | [] => inr []
  | x :: rest =>
      match p x with
      | inl e => inl e
      | inr keep =>
          match filter_items p rest with
          | inl e => inl e
          | inr kept => inr (if keep : bool then x :: kept else kept)
          end
      end
  end.

(** [x.filter(p)]: a method of arrays only *)
Definition Array_filter (p : json → error + bool) (x : json) : error + json :=
  match x with
  | JArr items => match filter_items p items with
                  | inl e => inl e
                  | inr kept => inr (JArr kept)
                  end
  | JNull => inl (TypeError "Cannot read properties of null (reading 'filter')")
  | _ => inl (TypeError "files.filter is not a function")
  end.

(** [file => file.path.startsWith(path)] *)
Definition path_startsWith (path : string) (file : json) : error + bool :=
  match member "path" file with
  | inl e => inl e
  | inr (Some (JStr p)) => inr (startsWith path p)
  | inr None | inr (Some JNull) =>
      inl (TypeError "Cannot read properties of undefined (reading 'startsWith')")
  | inr (Some _) => inl (TypeError "file.path.startsWith is not a function")
  end.

(** [file => type === 'file' ? !file.isDirectory : file.isDirectory] *)
Definition type_matches (type : string) (file : json) : error + bool :=
  match member "isDirectory" file with
  | inl e => inl e
  | inr isDirectory =>
      let isDirectory := match isDirectory with
                         | Some v => truthy v
                         | None => false
                         end in
      inr (if String.eqb type "file" then negb isDirectory else isDirectory)
  end.

Section WithServices.
Variable E : Env.
Variable suggestions_completion : list json → ai_outcome.

Definition getSuggestions (req : SuggestRequest) : M Response :=
  try_catch
    (let aspects :=
       default (JArr [JStr "security"; JStr "performance"; JStr "best-practices"])
               (sr_aspects req) in
     let includeExamples := default (JBool true) (sr_includeExamples req) in
     let* userId := user_id (sr_user req) in
     let* found := AnalysisModel.findOne E (sr_analysisId req) userId in
     match found with
     | None => ret not_found
     | Some analysis =>
         if negb (String.eqb (status analysis) "completed") then
           ret {| code := 400;
                  body := JObj [("success", JBool false);
                                ("error", JStr "Analysis not completed yet")] |}
         else
           (* Get AI suggestions *)
           let* suggestions :=
             AIService.getRepositorySuggestions suggestions_completion
               (analysisData analysis)
               (JObj [("aspects", aspects); ("includeExamples", includeExamples)]) in
           ret {| code := 200;
                  body := JObj [("success", JBool true);
                                ("data", JObj [("analysisId", json_of_id (sr_analysisId req));
                                               ("aspects", aspects);
                                               ("suggestions", JArr (JStr <$> suggestions))])] |}
     end)
    (λ error,
       ret {| code := 500;
              body := JObj [("success", JBool false);
                            ("error", JStr "Failed to get suggestions")] |}).

Definition getFileStructure (req : FilesRequest) : M Response :=
  try_catch
    (let path := default "" (fr_path req) in
     let type := default "all" (fr_type req) in
     let* userId := user_id (fr_user req) in
     let* found := AnalysisModel.findOne E (fr_analysisId req) userId in
     match found with
     | None => ret not_found
     | Some analysis =>
         let files := or_else (opt_member "files" (Some (analysisData analysis))) (JArr []) in
         (* Filter files based on path and type *)
         let filteredFiles := files in
         let* filteredFiles :=
           if negb (String.eqb path "")
           then lift (Array_filter (path_startsWith path) files)
           else ret filteredFiles in
         let* filteredFiles :=
           if negb (String.eqb type "all")
           then lift (Array_filter (type_matches type) filteredFiles)
           else ret filteredFiles in
         let* total := lift (member "length" filteredFiles) in
         ret {| code := 200;
                body := JObj [("success", JBool true);
                              ("data", JObj ([("analysisId", json_of_id (fr_analysisId req));
                                              ("path", JStr path);
                                              ("type", JStr type);
                                              ("files", filteredFiles)]
                                             ++ opt_field "total" total))] |}
     end)
    (λ error,
       ret {| code := 500;
              body := JObj [("success", JBool false);
                            ("error", JStr "Failed to get file structure")] |}).

Definition deleteAnalysis (req : GetRequest) : M Response :=
  try_catch
    (let* userId := user_id (get_user req) in
     let* deletedCount := AnalysisModel.deleteOne E (analysisId req) userId in
     if deletedCount =? 0 then ret not_found
     else ret {| code := 200;
                 body := JObj [("success", JBool true);
                               ("message", JStr "Analysis deleted successfully")] |})
    (λ error,
       ret {| code := 500;
              body := JObj [("success", JBool false);
                            ("error", JStr "Failed to delete analysis")] |}).

End WithServices.

End AnalyzeController.

(** * [models/User.js]: the daily quota *)

Module UserModel.

(** The paths of the schema that the quota and the middleware read; [limits]
    and [usage] are flattened, and [lastReset] is a date in milliseconds. *)
Record User := {
  user_id : string;
  role : string;
  isActive : bool;
  analysesPerDay : Z;
  deploymentsPerDay : Z;
  analysesToday : Z;
  deploymentsToday : Z;
  lastReset : Z
}.

Definition set_analysesToday (n : Z) (u : User) : User :=
  {| user_id := user_id u; role := role u; isActive := isActive u;
     analysesPerDay := analysesPerDay u; deploymentsPerDay := deploymentsPerDay u;
     analysesToday := n; deploymentsToday := deploymentsToday u; lastReset := lastReset u |}.

Definition set_deploymentsToday (n : Z) (u : User) : User :=
  {| user_id := user_id u; role := role u; isActive := isActive u;
     analysesPerDay := analysesPerDay u; deploymentsPerDay := deploymentsPerDay u;
     analysesToday := analysesToday u; deploymentsToday := n; lastReset := lastReset u |}.

Section WithClock.

(** [date.toDateString()], in the time zone of the server *)
Variable toDateString : Z → string.

(** [now] is the [new Date()] the method starts with. *)
Definition resetDailyUsageIfNeeded (now : Z) (this : User) : User :=
  let lastReset := lastReset this in
  (* Reset if it's a new day *)
  if negb (String.eqb (toDateString now) (toDateString lastReset))
  then {| user_id := user_id this; role := role this; isActive := isActive this;
          analysesPerDay := analysesPerDay this;
          deploymentsPerDay := deploymentsPerDay this;
          analysesToday := 0; deploymentsToday := 0; lastReset := now |}
  else this.

(** The methods mutate [this]: each returns the document it leaves. *)
Definition canAnalyze (now : Z) (this : User) : User * bool :=
  let this := resetDailyUsageIfNeeded now this in
  (this, analysesToday this <? analysesPerDay this).

Definition canDeploy (now : Z) (this : User) : User * bool :=
  let this := resetDailyUsageIfNeeded now this in
  (this, deploymentsToday this <? deploymentsPerDay this).

(** [incrementAnalysisCount]: the document that is handed to [this.save()] *)
Definition incrementAnalysisCount (now : Z) (this : User) : User :=
  let this := resetDailyUsageIfNeeded now this in
  set_analysesToday (analysesToday this + 1) this.

Definition incrementDeploymentCount (now : Z) (this : User) : User :=
  let this := resetDailyUsageIfNeeded now this in
  set_deploymentsToday (deploymentsToday this + 1) this.

End WithClock.

End UserModel.

(** * [middleware/authMiddleware.js] *)

Module AuthMiddleware.

Import UserModel.

(** [jwt.verify(token, secret)]: the payload, or an error with this [name] *)
Inductive verified :=
| Payload (decoded : json)
| VerifyThrows (name : string).

(** [await User.findById(id).select('-password')] *)
Inductive looked_up :=
| Found (user : User)
| NoUser
| FindThrows (name : string)
| NoAnswer.

(** What a middleware does with a request. *)
Inductive handled (A : Type) :=
| Next (a : A)                          (* [next()], with what it attached to [req] *)
| NextError (e : error)                 (* [next(error)] *)
| Responded (r : Response)
| Waiting.                              (* an awaited promise never settles *)
Arguments Next {A} a.
Arguments NextError {A} e.
Arguments Responded {A} r.
Arguments Waiting {A}.

Definition refused (code : Z) (error : string) : Response :=
  {| code := code; body := JObj [("success", JBool false); ("error", JStr error)] |}.

(** The [catch (error)] block of [verifyToken] *)
Definition verifyToken_catch (name : string) : Response :=
  if String.eqb name "JsonWebTokenError" then refused 401 "Invalid token."
  else if String.eqb name "TokenExpiredError" then refused 401 "Token expired."
  else refused 500 "Internal server error.".

Section WithServices.
Variable jwt_verify : string → verified.
Variable User_findById : option json → looked_up.
Variable toDateString : Z → string.

(** [authorization] is [req.header('Authorization')]; on [next()] the request
    carries the user and the token. *)
Definition verifyToken (authorization : option string) : handled (User * string) :=
  let token := replace_text "Bearer " <$> authorization in
  match token with
  | None | Some "" => Responded (refused 401 "Access denied. No token provided.")
  | Some token =>
      match jwt_verify token with
      | VerifyThrows name => Responded (verifyToken_catch name)
      | Payload decoded =>
          match member "userId" decoded with
          | inl _ => Responded (verifyToken_catch "TypeError")
          | inr userId =>
              (* Find user by ID *)
              match User_findById userId with
              | NoAnswer => Waiting
              | FindThrows name => Responded (verifyToken_catch name)
              | NoUser => Responded (refused 401 "Invalid token. User not found.")
              | Found user =>
                  if negb (isActive user) then Responded (refused 401 "Account is deactivated.")
                  else Next (user, token)
              end
          end
      end
  end.

(** [requireRole(...roles)], applied to [req.user] *)
Definition requireRole (roles : list string) (user : option User) : handled User :=
  match user with
  | None => Responded (refused 401 "Authentication required.")
  | Some user =>
      if negb (includes (role user) roles) then Responded (refused 403 "Insufficient permissions.")
      else Next user
  end.

(** [canAnalyze], applied to [req.user] at the time [now] *)
Definition canAnalyze (now : Z) (user : option User) : handled User :=
  match user with
  | None => NextError (TypeError "Cannot read properties of undefined (reading 'canAnalyze')")
  | Some user =>
      let '(user, allowed) := UserModel.canAnalyze toDateString now user in
      if negb allowed then
        Responded {| code := 429;
                     body := JObj [("success", JBool false);
                                   ("error", JStr "Daily analysis limit reached.");
                                   ("limit", JNum (analysesPerDay user));
                                   ("used", JNum (analysesToday user))] |}
      else Next user
  end.

End WithServices.

End AuthMiddleware.

(** * The Docker controller: [validateDockerfile] *)

Module DockerController.

(** The warnings of one [forEach] step; [index] counts from 0. *)
Definition line_warnings (index : nat) (line : string) : list string :=
  let trimmed := trim line in
  let here := "Line " +:+ pretty (S index) in
  (if startsWith "FROM" trimmed && negb (includes_text ":" trimmed)
   then [here +:+ ": Consider specifying a tag in FROM instruction"] else [])
  ++ (if startsWith "RUN" trimmed && includes_text "apt-get" trimmed
         && negb (includes_text "clean" trimmed)
      then [here +:+ ": Add 'apt-get clean' to reduce image size"] else [])
  ++ (if startsWith "COPY" trimmed && includes_text "*" trimmed
      then [here +:+ ": Consider using .dockerignore with COPY *"] else []).

(** [dockerfile] is [req.body.dockerfile] when it is a string. *)
Definition validateDockerfile (dockerfile : option string) : Response :=
  match dockerfile with
  | None =>
      (* [dockerfile.split] throws *)
      {| code := 400;
         body := JObj [("success", JBool false); ("error", JStr "Validation failed")] |}
  | Some dockerfile =>
      let issues : list string := [] in
      (* Basic validation rules *)
      let lines := split_lines dockerfile in
      let warnings := concat (imap line_warnings lines) in
      (* Check for exposed ports *)
      let hasExpose := existsb (λ line, startsWith "EXPOSE" (trim line)) lines in
      let warnings :=
        if negb hasExpose then warnings ++ ["No EXPOSE instruction found"] else warnings in
      (* Check for WORKDIR *)
      let hasWorkdir := existsb (λ line, startsWith "WORKDIR" (trim line)) lines in
      let warnings :=
        if negb hasWorkdir then warnings ++ ["Consider adding WORKDIR instruction"]
        else warnings in
      {| code := 200;
         body := JObj [("success", JBool true);
                       ("data", JObj [("valid", JBool (Nat.eqb (length issues) 0));
                                      ("issues", JArr (JStr <$> issues));
                                      ("warnings", JArr (JStr <$> warnings));
                                      ("lineCount", JNum (Z.of_nat (length lines)))])] |}
  end.

End DockerController.

(** * A reference [JSON.parse]

    The properties below hold for every parser handed to the service as
    [JSON_parse]. To run the code on concrete manifests, this is a parser for
    the JSON texts used there: literals, integers, strings with the
    one-character escapes, arrays and objects. A repeated key keeps its first
    position and its last value, as in JavaScript. *)

Module RefJSON.

Definition is_ws (c : ascii) : bool :=
  Ascii.eqb c " " || Ascii.eqb c "009" || Ascii.eqb c "010" || Ascii.eqb c "013".

Fixpoint skip_ws (s : string) : string :=
  match s with
  | String c s' => if is_ws c then skip_ws s' else s
  | "" => ""
  end.

Definition unescape (c : ascii) : option ascii :=
  if Ascii.eqb c "034" then Some "034"%char
  else if Ascii.eqb c "092" then Some "092"%char
  else if Ascii.eqb c "/" then Some "/"%char
  else if Ascii.eqb c "b" then Some "008"%char
  else if Ascii.eqb c "f" then Some "012"%char
  else if Ascii.eqb c "n" then Some "010"%char
  else if Ascii.eqb c "r" then Some "013"%char
  else if Ascii.eqb c "t" then Some "009"%char
  else None.

(** After the opening quote: the string's value and what follows the
    closing quote. *)
Fixpoint string_body (s : string) : option (string * string) :=
  match s with
  | "" => None
  | String c s' =>
      if Ascii.eqb c "034" then Some ("", s')
      else if Ascii.eqb c "092" then
        match s' with
        | String e s'' =>
            match unescape e, string_body s'' with
            | Some c', Some (v, rest) => Some (String c' v, rest)
            | _, _ => None
            end
        | "" => None
        end
      else if (nat_of_ascii c <? 32)%nat then None
      else match string_body s' with
           | Some (v, rest) => Some (String c v, rest)
           | None => None
           end
  end.

Definition digit_value (c : ascii) : Z := Z.of_nat (nat_of_ascii c) - 48.

Fixpoint digits_value (acc : Z) (s : string) : Z :=
  match s with
  | "" => acc
  | String c s' => digits_value (10 * acc + digit_value c) s'
  end.

(** An integer literal: an optional minus sign, then [0] or digits that do
    not start with [0]; not followed by a fraction or an exponent. *)
Definition number (s : string) : option (Z * string) :=
  let '(neg, s1) :=
    match s with
    | String "-" s' => (true, s')
    | _ => (false, s)
    end in
  let '(ds, rest) := span is_digit s1 in
  let leading_zero :=
    match ds with
    | String "0" (String _ _) => true
    | _ => false
    end in
  let continues :=
    match rest with
    | String c _ => Ascii.eqb c "." || Ascii.eqb c "e" || Ascii.eqb c "E"
    | "" => false
    end in
  match ds with
  | "" => None
  | _ => if leading_zero || continues then None
         else Some (if neg : bool then - digits_value 0 ds else digits_value 0 ds, rest)
  end.

(** [o[k] = v] on the fields built so far *)
Fixpoint set_field (k : string) (v : json) (fields : list (string * json))
    : list (string * json) :=
  match fields with
  | [] => [(k, v)]
  | (k', v') :: rest =>
      if String.eqb k' k then (k', v) :: rest else (k', v') :: set_field k v rest
  end.

Fixpoint value (fuel : nat) (s : string) : option (json * string) :=
  match fuel with
  | O => None
  | S fuel =>
      match skip_ws s with
      | String "n" _ as s => (λ rest, (JNull, rest)) <$> strip_prefix "null" s
      | String "t" _ as s => (λ rest, (JBool true, rest)) <$> strip_prefix "true" s
      | String "f" _ as s => (λ rest, (JBool false, rest)) <$> strip_prefix "false" s
      | String "034" s' => (λ '(v, rest), (JStr v, rest)) <$> string_body s'
      | String "[" s' =>
          match skip_ws s' with
          | String "]" rest => Some (JArr [], rest)
          | s'' => (λ '(items, rest), (JArr items, rest)) <$> elements fuel [] s''
          end
      | String "{" s' =>
          match skip_ws s' with
          | String "}" rest => Some (JObj [], rest)
          | s'' => (λ '(fields, rest), (JObj fields, rest)) <$> members fuel [] s''
          end
      | s => (λ '(n, rest), (JNum n, rest)) <$> number s
      end
  end
with elements (fuel : nat) (acc : list json) (s : string) : option (list json * string) :=
  match fuel with
  | O => None
  | S fuel =>
      match value fuel s with
      | Some (v, rest) =>
          match skip_ws rest with
          | String "," rest' => elements fuel (acc ++ [v]) rest'
          | String "]" rest' => Some (acc ++ [v], rest')
          | _ => None
          end
      | None => None
      end
  end
with members (fuel : nat) (acc : list (string * json)) (s : string)
    : option (list (string * json) * string) :=
  match fuel with
  | O => None
  | S fuel =>
      match skip_ws s with
      | String "034" s' =>
          match string_body s' with
          | Some (k, rest) =>
              match skip_ws rest with
              | String ":" rest' =>
                  match value fuel rest' with
                  | Some (v, rest'') =>
                      match skip_ws rest'' with
                      | String "," r => members fuel (set_field k v acc) r
                      | String "}" r => Some (set_field k v acc, r)
                      | _ => None
                      end
                  | None => None
                  end
              | _ => None
              end
          | None => None
          end
      | _ => None
      end
  end.

Definition parse (text : string) : option json :=
  match value (2 * String.length text + 2) text with
  | Some (v, rest) => if String.eqb (skip_ws rest) "" then Some v else None
  | None => None
  end.

(** A JSON string literal: [s] between double quotes. *)
Definition quoted (s : string) : string := String "034" (s +:+ String "034" "").

End RefJSON.


(** * Concrete worlds *)

Module Worlds.

Definition s0 : State :=
  {| disk := ∅; execLog := []; rmLog := []; db := []; statusWrites := [];
     nextId := 0%N; emitted := [] |}.

Definition workspace : string := "/app/temp/repos/1700000000000_k3j9x2m1q".

(** A remote that holds the tree [t]: both clone commands succeed. *)
Definition git_serves (t : tree) (cmd : string) (d : gmap string tree) : shell_outcome :=
  Exit0 (<[workspace := t]> d).

(** A remote that cannot be reached: every command exits non-zero. *)
Definition git_unreachable (cmd : string) (d : gmap string tree) : shell_outcome :=
  ExitErr "fatal: unable to access the remote".

(** A remote that accepts the connection and never answers. *)
Definition git_stalls (cmd : string) (d : gmap string tree) : shell_outcome := NeverExits.

Definition world (git : string → gmap string tree → shell_outcome) (rm_fails : bool)
    (ai : ai_outcome) : Env :=
  {| tempDir := "/app/temp/repos"; newRepoId := "1700000000000_k3j9x2m1q";
     shell := git; rmSync_fails := λ _, rm_fails; rmSync_removed := λ _ _, false;
     JSON_parse := RefJSON.parse;
     chat_completions_create := λ _, ai; Math_random := λ n, n / 2; db_down := false |}.

Definition newline : string := String "010" "".

Definition small_repo : tree :=
  [File "a.js" 12 (Some ("let a = 1" +:+ newline +:+ "a"));
   File "b.py" 9 (Some ("x = 1" +:+ newline +:+ "y"));
   File "README.md" 5 (Some "hello")].

(** The state once the tree [t] has been cloned into the workspace. *)
Definition cloned (t : tree) : State := set_disk {[workspace := t]} s0.

(** A repository whose [package.json] is cut short. *)
Definition broken_manifest : tree :=
  [File "package.json" 1 (Some "{"); File "index.js" 9 (Some "let a = 1")].

(** A repository whose [package.json] asks for a compound range:
    [{"dependencies": {"glob": "^7.1.0 || ^8.0.0", "chalk": "~4.1.2"}}] *)
Definition compound_manifest : tree :=
  [File "package.json" 64
     (Some ("{" +:+ RefJSON.quoted "dependencies" +:+ ": {"
            +:+ RefJSON.quoted "glob" +:+ ": " +:+ RefJSON.quoted "^7.1.0 || ^8.0.0" +:+ ", "
            +:+ RefJSON.quoted "chalk" +:+ ": " +:+ RefJSON.quoted "~4.1.2" +:+ "}}"))].

Definition url0 : string := "https://github.com/acme/widgets.git".

Definition options0 : Options :=
  {| o_branch := Some "main"; o_depth := Some 1; o_includeDependencies := Some true |}.

(** Two stored analyses: number 0 belongs to [u1], number 1 to [u2]. *)
Definition doc_of (id : N) (uid : string) : Analysis :=
  {| _id := id; userId := Some uid; repositoryUrl := Some url0; a_branch := "main";
     status := "completed"; analysisData := JObj [("summary", JObj [("totalFiles", JNum 3)])];
     a_metrics := None; a_error := None |}.

Definition two_owners : State :=
  {| disk := ∅; execLog := []; rmLog := []; db := [doc_of 0 "u1"; doc_of 1 "u2"];
     statusWrites := [(0%N, "completed"); (1%N, "completed")]; nextId := 2%N; emitted := [] |}.

Definition request0 : Request :=
  {| body_url := Some "https://github.com/acme/widgets.git"; body_branch := None;
     body_depth := None; body_includeDependencies := None; req_user := Some "u1" |}.

End Worlds.


(** * Definitions used to state the properties *)

(** The workspace of the run: [path.join(this.tempDir, repoId)]. *)
Definition workspace_path (E : Env) : string := path_join (tempDir E) (newRepoId E).

(** The state in which the first clone command runs: the workspace exists. *)
Definition after_mkdir (E : Env) (s : State) : State :=
  match disk s !! workspace_path E with
  | Some _ => s
  | None => set_disk (<[workspace_path E := []]> (disk s)) s
  end.

(** The readable text files below a directory, in the order the walk of
    [calculateMetrics] meets them, each with its path relative to the
    workspace and its number of lines. *)
Fixpoint readable_item (rel : string) (item : node) : list (string * Z) :=
  match item with
  | Dir name children => flat_map (readable_item (path_join rel name)) children
  | File name _ content =>
      match content with
      | Some text => if isTextFile name then [(path_join rel name, count_lines text)] else []
      | None => []
      end
  end.

Definition readable_text_files (items : tree) : list (string * Z) :=
  flat_map (readable_item "") items.

(** One step of the running maximum kept in [metrics.largestFile]. *)
Definition pick (largest : LargestFile) (f : string * Z) : LargestFile :=
  if lf_lines largest <? f.2 then {| lf_name := f.1; lf_lines := f.2 |} else largest.

(** What [fs.existsSync] and [fs.readFileSync] find of the entry [name] of a
    workspace that holds [items]: its text, or nothing when it is absent. *)
Definition manifest_text (repoPath name : string) (items : tree) : error + option string :=
  match find_entry name items with
  | None => inr None
  | Some (File _ _ (Some text)) => inr (Some text)
  | Some (File _ _ None) => inl (EACCES (path_join repoPath name))
  | Some (Dir _ _) => inl (EISDIR (path_join repoPath name))
  end.

(** The dependency records of a workspace that holds [items]: those of
    [package.json], then those of [requirements.txt]. *)
Definition manifest_records (E : Env) (repoPath : string) (items : tree)
    : error + list DependencyRecord :=
  match manifest_text repoPath "package.json" items with
  | inl e => inl e
  | inr packageJson =>
      let npm :=
        match packageJson with
        | None => inr []
        | Some text =>
            match JSON_parse E text with
            | None => inl (SyntaxError text)
            | Some j => npm_dependencies j
            end
        end in
      match npm, manifest_text repoPath "requirements.txt" items with
      | inl e, _ | inr _, inl e => inl e
      | inr npm, inr None => inr npm
      | inr npm, inr (Some content) => inr (npm ++ pip_dependencies content)
      end
  end.

(** The part of the state the service has no business with. *)
Definition same_records (s s' : State) : Prop :=
  db s' = db s ∧ statusWrites s' = statusWrites s ∧ nextId s' = nextId s
  ∧ emitted s' = emitted s.

Definition keeps_records {A} (m : M A) : Prop := ∀ s, same_records s (m s).2.

(** Computations that only read the state. *)
Definition reads_only {A} (m : M A) : Prop := ∀ s, (m s).2 = s.

(** The options the controller hands to the service. *)
Definition options_of (req : Request) : Options :=
  {| o_branch := Some (default "main" (body_branch req));
     o_depth := Some (default 3 (body_depth req));
     o_includeDependencies := Some (default true (body_includeDependencies req)) |}.

(** The external inference call fails, as the code sees it: it reaches the
    [catch] of [getRepositoryInsights]. The request is rejected (timeout,
    service unavailable, ...) or the response has no [choices[0].message]. A
    response with a content, however malformed, is not among them. *)
Definition inference_fails (E : Env) (analysisData : AnalysisResult) : bool :=
  match chat_completions_create E analysisData with
  | AIRejected _ | AIMalformed => true
  | AIContent _ => false
  end.

(** The insights are something a property can be read from: the call
    failed, or its content is not the JSON text [null]. *)
Definition insights_usable (E : Env) (analysisData : AnalysisResult) : bool :=
  match chat_completions_create E analysisData with
  | AIRejected _ | AIMalformed => true
  | AIContent content =>
      match JSON_parse E content with
      | Some JNull => false
      | _ => true
      end
  end.

(** How often [c] occurs in [s]. *)
Fixpoint occurrences (c : ascii) (s : string) : nat :=
  match s with
  | "" => O
  | String a s' => if Ascii.eqb a c then S (occurrences c s') else occurrences c s'
  end.

(** The world [E] with another inference service. *)
Definition with_completion (c : AnalysisResult → ai_outcome) (E : Env) : Env :=
  {| tempDir := tempDir E; newRepoId := newRepoId E; shell := shell E;
     rmSync_fails := rmSync_fails E; rmSync_removed := rmSync_removed E;
     JSON_parse := JSON_parse E; chat_completions_create := c;
     Math_random := Math_random E; db_down := db_down E |}.

(** How a request ends, with the status code of the answer for the answer. *)
Definition outcome_code (o : outcome Response) : outcome Z :=
  match o with
  | Returned resp => Returned (code resp)
  | Threw e => Threw e
  | Pending => Pending
  end.

(** The state of the controller's run once the first clone command has
    exited with status 0 and left the disk [d]. *)
Definition after_clone (E : Env) (req : Request) (url : string) (d : gmap string tree)
    (s : State) : State :=
  set_disk d
    (log_exec (cloneCmd (default 3 (body_depth req)) (default "main" (body_branch req))
                        url (workspace_path E))
              (after_mkdir E (log_emit "analysis-started" s))).


(** The names of the files below an entry, at any depth, in the order the
    walks of the service meet them. *)
Fixpoint file_names_item (item : node) : list string :=
  match item with
  | File name _ _ => [name]
  | Dir _ children => flat_map file_names_item children
  end.

Definition file_names (items : tree) : list string := flat_map file_names_item items.

(** How many directories there are below an entry, itself included. *)
Fixpoint count_dirs_item (item : node) : Z :=
  match item with
  | File _ _ _ => 0
  | Dir _ children => 1 + foldr (λ child n, count_dirs_item child + n) 0 children
  end.

Definition count_dirs (items : tree) : Z :=
  foldr (λ child n, count_dirs_item child + n) 0 items.

(** How deep the directories below an entry nest: 0 for a file, 1 for a
    directory that holds no directory. *)
Fixpoint depth_item (item : node) : Z :=
  match item with
  | File _ _ _ => 0
  | Dir _ children => 1 + foldr (λ child d, Z.max (depth_item child) d) 0 children
  end.

Definition tree_depth (items : tree) : Z :=
  foldr (λ child d, Z.max (depth_item child) d) 0 items.

(** The lower-cased extension of a file name, as the walks compute it. *)
Definition extension_of (name : string) : string := toLowerCase (extname name).

(** The record [findConfigFiles] keeps for an entry of [getFileList], if any. *)
Definition config_of_entry (f : FileEntry) : option ConfigFile :=
  if fe_isDirectory f then None
  else if includes (fe_name f) config_patterns
  then Some {| cf_name := fe_name f; cf_path := fe_path f; cf_size := fe_size f |}
  else None.

(** How many of [names] carry the lower-cased extension [e]. *)
Definition files_with (e : string) (names : list string) : Z :=
  Z.of_nat (length (List.filter (λ name, String.eqb (extension_of name) e) names)).

(** What the walk of [analyzeStructure] keeps of [byType]: no extension
    twice, positive counts, and the count [count e] for the extension [e]. *)
Definition counts_ok (l : list (string * Z)) (count : string → Z) : Prop :=
  NoDup l.*1 ∧ Forall (λ kv, 0 < kv.2) l ∧ ∀ e, default 0 (assoc e l) = count e.

(** The files that make [detectLanguages] add the language [lang]. *)
Definition speaks (lang : string) (name : string) : Prop :=
  assoc (toLowerCase (extname name)) extensions = Some lang.

(** The lines of a list of files, each with its number of lines. *)
Definition sum_of_lines (fs : list (string * Z)) : Z := foldr (λ f n, f.2 + n) 0 fs.

(** Every character of [s] satisfies [p]. *)
Fixpoint all_chars (p : ascii → bool) (s : string) : bool :=
  match s with
  | "" => true
  | String c s' => p c && all_chars p s'
  end.

(** [s] starts with a character that satisfies [p]. *)
Definition head_is (p : ascii → bool) (s : string) : bool :=
  match s with
  | String c _ => p c
  | "" => false
  end.

(** The elements of the array held by the property [k]; none when [k] is
    absent. *)
Definition listed (k : string) (j : json) : option (list json) :=
  match prop k j with
  | Some (JArr items) => Some items
  | None => Some []
  | Some _ => None
  end.

(** The entries of a stored file list that [getFileStructure] keeps for a
    path and a type. *)
Definition listed_entry (path type : string) (f : FileEntry) : bool :=
  (String.eqb path "" || startsWith path (fe_path f))
  && (String.eqb type "all"
      || (if String.eqb type "file" then negb (fe_isDirectory f) else fe_isDirectory f)).

(** [resp.body.data[k]] *)
Definition data_field (k : string) (resp : Response) : option json :=
  prop "data" (body resp) ≫= prop k.

(** The filter of the controllers' lookups: this id and this owner. *)
Definition owned_by (id : N) (uid : string) (a : Analysis) : bool :=
  N.eqb (_id a) id && bool_decide (userId a = Some uid).

(** The analyses a user has used on the day of [now]: the counter, or
    nothing when the counter is of another day. *)
Definition used_on (toDateString : Z → string) (now : Z) (u : UserModel.User) : Z :=
  if String.eqb (toDateString now) (toDateString (UserModel.lastReset u))
  then UserModel.analysesToday u else 0.

(** A workspace with nested directories, a manifest in a subdirectory, a
    binary file and a file that cannot be read. *)
Module Samples.

Definition nested_repo : tree :=
  [File "package.json" 2 (Some "{}");
   Dir "src"
     [File "index.JS" 20 (Some ("let a = 1" +:+ Worlds.newline +:+ "a"));
      File "logo.png" 900 None;
      Dir "lib" [File "util.js" 7 (Some "x"); File "package.json" 2 (Some "{}")];
      File "notes" 4 None];
   Dir "docs" [];
   File "Makefile" 11 (Some "all:")].

(** A repository whose [package.json] gives a version as a number:
    [{"dependencies": {"chalk": "~4.1.2", "left-pad": 1}}] *)
Definition numeric_version : tree :=
  [File "package.json" 48
     (Some ("{" +:+ RefJSON.quoted "dependencies" +:+ ": {"
            +:+ RefJSON.quoted "chalk" +:+ ": " +:+ RefJSON.quoted "~4.1.2" +:+ ", "
            +:+ RefJSON.quoted "left-pad" +:+ ": 1}}"));
   File "requirements.txt" 12 (Some "flask==2.0.1")].

(** The collection once [u1] has had [nested_repo] analysed (record 5) and
    [u2] has a run that failed (record 6). *)
Definition stored_files : Analysis :=
  {| _id := 5; userId := Some "u1"; repositoryUrl := Some Worlds.url0; a_branch := "main";
     status := "completed";
     analysisData := JObj [("files", JArr (FileEntry_json <$> filelist_walk nested_repo));
                           ("summary", JObj [("totalFiles", JNum 9)])];
     a_metrics := None; a_error := None |}.

Definition failed_run : Analysis :=
  {| _id := 6; userId := Some "u2"; repositoryUrl := Some Worlds.url0; a_branch := "main";
     status := "failed"; analysisData := JObj []; a_metrics := None;
     a_error := Some (JStr "Command failed") |}.

Definition collection : State :=
  {| disk := ∅; execLog := []; rmLog := []; db := [stored_files; failed_run];
     statusWrites := [(5%N, "completed"); (6%N, "failed")]; nextId := 7%N; emitted := [] |}.

(** A clock whose days are 86 400 000 ms long, and a user who has used two
    of three analyses on day 19 000. *)
Definition utc_day (t : Z) : string := pretty (t / 86400000).

Definition alice : UserModel.User :=
  {| UserModel.user_id := "u1"; UserModel.role := "user"; UserModel.isActive := true;
     UserModel.analysesPerDay := 3; UserModel.deploymentsPerDay := 5;
     UserModel.analysesToday := 2; UserModel.deploymentsToday := 0;
     UserModel.lastReset := 19000 * 86400000 + 60000 |}.

(** A verifier that accepts the token [good] for the user [u1], and a
    collection of users that holds [alice]. *)
Definition jwt_verify (token : string) : AuthMiddleware.verified :=
  if String.eqb token "good" then AuthMiddleware.Payload (JObj [("userId", JStr "u1")])
  else AuthMiddleware.VerifyThrows "JsonWebTokenError".

Definition User_findById (id : option json) : AuthMiddleware.looked_up :=
  match id with
  | Some (JStr "u1") => AuthMiddleware.Found alice
  | _ => AuthMiddleware.NoUser
  end.

End Samples.

(** * Properties *)

(** ** Running the monad *)

Lemma bind_Returned {A B} (m : M A) (k : A → M B) s a s1 :
  m s = (Returned a, s1) → bind m k s = k a s1.
Proof. unfold bind. by intros ->. Qed.

Lemma bind_Threw {A B} (m : M A) (k : A → M B) s e s1 :
  m s = (Threw e, s1) → bind m k s = (Threw e, s1).
Proof. unfold bind. by intros ->. Qed.

Lemma bind_Pending {A B} (m : M A) (k : A → M B) s s1 :
  m s = (Pending, s1) → bind m k s = (Pending, s1).
Proof. unfold bind. by intros ->. Qed.

Lemma try_catch_Returned {A} (m : M A) h s a s1 :
  m s = (Returned a, s1) → try_catch m h s = (Returned a, s1).
Proof. unfold try_catch. by intros ->. Qed.

Lemma try_catch_Threw {A} (m : M A) h s e s1 :
  m s = (Threw e, s1) → try_catch m h s = h e s1.
Proof. unfold try_catch. by intros ->. Qed.

Lemma try_catch_Pending {A} (m : M A) h s s1 :
  m s = (Pending, s1) → try_catch m h s = (Pending, s1).
Proof. unfold try_catch. by intros ->. Qed.

(** ** The clone *)

Lemma after_mkdir_exists E s : is_Some (disk (after_mkdir E s) !! workspace_path E).
Proof.
  unfold after_mkdir. destruct (disk s !! workspace_path E) eqn:Hd; simpl.
  - by rewrite Hd.
  - rewrite lookup_insert_eq. by eexists.
Qed.

Lemma cloneRepository_unfold E url branch depth s :
  cloneRepository E url branch depth s =
    let repoPath := workspace_path E in
    let s1 := after_mkdir E s in
    let s2 := log_exec (cloneCmd depth branch url repoPath) s1 in
    match shell E (cloneCmd depth branch url repoPath) (disk s1) with
    | Exit0 d => (Returned repoPath, set_disk d s2)
    | NeverExits => (Pending, s2)
    | ExitErr _ =>
        let s3 := log_exec (fallbackCmd depth url repoPath) s2 in
        match shell E (fallbackCmd depth url repoPath) (disk s2) with
        | Exit0 d => (Returned repoPath, set_disk d s3)
        | ExitErr diagnostic =>
            (Threw (ExecError (fallbackCmd depth url repoPath) diagnostic), s3)
        | NeverExits => (Pending, s3)
        end
    end.
Proof.
  unfold cloneRepository, bind, try_catch, mkdirSync, modify, execPromise, ret.
  fold (workspace_path E). fold (after_mkdir E s). simpl.
  destruct (shell E (cloneCmd depth branch url (workspace_path E)) (disk (after_mkdir E s)));
    simpl; try done.
  destruct (shell E (fallbackCmd depth url (workspace_path E)) (disk (after_mkdir E s))); done.
Qed.

(** C10. Whatever the url, branch and depth, the first command handed to the
    shell by [cloneRepository] is the template
    [git clone --depth <depth> --branch <branch> <url> <path>] with the
    caller's url and branch spliced in as they are: nothing is quoted or
    escaped, so every character of them, shell metacharacters included, is in
    the command. *)
Theorem clone_command_is_spliced E url branch depth s :
  ∃ later,
    execLog (cloneRepository E url branch depth s).2 =
      execLog s
      ++ ("git clone --depth " +:+ pretty depth +:+ " --branch " +:+ branch +:+ " "
            +:+ url +:+ " " +:+ workspace_path E) :: later.
Proof.
  rewrite cloneRepository_unfold. cbv zeta.
  assert (Hlog : execLog (after_mkdir E s) = execLog s).
  { unfold after_mkdir. by destruct (disk s !! workspace_path E). }
  fold (cloneCmd depth branch url (workspace_path E)).
  destruct (shell E (cloneCmd _ _ _ _) _); simpl.
  - exists []. by rewrite Hlog.
  - destruct (shell E (fallbackCmd _ _ _) _); simpl; rewrite Hlog, <- app_assoc; by eexists.
  - exists []. by rewrite Hlog.
Qed.

(** Against C6 as stated: the command never exits and nothing bounds the
    wait. *)
Lemma clone_waits_forever :
  (cloneRepository (Worlds.world Worlds.git_stalls false AIMalformed)
     "https://github.com/acme/widgets.git" "main" 1 Worlds.s0).1 = Pending.
Proof. reflexivity. Qed.

(** C6, as the code has it. The clone command runs with no timeout: while it
    does not exit, [cloneRepository] stays pending. If it fails, whatever the
    branch, exactly one more command is run, the same clone without the
    branch qualifier; if that one fails too, its error, with git's
    diagnostic, is thrown unchanged. No third command is ever run. *)
Theorem clone_falls_back_once E url branch depth s :
  let repoPath := workspace_path E in
  let first := cloneCmd depth branch url repoPath in
  let second := "git clone --depth " +:+ pretty depth +:+ " " +:+ url +:+ " " +:+ repoPath in
  let run := cloneRepository E url branch depth s in
  match shell E first (disk (after_mkdir E s)) with
  | Exit0 _ => run.1 = Returned repoPath ∧ execLog run.2 = execLog s ++ [first]
  | NeverExits => run.1 = Pending ∧ execLog run.2 = execLog s ++ [first]
  | ExitErr _ =>
      execLog run.2 = execLog s ++ [first; second] ∧
      match shell E second (disk (after_mkdir E s)) with
      | Exit0 _ => run.1 = Returned repoPath
      | ExitErr diagnostic => run.1 = Threw (ExecError second diagnostic)
      | NeverExits => run.1 = Pending
      end
  end.
Proof.
  cbv zeta. rewrite cloneRepository_unfold. cbv zeta.
  assert (Hlog : execLog (after_mkdir E s) = execLog s).
  { unfold after_mkdir. by destruct (disk s !! workspace_path E). }
  fold (fallbackCmd depth url (workspace_path E)).
  destruct (shell E (cloneCmd _ _ _ _) _); simpl; rewrite ?Hlog; try done.
  destruct (shell E (fallbackCmd _ _ _) _); simpl; rewrite ?Hlog, <- ?app_assoc; done.
Qed.

(** ** The largest file *)

Lemma node_tree_ind (P : node → Prop) :
  (∀ name size content, P (File name size content)) →
  (∀ name children, Forall P children → P (Dir name children)) →
  ∀ item, P item.
Proof.
  intros P_File P_Dir. fix IH 1. intros [name size content|name children].
  - apply P_File.
  - apply P_Dir. induction children as [|x l IHl]; constructor; [apply IH|apply IHl].
Qed.

Lemma split_lines_nonempty s : split_lines s ≠ [].
Proof.
  destruct s as [|c s]; simpl; [done|].
  destruct (Ascii.eqb c "010"); [done|]. by destruct (split_lines s).
Qed.

Lemma count_lines_pos text : 1 ≤ count_lines text.
Proof.
  unfold count_lines. pose proof (split_lines_nonempty text).
  destruct (split_lines text); [done|]. simpl. lia.
Qed.

Lemma readable_item_pos item : ∀ rel, Forall (λ f, 1 ≤ f.2) (readable_item rel item).
Proof.
  induction item as [name size content|name children IH] using node_tree_ind; intros rel; simpl.
  - destruct content; [|constructor].
    destruct (isTextFile name); constructor; [apply count_lines_pos|constructor].
  - induction IH as [|x l Hx _ IHl]; simpl; [constructor|].
    apply Forall_app. split; [apply Hx|apply IHl].
Qed.

Lemma readable_text_files_pos items : Forall (λ f, 1 ≤ f.2) (readable_text_files items).
Proof.
  unfold readable_text_files. induction items; simpl; [constructor|].
  apply Forall_app. split; [apply readable_item_pos|done].
Qed.

(** The walk keeps in [largestFile] the running maximum of the readable text
    files it has met. *)
Lemma largestFile_item item :
  ∀ rel metrics,
    largestFile (metrics_item rel metrics item) =
    foldl pick (largestFile metrics) (readable_item rel item).
Proof.
  induction item as [name size content|name children IH] using node_tree_ind;
    intros rel metrics; simpl.
  - destruct (isTextFile name), content; simpl; try done.
    unfold pick. simpl. by destruct (_ <? _).
  - revert metrics. induction IH as [|x l Hx _ IHl]; intros metrics; simpl; [done|].
    rewrite foldl_app, IHl. f_equal. apply Hx.
Qed.

Lemma largestFile_walk items metrics rel :
  largestFile (foldl (metrics_item rel) metrics items) =
  foldl pick (largestFile metrics) (flat_map (readable_item rel) items).
Proof.
  revert metrics. induction items as [|x l IH]; intros metrics; simpl; [done|].
  by rewrite foldl_app, IH, largestFile_item.
Qed.

(** A running maximum that replaces on [<] only ends on the first maximum. *)
Lemma pick_first_maximum fs :
  ∀ largest,
    (foldl pick largest fs = largest ∧ Forall (λ f, f.2 ≤ lf_lines largest) fs)
    ∨ (∃ before after p n,
         foldl pick largest fs = {| lf_name := p; lf_lines := n |}
         ∧ fs = before ++ (p, n) :: after
         ∧ lf_lines largest < n
         ∧ Forall (λ f, f.2 < n) before
         ∧ Forall (λ f, f.2 ≤ n) after).
Proof.
  induction fs as [|[p n] fs IH]; intros largest.
  - left. split; [done|constructor].
  - change (foldl pick largest ((p, n) :: fs)) with (foldl pick (pick largest (p, n)) fs).
    unfold pick at 2 4. simpl. destruct (lf_lines largest <? n) eqn:Hlt.
    + apply Z.ltb_lt in Hlt.
      destruct (IH {| lf_name := p; lf_lines := n |})
        as [[Heq Hall]|(before & after & p' & n' & Heq & Hfs & Hgt & Hb & Ha)].
      * right. exists [], fs, p, n. simpl in Hall. by split_and!.
      * right. simpl in Hgt. exists ((p, n) :: before), after, p', n'.
        split_and!; [done|by rewrite Hfs|lia| |done].
        constructor; [simpl; lia|done].
    + apply Z.ltb_ge in Hlt.
      destruct (IH largest)
        as [[Heq Hall]|(before & after & p' & n' & Heq & Hfs & Hgt & Hb & Ha)].
      * left. split; [done|]. constructor; [simpl; lia|done].
      * right. exists ((p, n) :: before), after, p', n'.
        split_and!; [done|by rewrite Hfs|done| |done].
        constructor; [simpl; lia|done].
Qed.

Lemma calculateMetrics_some repoPath s items :
  disk s !! repoPath = Some items →
  calculateMetrics repoPath s = (Returned (metrics_walk items), s).
Proof. intros H. unfold calculateMetrics, bind, readdirSync, ret. by rewrite H. Qed.

(** C8. For every workspace tree, the [largestFile] that [calculateMetrics]
    reports is the earliest file, in traversal order, whose line count is the
    maximum over the readable text files: every file before it is strictly
    smaller and none after it is larger, so a later file with an equal count
    does not replace it. With no readable text file, the initial
    [{ name: '', lines: 0 }] is reported. *)
Theorem largest_file_is_first_maximum s repoPath items
    (Hworkspace : disk s !! repoPath = Some items) :
  ∃ metrics,
    calculateMetrics repoPath s = (Returned metrics, s) ∧
    match readable_text_files items with
    | [] => largestFile metrics = {| lf_name := ""; lf_lines := 0 |}
    | candidates =>
        ∃ before after,
          candidates =
            before ++ (lf_name (largestFile metrics), lf_lines (largestFile metrics)) :: after
          ∧ Forall (λ f, f.2 < lf_lines (largestFile metrics)) before
          ∧ Forall (λ f, f.2 ≤ lf_lines (largestFile metrics)) after
    end.
Proof.
  exists (metrics_walk items). split; [by apply calculateMetrics_some|].
  assert (Hl : largestFile (metrics_walk items)
               = foldl pick (largestFile metrics_init) (readable_text_files items)).
  { unfold metrics_walk, readable_text_files. cbv zeta. rewrite <- largestFile_walk.
    by destruct (0 <? totalFiles _). }
  pose proof (readable_text_files_pos items) as Hpos.
  destruct (readable_text_files items) as [|f fs] eqn:Hfs; [by rewrite Hl|].
  rewrite Hl.
  destruct (pick_first_maximum (f :: fs) (largestFile metrics_init))
    as [[_ Hall]|(before & after & H)].
  - exfalso. apply Forall_cons in Hall as [Hle _]. apply Forall_cons in Hpos as [Hge _].
    simpl in Hle. lia.
  - destruct H as (p & n & Heq & Hsplit & _ & Hb & Ha). rewrite Heq. simpl.
    by exists before, after.
Qed.

Lemma largest_file_is_first_maximum_witness :
  ∃ metrics,
    calculateMetrics Worlds.workspace (Worlds.cloned Worlds.small_repo)
      = (Returned metrics, Worlds.cloned Worlds.small_repo) ∧
    match readable_text_files Worlds.small_repo with
    | [] => largestFile metrics = {| lf_name := ""; lf_lines := 0 |}
    | candidates =>
        ∃ before after,
          candidates =
            before ++ (lf_name (largestFile metrics), lf_lines (largestFile metrics)) :: after
          ∧ Forall (λ f, f.2 < lf_lines (largestFile metrics)) before
          ∧ Forall (λ f, f.2 ≤ lf_lines (largestFile metrics)) after
    end.
Proof.
  apply (largest_file_is_first_maximum (Worlds.cloned Worlds.small_repo) Worlds.workspace
           Worlds.small_repo).
  reflexivity.
Defined.

(** ** The service leaves the database alone *)

Lemma same_records_refl s : same_records s s.
Proof. by repeat split. Qed.

Lemma same_records_trans s1 s2 s3 :
  same_records s1 s2 → same_records s2 s3 → same_records s1 s3.
Proof. unfold same_records. intros (? & ? & ? & ?) (? & ? & ? & ?). split_and!; congruence. Qed.

Lemma keeps_ret {A} (a : A) : keeps_records (ret a).
Proof. intros s. apply same_records_refl. Qed.

Lemma keeps_throw {A} e : keeps_records (@throw A e).
Proof. intros s. apply same_records_refl. Qed.

Lemma keeps_lift {A} (r : error + A) : keeps_records (lift r).
Proof. destruct r; [apply keeps_throw|apply keeps_ret]. Qed.

Lemma keeps_bind {A B} (m : M A) (k : A → M B) :
  keeps_records m → (∀ a, keeps_records (k a)) → keeps_records (bind m k).
Proof.
  intros Hm Hk s. unfold bind. specialize (Hm s).
  destruct (m s) as [[a|e|] s1]; simpl in *; try done.
  eapply same_records_trans; [done|apply Hk].
Qed.

Lemma keeps_try_catch {A} (m : M A) h :
  keeps_records m → (∀ e, keeps_records (h e)) → keeps_records (try_catch m h).
Proof.
  intros Hm Hh s. unfold try_catch. specialize (Hm s).
  destruct (m s) as [[a|e|] s1]; simpl in *; try done.
  eapply same_records_trans; [done|apply Hh].
Qed.

Lemma keeps_execPromise E cmd : keeps_records (execPromise E cmd).
Proof. intros s. unfold execPromise. by destruct (shell E cmd (disk s)). Qed.

Lemma keeps_mkdirSync path : keeps_records (mkdirSync path).
Proof. intros s. unfold mkdirSync, modify. simpl. by destruct (disk s !! path). Qed.

Lemma keeps_rmSync E path : keeps_records (rmSync E path).
Proof. intros s. unfold rmSync. by destruct (rmSync_fails E path). Qed.

Lemma keeps_readdirSync dir : keeps_records (readdirSync dir).
Proof. intros s. unfold readdirSync. by destruct (disk s !! dir). Qed.

Lemma keeps_existsSync repoPath name : keeps_records (existsSync repoPath name).
Proof. intros s. apply same_records_refl. Qed.

Lemma keeps_readFileSync repoPath name : keeps_records (readFileSync repoPath name).
Proof.
  intros s. unfold readFileSync.
  destruct (disk s !! repoPath ≫= find_entry name) as [[? ? []|]|]; apply same_records_refl.
Qed.

Lemma keeps_JSON_parse_M E text : keeps_records (JSON_parse_M E text).
Proof. unfold JSON_parse_M. destruct (JSON_parse E text); [apply keeps_ret|apply keeps_throw]. Qed.

Ltac keeps :=
  repeat first
    [ apply keeps_ret | apply keeps_throw | apply keeps_lift
    | apply keeps_execPromise | apply keeps_mkdirSync | apply keeps_rmSync
    | apply keeps_readdirSync | apply keeps_existsSync | apply keeps_readFileSync
    | apply keeps_JSON_parse_M
    | apply keeps_bind; [|intros ?]
    | apply keeps_try_catch; [|intros ?]
    | match goal with
      | |- keeps_records (if ?b then _ else _) => destruct b
      end ].

Lemma keeps_cloneRepository E url branch depth :
  keeps_records (cloneRepository E url branch depth).
Proof. unfold cloneRepository. keeps. Qed.

Lemma keeps_analyzeDependencies E repoPath : keeps_records (analyzeDependencies E repoPath).
Proof. unfold analyzeDependencies. keeps. Qed.

Lemma keeps_analyzeRepository E url options : keeps_records (analyzeRepository E url options).
Proof.
  unfold analyzeRepository, analyzeStructure, detectLanguages, findConfigFiles,
    calculateMetrics, cleanupTempDir, getFileList.
  keeps; first [apply keeps_cloneRepository | apply keeps_analyzeDependencies].
Qed.

(** ** The stages on a workspace that exists *)

Lemma reads_only_ret {A} (a : A) : reads_only (ret a).
Proof. done. Qed.

Lemma reads_only_throw {A} e : reads_only (@throw A e).
Proof. done. Qed.

Lemma reads_only_lift {A} (r : error + A) : reads_only (lift r).
Proof. by destruct r. Qed.

Lemma reads_only_bind {A B} (m : M A) (k : A → M B) :
  reads_only m → (∀ a, reads_only (k a)) → reads_only (bind m k).
Proof.
  intros Hm Hk s. unfold bind. specialize (Hm s).
  destruct (m s) as [[a|e|] s1]; simpl in *; subst; try done. apply Hk.
Qed.

Lemma reads_only_readdirSync dir : reads_only (readdirSync dir).
Proof. intros s. unfold readdirSync. by destruct (disk s !! dir). Qed.

Lemma reads_only_existsSync repoPath name : reads_only (existsSync repoPath name).
Proof. done. Qed.

Lemma reads_only_readFileSync repoPath name : reads_only (readFileSync repoPath name).
Proof.
  intros s. unfold readFileSync.
  by destruct (disk s !! repoPath ≫= find_entry name) as [[? ? []|]|].
Qed.

Lemma reads_only_JSON_parse_M E text : reads_only (JSON_parse_M E text).
Proof. unfold JSON_parse_M. by destruct (JSON_parse E text). Qed.

Lemma reads_only_analyzeDependencies E repoPath : reads_only (analyzeDependencies E repoPath).
Proof.
  unfold analyzeDependencies.
  repeat first
    [ apply reads_only_ret | apply reads_only_lift | apply reads_only_existsSync
    | apply reads_only_readFileSync | apply reads_only_JSON_parse_M
    | apply reads_only_bind; [|intros ?]
    | match goal with
      | |- reads_only (if ?b then _ else _) => destruct b
      end ].
Qed.

Lemma readdirSync_some dir s items :
  disk s !! dir = Some items → readdirSync dir s = (Returned items, s).
Proof. unfold readdirSync. by intros ->. Qed.

Lemma readdirSync_none dir s :
  disk s !! dir = None → readdirSync dir s = (Threw (ENOENT dir), s).
Proof. unfold readdirSync. by intros ->. Qed.

Lemma analyzeStructure_some repoPath s items :
  disk s !! repoPath = Some items →
  analyzeStructure repoPath s = (Returned (structure_walk items), s).
Proof. intros H. unfold analyzeStructure, bind, readdirSync, ret. by rewrite H. Qed.

Lemma detectLanguages_some repoPath s items :
  disk s !! repoPath = Some items →
  detectLanguages repoPath s = (Returned (languages_walk items), s).
Proof. intros H. unfold detectLanguages, bind, readdirSync, ret. by rewrite H. Qed.

Lemma findConfigFiles_some repoPath s items :
  disk s !! repoPath = Some items →
  findConfigFiles repoPath s = (Returned (config_walk items), s).
Proof. intros H. unfold findConfigFiles, bind, readdirSync, ret. by rewrite H. Qed.

Lemma getFileList_some repoPath s items :
  disk s !! repoPath = Some items →
  getFileList repoPath s = (Returned (filelist_walk items), s).
Proof. intros H. unfold getFileList, bind, readdirSync, ret. by rewrite H. Qed.

Lemma getFileList_none repoPath s :
  disk s !! repoPath = None → getFileList repoPath s = (Threw (ENOENT repoPath), s).
Proof. intros H. unfold getFileList, bind, readdirSync. by rewrite H. Qed.

(** Once the removal has succeeded, the listing that follows it throws. *)
Lemma cleanup_then_list E repoPath s :
  rmSync_fails E repoPath = false →
  bind (cleanupTempDir E repoPath) (λ _, getFileList repoPath) s
  = (Threw (ENOENT repoPath), set_disk (delete repoPath (disk s)) (log_rm repoPath s)).
Proof.
  intros Hrm. unfold bind at 1, cleanupTempDir, try_catch, rmSync. rewrite Hrm.
  apply getFileList_none. simpl. apply lookup_delete_eq.
Qed.

(** ** What a returned result holds *)

Lemma analyzeDependencies_records E repoPath s items :
  disk s !! repoPath = Some items →
  analyzeDependencies E repoPath s
  = (match manifest_records E repoPath items with
     | inl e => Threw e
     | inr ds => Returned ds
     end, s).
Proof.
  intros Hitems.
  assert (Hfind : ∀ name, disk s !! repoPath ≫= find_entry name = find_entry name items)
    by (intros name; by rewrite Hitems).
  unfold analyzeDependencies, manifest_records, manifest_text, existsSync, readFileSync,
    JSON_parse_M, bind, lift, ret, throw.
  destruct (find_entry "package.json" items) as [[n1 z1 [text|]|n1 c1]|] eqn:Hpkg;
    destruct (find_entry "requirements.txt" items) as [[n2 z2 [content|]|n2 c2]|] eqn:Hreq;
    repeat (rewrite ?Hfind, ?Hpkg, ?Hreq; simpl); try done;
    destruct (JSON_parse E text) as [j|]; simpl; try done;
    destruct (npm_dependencies j) as [e|npm]; simpl; try done;
    repeat (rewrite ?Hfind, ?Hpkg, ?Hreq; simpl); done.
Qed.

Lemma analyzeRepository_Returned E url options s r s' :
  analyzeRepository E url options s = (Returned r, s') →
  let first := cloneCmd (default 3 (o_depth options)) (default "main" (o_branch options))
                        url (workspace_path E) in
  let second := fallbackCmd (default 3 (o_depth options)) url (workspace_path E) in
  ∃ d items,
    (shell E first (disk (after_mkdir E s)) = Exit0 d
     ∨ (∃ diagnostic, shell E first (disk (after_mkdir E s)) = ExitErr diagnostic)
       ∧ shell E second (disk (after_mkdir E s)) = Exit0 d)
    ∧ d !! workspace_path E = Some items
    ∧ r_repository r = parseRepoUrl url
    ∧ r_branch r = default "main" (o_branch options)
    ∧ r_structure r = structure_walk items
    ∧ r_languages r = languages_walk items
    ∧ r_configFiles r = config_walk items
    ∧ (if default true (o_includeDependencies options)
       then manifest_records E (workspace_path E) items else inr [])
      = inr (r_dependencies r)
    ∧ r_metrics r = metrics_walk items
    ∧ r_files r = filelist_walk (left_tree (rmSync_removed E (workspace_path E)) items)
    ∧ disk s' !! workspace_path E
      = Some (left_tree (rmSync_removed E (workspace_path E)) items)
    ∧ rmSync_fails E (workspace_path E) = true.
Proof.
  unfold analyzeRepository, try_catch. unfold bind at 1.
  rewrite cloneRepository_unfold. cbv zeta.
  set (first := cloneCmd _ _ _ _). set (second := fallbackCmd _ _ _).
  set (s1 := after_mkdir E s).
  assert (Hrun : ∀ d s2,
    match
      (let* structure := analyzeStructure (workspace_path E) in
       let* languages := detectLanguages (workspace_path E) in
       let* configFiles := findConfigFiles (workspace_path E) in
       let* dependencies :=
         if default true (o_includeDependencies options) : bool
         then analyzeDependencies E (workspace_path E) else ret [] in
       let* metrics := calculateMetrics (workspace_path E) in
       cleanupTempDir E (workspace_path E);;;
       let* files := getFileList (workspace_path E) in
       ret {| r_repository := parseRepoUrl url;
              r_branch := default "main" (o_branch options);
              r_structure := structure; r_languages := languages;
              r_configFiles := configFiles; r_dependencies := dependencies;
              r_metrics := metrics; r_files := files |}) (set_disk d s2)
    with
    | (Threw e, s3) => throw e s3
    | other => other
    end = (Returned r, s') →
    ∃ items,
      d !! workspace_path E = Some items
      ∧ r_repository r = parseRepoUrl url
      ∧ r_branch r = default "main" (o_branch options)
      ∧ r_structure r = structure_walk items
      ∧ r_languages r = languages_walk items
      ∧ r_configFiles r = config_walk items
      ∧ (if default true (o_includeDependencies options)
         then manifest_records E (workspace_path E) items else inr [])
        = inr (r_dependencies r)
      ∧ r_metrics r = metrics_walk items
      ∧ r_files r = filelist_walk (left_tree (rmSync_removed E (workspace_path E)) items)
      ∧ disk s' !! workspace_path E
        = Some (left_tree (rmSync_removed E (workspace_path E)) items)
      ∧ rmSync_fails E (workspace_path E) = true).
  { intros d s2. set (s3 := set_disk d s2).
    destruct (disk s3 !! workspace_path E) as [items|] eqn:Hd.
    2:{ unfold bind at 1, analyzeStructure, bind at 1. by rewrite (readdirSync_none _ _ Hd). }
    erewrite bind_Returned by (by apply analyzeStructure_some).
    erewrite bind_Returned by (by apply detectLanguages_some).
    erewrite bind_Returned by (by apply findConfigFiles_some).
    unfold bind at 1.
    set (deps := if default true (o_includeDependencies options) : bool
                 then analyzeDependencies E (workspace_path E) else ret []).
    assert (Hdeps : deps s3
                    = (match (if default true (o_includeDependencies options)
                              then manifest_records E (workspace_path E) items else inr [])
                       with
                       | inl e => Threw e
                       | inr ds => Returned ds
                       end, s3)).
    { subst deps. destruct (default true _); [by apply analyzeDependencies_records|done]. }
    rewrite Hdeps. clear Hdeps deps.
    destruct (if default true (o_includeDependencies options)
              then manifest_records E (workspace_path E) items else inr []) as [e|ds]
      eqn:Hrecords; [done|].
    erewrite bind_Returned by (by apply calculateMetrics_some).
    destruct (rmSync_fails E (workspace_path E)) eqn:Hrm.
    - unfold bind at 1, cleanupTempDir, try_catch, rmSync. rewrite Hrm. unfold ret at 1.
      assert (Hleft : alter (left_tree (rmSync_removed E (workspace_path E)))
                        (workspace_path E) (disk s3) !! workspace_path E
                      = Some (left_tree (rmSync_removed E (workspace_path E)) items))
        by (by rewrite lookup_alter_eq, Hd).
      erewrite bind_Returned by (apply getFileList_some; simpl; exact Hleft).
      unfold ret. intros [= <- <-]. exists items. simpl. by split_and!.
    - unfold bind at 1, cleanupTempDir, try_catch, rmSync. rewrite Hrm.
      erewrite bind_Threw by (apply getFileList_none; simpl; apply lookup_delete_eq).
      done. }
  destruct (shell E first (disk s1)) as [d|diagnostic|] eqn:Hfirst.
  - intros (items & H)%Hrun. exists d, items. split; [by left|done].
  - destruct (shell E second (disk (log_exec first s1))) as [d| |] eqn:Hsecond; [|done..].
    intros (items & H)%Hrun. exists d, items. split; [right; by eauto|done].
  - done.
Qed.

(** ** The controller around the service *)

Lemma getRepositoryInsights_total E analysisData s :
  ∃ insights, getRepositoryInsights E analysisData s = (Returned insights, s).
Proof.
  unfold getRepositoryInsights, try_catch, bind, completion_content.
  destruct (chat_completions_create E analysisData); simpl; by eexists.
Qed.

Lemma generateSummary_member r ai summary :
  AnalyzeController.generateSummary r ai = inr summary →
  ∃ o, member "recommendations" ai = inr o.
Proof. destruct ai; simpl; try done; by eexists. Qed.

Lemma save_cases E a s :
  (∃ e, AnalysisModel.save E a s = (Threw e, s))
  ∨ (AnalysisModel.save E a s = (Returned tt, persist a s)
     ∧ db_down E = false ∧ includes (status a) status_enum = true
     ∧ is_Some (userId a) ∧ is_Some (repositoryUrl a)).
Proof.
  unfold AnalysisModel.save.
  destruct (userId a), (repositoryUrl a), (includes (status a) status_enum) eqn:Hst,
    (db_down E) eqn:Hdown;
    first [ left; eexists; reflexivity
          | right; split_and!; first [reflexivity | by eexists] ].
Qed.

(** The [try] block once the service has returned and the summary exists. *)
Lemma try_on_result E req s uid url r s1 ai summary :
  req_user req = Some uid →
  body_url req = Some url →
  analyzeRepository E url (options_of req) (log_emit "analysis-started" s) = (Returned r, s1) →
  getRepositoryInsights E r s1 = (Returned ai, s1) →
  AnalyzeController.generateSummary r ai = inr summary →
  db_down E = false →
  ∃ resp doc,
    AnalyzeController.analyzeRepository_try E req s
      = (Returned resp, log_emit "analysis-completed" (persist doc (take_id s1)))
    ∧ code resp = 200
    ∧ doc = {| _id := nextId s; userId := Some uid; repositoryUrl := Some url;
               a_branch := default "main" (body_branch req); status := "completed";
               analysisData := JObj (AnalysisResult_fields r
                                     ++ [("aiInsights", ai); ("summary", summary)]);
               a_metrics := Some (AnalyzeController.calculateMetrics E r); a_error := None |}
    ∧ db s1 = db s ∧ statusWrites s1 = statusWrites s.
Proof.
  intros Huser Hurl Hsvc Hai Hsum Hdown.
  pose proof (keeps_analyzeRepository E url (options_of req) (log_emit "analysis-started" s))
    as (Hdb & Hsw & Hid & _).
  rewrite Hsvc in Hdb, Hsw, Hid. simpl in Hdb, Hsw, Hid.
  destruct (generateSummary_member _ _ _ Hsum) as [insights Hins].
  unfold AnalyzeController.analyzeRepository_try. rewrite Huser, Hurl.
  unfold bind at 1, ret at 1. unfold bind at 1, AnalyzeController.emit at 1, modify at 1.
  fold (options_of req). rewrite (bind_Returned _ _ _ _ _ Hsvc).
  rewrite (bind_Returned _ _ _ _ _ Hai). unfold bind at 1. rewrite Hsum. simpl.
  unfold bind at 1, AnalyzeController.completed_Analysis, AnalysisModel.new_Analysis.
  unfold bind at 1, AnalysisModel.save. simpl. rewrite Hdown.
  unfold bind at 1, AnalyzeController.emit, modify. unfold bind at 1. rewrite Hins. simpl.
  rewrite Hid. eexists _, _. by split_and!.
Qed.

Lemma try_outcomes E req s :
  let run := AnalyzeController.analyzeRepository_try E req s in
  match run.1 with
  | Returned resp =>
      code resp = 200 ∧
      ∃ doc, status doc = "completed" ∧ _id doc = nextId s
             ∧ db run.2 = upsert doc (db s)
             ∧ statusWrites run.2 = statusWrites s ++ [(nextId s, "completed")]
  | Threw _ =>
      db run.2 = db s ∧ statusWrites run.2 = statusWrites s
      ∧ (nextId run.2 = nextId s ∨ db_down E = true)
  | Pending => db run.2 = db s ∧ statusWrites run.2 = statusWrites s
  end.
Proof.
  cbv zeta. destruct (AnalyzeController.analyzeRepository_try E req s) as [o s'] eqn:Hrun.
  revert Hrun.
  destruct (req_user req) as [uid|] eqn:Huser.
  2:{ unfold AnalyzeController.analyzeRepository_try. rewrite Huser.
      intros [= <- <-]. by split_and!; [..|left]. }
  destruct (body_url req) as [url|] eqn:Hurl.
  2:{ unfold AnalyzeController.analyzeRepository_try. rewrite Huser, Hurl.
      intros [= <- <-]. by split_and!; [..|left]. }
  pose proof (keeps_analyzeRepository E url (options_of req) (log_emit "analysis-started" s))
    as (Hdb & Hsw & Hid & _).
  destruct (analyzeRepository E url (options_of req) (log_emit "analysis-started" s))
    as [[r|e|] s1] eqn:Hsvc; simpl in Hdb, Hsw, Hid.
  2,3: unfold AnalyzeController.analyzeRepository_try; rewrite Huser, Hurl;
    unfold bind at 1, ret at 1; unfold bind at 1, AnalyzeController.emit at 1, modify at 1;
    fold (options_of req); unfold bind at 1; rewrite Hsvc;
    intros [= <- <-]; by split_and!; [..|try left].
  destruct (getRepositoryInsights_total E r s1) as [ai Hai].
  destruct (AnalyzeController.generateSummary r ai) as [e|summary] eqn:Hsum.
  { unfold AnalyzeController.analyzeRepository_try. rewrite Huser, Hurl.
    unfold bind at 1, ret at 1. unfold bind at 1, AnalyzeController.emit at 1, modify at 1.
    fold (options_of req). rewrite (bind_Returned _ _ _ _ _ Hsvc).
    rewrite (bind_Returned _ _ _ _ _ Hai). unfold bind at 1. rewrite Hsum.
    intros [= <- <-]. by split_and!; [..|left]. }
  destruct (db_down E) eqn:Hdown.
  { unfold AnalyzeController.analyzeRepository_try. rewrite Huser, Hurl.
    unfold bind at 1, ret at 1. unfold bind at 1, AnalyzeController.emit at 1, modify at 1.
    fold (options_of req). rewrite (bind_Returned _ _ _ _ _ Hsvc).
    rewrite (bind_Returned _ _ _ _ _ Hai). unfold bind at 1. rewrite Hsum. simpl.
    unfold bind at 1, AnalyzeController.completed_Analysis, AnalysisModel.new_Analysis.
    unfold bind at 1, AnalysisModel.save. simpl.
    rewrite Hdown. intros [= <- <-]. simpl. split_and!; [done..|by right]. }
  destruct (try_on_result E req s uid url r s1 ai summary)
    as (resp & doc & -> & Hcode & Hdoc & _); try done.
  intros [= <- <-]. split; [done|]. exists doc. simpl. rewrite ?Hdb, ?Hsw, ?Hid.
  subst doc. by split_and!.
Qed.

Lemma catch_outcomes E req e s :
  let run := AnalyzeController.analyzeRepository_catch E req e s in
  match run.1 with
  | Returned resp =>
      code resp = 500 ∧
      ((db run.2 = db s ∧ statusWrites run.2 = statusWrites s)
       ∨ (db_down E = false ∧
          ∃ doc, status doc = "failed" ∧ _id doc = nextId s
                 ∧ analysisData doc = JObj [] ∧ a_metrics doc = None
                 ∧ db run.2 = upsert doc (db s)
                 ∧ statusWrites run.2 = statusWrites s ++ [(nextId s, "failed")]))
  | Threw _ => db run.2 = db s ∧ statusWrites run.2 = statusWrites s
  | Pending => False
  end.
Proof.
  cbv zeta. destruct (AnalyzeController.analyzeRepository_catch E req e s) as [o s'] eqn:Hrun.
  revert Hrun. unfold AnalyzeController.analyzeRepository_catch.
  destruct (body_url req) as [url|]; [|intros [= <- <-]; split; [done|by left]].
  destruct (String.eqb url ""); simpl; [intros [= <- <-]; split; [done|by left]|].
  unfold bind at 1. unfold bind at 1, AnalyzeController.failed_Analysis, AnalysisModel.new_Analysis.
  match goal with |- context [AnalysisModel.save E ?a ?s2] =>
    destruct (save_cases E a s2) as [[e' ->]|(-> & Hup & _)] end.
  - by intros [= <- <-].
  - intros [= <- <-]. split; [done|]. right. split; [done|]. simpl.
    match goal with |- context [upsert ?d (db s)] => exists d end. by split_and!.
Qed.

(** ** C1: the workspace after a run *)

Lemma analyzeRepository_clone_fails E url options s d1 d2 :
  let branch := default "main" (o_branch options) in
  let depth := default 3 (o_depth options) in
  let first := cloneCmd depth branch url (workspace_path E) in
  let second := fallbackCmd depth url (workspace_path E) in
  shell E first (disk (after_mkdir E s)) = ExitErr d1 →
  shell E second (disk (after_mkdir E s)) = ExitErr d2 →
  analyzeRepository E url options s
  = (Threw (ExecError second d2), log_exec second (log_exec first (after_mkdir E s))).
Proof.
  cbv zeta. intros H1 H2. unfold analyzeRepository, try_catch. unfold bind at 1.
  rewrite cloneRepository_unfold. cbv zeta. rewrite H1. simpl. by rewrite H2.
Qed.

Lemma failed_clone_keeps_workspace E url options s d1 d2 :
  let branch := default "main" (o_branch options) in
  let depth := default 3 (o_depth options) in
  shell E (cloneCmd depth branch url (workspace_path E)) (disk (after_mkdir E s)) = ExitErr d1 →
  shell E (fallbackCmd depth url (workspace_path E)) (disk (after_mkdir E s)) = ExitErr d2 →
  let run := analyzeRepository E url options s in
  is_Some (disk run.2 !! workspace_path E) ∧ rmLog run.2 = rmLog s.
Proof.
  cbv zeta. intros H1 H2. rewrite (analyzeRepository_clone_fails _ _ _ _ _ _ H1 H2). simpl.
  split; [apply after_mkdir_exists|].
  unfold after_mkdir. by destruct (disk s !! workspace_path E).
Qed.

(** With a removal that succeeds, the service never returns: it lists the
    files of the directory it has just removed. *)
Lemma analyzeRepository_after_cleanup E url options s r s' :
  rmSync_fails E (workspace_path E) = false →
  analyzeRepository E url options s ≠ (Returned r, s').
Proof.
  intros Hrm Hrun. apply analyzeRepository_Returned in Hrun as (d & items & H).
  cbv zeta in H. destruct_and!. congruence.
Qed.

(** C1, on the code. The claim asks that the workspace be removed on every
    exit path. When both clone commands fail, and when a later stage throws
    (here [JSON.parse] on a truncated [package.json]), the run ends with the
    workspace still on disk and [fs.rmSync] never called. *)
Theorem workspace_outlives_failed_runs :
  (let run := analyzeRepository (Worlds.world Worlds.git_unreachable false AIMalformed)
                Worlds.url0 Worlds.options0 Worlds.s0 in
   (∃ e, run.1 = Threw e)
   ∧ disk run.2 !! Worlds.workspace = Some []
   ∧ rmLog run.2 = [])
  ∧
  (let run := analyzeRepository
                (Worlds.world (Worlds.git_serves Worlds.broken_manifest) false AIMalformed)
                Worlds.url0 Worlds.options0 Worlds.s0 in
   run.1 = Threw (SyntaxError "{")
   ∧ disk run.2 !! Worlds.workspace = Some Worlds.broken_manifest
   ∧ rmLog run.2 = []).
Proof. split; vm_compute; split_and!; by eauto. Qed.

(** ** C2: a healthy run *)

Lemma generateSummary_ok r ai :
  ai ≠ JNull → ∃ summary, AnalyzeController.generateSummary r ai = inr summary.
Proof.
  intros Hnull. unfold AnalyzeController.generateSummary, AnalyzeController.calculateQualityScore.
  destruct ai; try done; simpl; repeat case_match; by eauto.
Qed.

Lemma usable_insights_summary E r s :
  insights_usable E r = true →
  ∃ ai summary,
    getRepositoryInsights E r s = (Returned ai, s)
    ∧ AnalyzeController.generateSummary r ai = inr summary.
Proof.
  unfold insights_usable. intros Hok.
  destruct (getRepositoryInsights_total E r s) as [ai Hai]. exists ai.
  destruct (generateSummary_ok r ai) as [summary Hsum]; [|by eauto].
  revert Hai. unfold getRepositoryInsights, try_catch, bind, completion_content, parseAIResponse.
  destruct (chat_completions_create E r) as [?| |content]; simpl; try by intros [= <-].
  intros [= <-]. by destruct (JSON_parse E content) as [[]|].
Qed.

Lemma try_on_throw E req s uid url e s1 :
  req_user req = Some uid →
  body_url req = Some url →
  analyzeRepository E url (options_of req) (log_emit "analysis-started" s) = (Threw e, s1) →
  AnalyzeController.analyzeRepository_try E req s = (Threw e, s1).
Proof.
  intros Huser Hurl Hsvc. unfold AnalyzeController.analyzeRepository_try. rewrite Huser, Hurl.
  unfold bind at 1, ret at 1. unfold bind at 1, AnalyzeController.emit at 1, modify at 1.
  fold (options_of req). by rewrite (bind_Threw _ _ _ _ _ Hsvc).
Qed.

Lemma try_on_pending E req s uid url s1 :
  req_user req = Some uid →
  body_url req = Some url →
  analyzeRepository E url (options_of req) (log_emit "analysis-started" s) = (Pending, s1) →
  AnalyzeController.analyzeRepository_try E req s = (Pending, s1).
Proof.
  intros Huser Hurl Hsvc. unfold AnalyzeController.analyzeRepository_try. rewrite Huser, Hurl.
  unfold bind at 1, ret at 1. unfold bind at 1, AnalyzeController.emit at 1, modify at 1.
  fold (options_of req). by rewrite (bind_Pending _ _ _ _ Hsvc).
Qed.

(** The [try] block returns only once the service has returned. *)
Lemma try_needs_the_service E req s resp s' :
  AnalyzeController.analyzeRepository_try E req s = (Returned resp, s') →
  ∃ url r s1,
    analyzeRepository E url (options_of req) (log_emit "analysis-started" s) = (Returned r, s1).
Proof.
  destruct (req_user req) as [uid|] eqn:Huser.
  2:{ unfold AnalyzeController.analyzeRepository_try. by rewrite Huser. }
  destruct (body_url req) as [url|] eqn:Hurl.
  2:{ unfold AnalyzeController.analyzeRepository_try. by rewrite Huser, Hurl. }
  destruct (analyzeRepository E url (options_of req) (log_emit "analysis-started" s))
    as [[r|e|] s1] eqn:Hsvc.
  - by eauto.
  - by rewrite (try_on_throw E req s uid url e s1).
  - by rewrite (try_on_pending E req s uid url s1).
Qed.

Lemma catch_saves_failed E req e s1 uid url :
  req_user req = Some uid →
  body_url req = Some url →
  String.eqb url "" = false →
  db_down E = false →
  ∃ resp doc,
    AnalyzeController.analyzeRepository_catch E req e s1 = (Returned resp, persist doc (take_id s1))
    ∧ code resp = 500
    ∧ doc = {| _id := nextId s1; userId := Some uid; repositoryUrl := Some url;
               a_branch := "main"; status := "failed"; analysisData := JObj [];
               a_metrics := None; a_error := Some (JStr (message e)) |}.
Proof.
  intros Huser Hurl Hne Hdown. unfold AnalyzeController.analyzeRepository_catch.
  rewrite Hurl, Hne. simpl. unfold bind at 1.
  unfold bind at 1, AnalyzeController.failed_Analysis, AnalysisModel.new_Analysis,
    AnalysisModel.save.
  rewrite Huser. simpl.
  rewrite Hdown. eexists _, _. by split_and!.
Qed.

(** The clone succeeds, every stage succeeds, the removal works: the listing
    of the files, which comes after the removal, throws. *)
Lemma analyzeRepository_healthy E req url d items ds s :
  shell E (cloneCmd (default 3 (body_depth req)) (default "main" (body_branch req)) url
                    (workspace_path E))
        (disk (after_mkdir E (log_emit "analysis-started" s))) = Exit0 d →
  d !! workspace_path E = Some items →
  (if default true (body_includeDependencies req)
   then manifest_records E (workspace_path E) items else inr []) = inr ds →
  rmSync_fails E (workspace_path E) = false →
  analyzeRepository E url (options_of req) (log_emit "analysis-started" s)
  = (Threw (ENOENT (workspace_path E)),
     set_disk (delete (workspace_path E) d)
              (log_rm (workspace_path E) (after_clone E req url d s))).
Proof.
  intros Hclone Hitems Hrecords Hrm.
  unfold analyzeRepository, try_catch, options_of. simpl. unfold bind at 1.
  rewrite cloneRepository_unfold. cbv zeta. rewrite Hclone. fold (after_clone E req url d s).
  assert (Hd : disk (after_clone E req url d s) !! workspace_path E = Some items) by done.
  erewrite bind_Returned by (by apply analyzeStructure_some).
  erewrite bind_Returned by (by apply detectLanguages_some).
  erewrite bind_Returned by (by apply findConfigFiles_some).
  unfold bind at 1.
  set (deps := if default true (body_includeDependencies req) : bool
               then analyzeDependencies E (workspace_path E) else ret []).
  assert (Hdeps : deps (after_clone E req url d s) = (Returned ds, after_clone E req url d s)).
  { subst deps. destruct (default true _).
    - by rewrite (analyzeDependencies_records _ _ _ _ Hd), Hrecords.
    - by injection Hrecords as <-. }
  rewrite Hdeps. clear Hdeps deps.
  erewrite bind_Returned by (by apply calculateMetrics_some).
  unfold bind at 1, cleanupTempDir, try_catch, rmSync. rewrite Hrm.
  by erewrite bind_Threw by (apply getFileList_none; simpl; apply lookup_delete_eq).
Qed.

(** C2, on the code. The claim asks that a run on a reachable repository
    whose clone succeeds, with no induced failure, return its result and be
    recorded as completed. On such a run the service removes the workspace
    and only then lists its files: [getFileList] throws [ENOENT], the service
    rethrows, and the controller answers 500 and records the run as [failed];
    this holds for every tree that is cloned and whose manifests are read, and
    is evaluated on a repository of three files. No run is answered 200
    unless the removal of its workspace has failed. *)
Theorem healthy_run_ends_in_ENOENT :
  (∀ E req s uid url d items ds,
     req_user req = Some uid →
     body_url req = Some url →
     String.eqb url "" = false →
     shell E (cloneCmd (default 3 (body_depth req)) (default "main" (body_branch req))
                       url (workspace_path E))
           (disk (after_mkdir E (log_emit "analysis-started" s))) = Exit0 d →
     d !! workspace_path E = Some items →
     (if default true (body_includeDependencies req)
      then manifest_records E (workspace_path E) items else inr []) = inr ds →
     rmSync_fails E (workspace_path E) = false →
     db_down E = false →
     let run := analyzeRepository E url (options_of req) (log_emit "analysis-started" s) in
     run.1 = Threw (ENOENT (workspace_path E))
     ∧ disk run.2 !! workspace_path E = None
     ∧ rmLog run.2 = rmLog s ++ [workspace_path E]
     ∧ ∃ resp s',
         AnalyzeController.analyzeRepository E req s = (Returned resp, s')
         ∧ code resp = 500
         ∧ statusWrites s' = statusWrites s ++ [(nextId s, "failed")])
  ∧ (∀ E req s resp s',
       AnalyzeController.analyzeRepository E req s = (Returned resp, s') →
       code resp = 200 →
       rmSync_fails E (workspace_path E) = true)
  ∧ (let W := Worlds.world (Worlds.git_serves Worlds.small_repo) false (AIContent "{}") in
     (analyzeRepository W Worlds.url0 (options_of Worlds.request0)
        (log_emit "analysis-started" Worlds.s0)).1 = Threw (ENOENT Worlds.workspace)
     ∧ outcome_code (AnalyzeController.analyzeRepository W Worlds.request0 Worlds.s0).1
       = Returned 500
     ∧ statusWrites (AnalyzeController.analyzeRepository W Worlds.request0 Worlds.s0).2
       = [(0%N, "failed")]).
Proof.
  split_and!.
  - intros E req s uid url d items ds Huser Hurl Hne Hclone Hitems Hrecords Hrm Hdb run.
    pose proof (analyzeRepository_healthy E req url d items ds s Hclone Hitems Hrecords Hrm)
      as Hsvc.
    subst run. rewrite Hsvc. simpl. split_and!.
    + done.
    + apply lookup_delete_eq.
    + unfold after_mkdir. by destruct (disk _ !! _).
    + pose proof (try_on_throw E req s uid url _ _ Huser Hurl Hsvc) as Htry.
      match type of Htry with _ = (_, ?s1) =>
        destruct (catch_saves_failed E req (ENOENT (workspace_path E)) s1 uid url)
          as (resp & doc & Hcatch & Hcode & Hdoc); try done;
        exists resp, (persist doc (take_id s1)) end.
      unfold AnalyzeController.analyzeRepository.
      rewrite (try_catch_Threw _ _ _ _ _ Htry). split_and!; [done..|].
      subst doc. simpl. unfold after_mkdir. by destruct (disk _ !! _).
  - intros E req s resp s' Hrun Hcode.
    destruct (rmSync_fails E (workspace_path E)) eqn:Hrm; [done|]. exfalso.
    revert Hrun. unfold AnalyzeController.analyzeRepository, try_catch.
    destruct (AnalyzeController.analyzeRepository_try E req s) as [[resp0|e|] s1] eqn:Htry.
    + apply try_needs_the_service in Htry as (url & r & s2 & Hsvc).
      by destruct (analyzeRepository_after_cleanup E url (options_of req) _ r s2 Hrm Hsvc).
    + pose proof (catch_outcomes E req e s1) as Hcatch. cbv zeta in Hcatch.
      intros Hrun. rewrite Hrun in Hcatch. simpl in Hcatch. lia.
    + done.
  - by vm_compute.
Qed.

Lemma healthy_run_ends_in_ENOENT_witness :
  let W := Worlds.world (Worlds.git_serves Worlds.small_repo) false (AIContent "{}") in
  let run := analyzeRepository W Worlds.url0 (options_of Worlds.request0)
               (log_emit "analysis-started" Worlds.s0) in
  run.1 = Threw (ENOENT Worlds.workspace)
  ∧ disk run.2 !! Worlds.workspace = None
  ∧ rmLog run.2 = [Worlds.workspace]
  ∧ ∃ resp s',
      AnalyzeController.analyzeRepository W Worlds.request0 Worlds.s0 = (Returned resp, s')
      ∧ code resp = 500
      ∧ statusWrites s' = [(0%N, "failed")].
Proof.
  intros W. destruct healthy_run_ends_in_ENOENT as [Hevery _].
  apply (Hevery W Worlds.request0 Worlds.s0 "u1" Worlds.url0
           {[Worlds.workspace := Worlds.small_repo]} Worlds.small_repo []); reflexivity.
Defined.

(** ** C3: the enrichment fallback *)

(** The [try] block once the service has returned and the insights are
    [null]: reading [insights.recommendations] throws. *)
Lemma try_on_null E req s uid url r s1 :
  req_user req = Some uid →
  body_url req = Some url →
  analyzeRepository E url (options_of req) (log_emit "analysis-started" s) = (Returned r, s1) →
  getRepositoryInsights E r s1 = (Returned JNull, s1) →
  ∃ e, AnalyzeController.analyzeRepository_try E req s = (Threw e, s1).
Proof.
  intros Huser Hurl Hsvc Hai.
  unfold AnalyzeController.analyzeRepository_try. rewrite Huser, Hurl.
  unfold bind at 1, ret at 1. unfold bind at 1, AnalyzeController.emit at 1, modify at 1.
  fold (options_of req). rewrite (bind_Returned _ _ _ _ _ Hsvc).
  rewrite (bind_Returned _ _ _ _ _ Hai). unfold bind at 1. simpl. by eexists.
Qed.

(** The [try] block once the service has returned, with a database that is
    down: the save throws. *)
Lemma try_on_result_down E req s uid url r s1 ai summary :
  req_user req = Some uid →
  body_url req = Some url →
  analyzeRepository E url (options_of req) (log_emit "analysis-started" s) = (Returned r, s1) →
  getRepositoryInsights E r s1 = (Returned ai, s1) →
  AnalyzeController.generateSummary r ai = inr summary →
  db_down E = true →
  AnalyzeController.analyzeRepository_try E req s
  = (Threw (MongoError "connection refused"), take_id s1).
Proof.
  intros Huser Hurl Hsvc Hai Hsum Hdown.
  unfold AnalyzeController.analyzeRepository_try. rewrite Huser, Hurl.
  unfold bind at 1, ret at 1. unfold bind at 1, AnalyzeController.emit at 1, modify at 1.
  fold (options_of req). rewrite (bind_Returned _ _ _ _ _ Hsvc).
  rewrite (bind_Returned _ _ _ _ _ Hai). unfold bind at 1. rewrite Hsum. simpl.
  unfold bind at 1, AnalyzeController.completed_Analysis, AnalysisModel.new_Analysis.
  unfold bind at 1, AnalysisModel.save. simpl. by rewrite Hdown.
Qed.

(** The service and the [catch] block of the controller never ask the
    inference service. *)
Lemma service_with_completion c E url options s :
  analyzeRepository (with_completion c E) url options s = analyzeRepository E url options s.
Proof. reflexivity. Qed.

Lemma catch_with_completion c E req e s :
  AnalyzeController.analyzeRepository_catch (with_completion c E) req e s
  = AnalyzeController.analyzeRepository_catch E req e s.
Proof. reflexivity. Qed.

(** What a run answers and which status it writes, when its insights can be
    read: the insights themselves play no part. *)
Lemma usable_insights_outcome E req s :
  (∀ r, insights_usable E r = true) →
  ∃ o w,
    outcome_code (AnalyzeController.analyzeRepository E req s).1 = o
    ∧ statusWrites (AnalyzeController.analyzeRepository E req s).2 = w
    ∧ ∀ c, (∀ r, insights_usable (with_completion c E) r = true) →
           outcome_code (AnalyzeController.analyzeRepository (with_completion c E) req s).1 = o
           ∧ statusWrites (AnalyzeController.analyzeRepository (with_completion c E) req s).2
             = w.
Proof.
  intros Husable. eexists _, _. split; [reflexivity|]. split; [reflexivity|].
  intros c Hc. unfold AnalyzeController.analyzeRepository, try_catch.
  destruct (req_user req) as [uid|] eqn:Huser.
  2:{ unfold AnalyzeController.analyzeRepository_try. rewrite Huser.
      unfold bind at 1 3. unfold throw at 1 3.
      by rewrite catch_with_completion. }
  destruct (body_url req) as [url|] eqn:Hurl.
  2:{ unfold AnalyzeController.analyzeRepository_try. rewrite Huser, Hurl.
      unfold bind at 1 5, ret at 1 3. unfold bind at 1 4, AnalyzeController.emit, modify.
      unfold bind at 1 3. unfold throw at 1 3.
      by rewrite catch_with_completion. }
  pose proof (service_with_completion c E url (options_of req) (log_emit "analysis-started" s))
    as Hsame.
  destruct (analyzeRepository E url (options_of req) (log_emit "analysis-started" s))
    as [[r|e|] s1] eqn:Hsvc.
  - destruct (usable_insights_summary E r s1 (Husable r)) as (ai & summary & Hai & Hsum).
    destruct (usable_insights_summary (with_completion c E) r s1 (Hc r))
      as (ai' & summary' & Hai' & Hsum').
    destruct (db_down E) eqn:Hdown.
    + rewrite (try_on_result_down E req s uid url r s1 ai summary) by done.
      rewrite (try_on_result_down (with_completion c E) req s uid url r s1 ai' summary')
        by done.
      by rewrite catch_with_completion.
    + destruct (try_on_result E req s uid url r s1 ai summary)
        as (resp & doc & -> & Hcode & -> & _); try done.
      destruct (try_on_result (with_completion c E) req s uid url r s1 ai' summary')
        as (resp' & doc' & -> & Hcode' & -> & _); try done.
      simpl. by rewrite Hcode, Hcode'.
  - rewrite (try_on_throw E req s uid url e s1) by done.
    rewrite (try_on_throw (with_completion c E) req s uid url e s1) by done.
    by rewrite catch_with_completion.
  - rewrite (try_on_pending E req s uid url s1) by done.
    by rewrite (try_on_pending (with_completion c E) req s uid url s1) by done.
Qed.

(** Against C3 as stated: a response whose content is not JSON is no failure
    for the code, the insights are [{raw: content}] and carry none of the five
    keys; and a response whose content is the JSON text [null] fails the run,
    which is answered 500 and recorded as failed. *)
Lemma malformed_content_is_not_a_fallback :
  (let W := Worlds.world (Worlds.git_serves Worlds.small_repo) true (AIContent "Looks fine.") in
   match analyzeRepository W Worlds.url0 (options_of Worlds.request0)
           (log_emit "analysis-started" Worlds.s0) with
   | (Returned r, s1) =>
       inference_fails W r = false
       ∧ getRepositoryInsights W r s1 = (Returned (JObj [("raw", JStr "Looks fine.")]), s1)
       ∧ keys (JObj [("raw", JStr "Looks fine.")]) = ["raw"]
   | _ => False
   end)
  ∧ (let W := Worlds.world (Worlds.git_serves Worlds.small_repo) true (AIContent "null") in
     match analyzeRepository W Worlds.url0 (options_of Worlds.request0)
             (log_emit "analysis-started" Worlds.s0) with
     | (Returned r, s1) => getRepositoryInsights W r s1 = (Returned JNull, s1)
     | _ => False
     end
     ∧ outcome_code (AnalyzeController.analyzeRepository W Worlds.request0 Worlds.s0).1
       = Returned 500
     ∧ statusWrites (AnalyzeController.analyzeRepository W Worlds.request0 Worlds.s0).2
       = [(0%N, "failed")]).
Proof. by vm_compute. Qed.

(** C3, as the code has it. When [chat.completions.create] rejects (a
    timeout, an unavailable service) or its response has no
    [choices[0].message], [getRepositoryInsights] returns, without throwing,
    the mock insights: an object with exactly the keys architecture, quality,
    performance, security, devops, the same for every analysis. A response
    with a content is no failure, however malformed the content: the insights
    are the parsed content, or [{raw: content}] when it is not JSON. Once the
    service has returned, the run is answered 200 and saved as [completed]
    with whatever insights are not [null], the mock ones included, and is
    answered 500 and saved as [failed] when they are [null]. A failing
    inference service changes neither the answer nor the status of any run:
    they are those of the same run with a service whose insights are not
    [null]. *)
Theorem enrichment_failure_falls_back E r :
  (inference_fails E r = true →
   ∀ s, getRepositoryInsights E r s = (Returned (getMockInsights r), s))
  ∧ keys (getMockInsights r) = ["architecture"; "quality"; "performance"; "security"; "devops"]
  ∧ (∀ other, getMockInsights other = getMockInsights r)
  ∧ (∀ content,
       chat_completions_create E r = AIContent content →
       ∀ s, getRepositoryInsights E r s
            = (Returned (default (JObj [("raw", JStr content)]) (JSON_parse E content)), s))
  ∧ (∀ req s uid url s1 ai,
       req_user req = Some uid →
       body_url req = Some url →
       analyzeRepository E url (options_of req) (log_emit "analysis-started" s)
         = (Returned r, s1) →
       getRepositoryInsights E r s1 = (Returned ai, s1) →
       db_down E = false →
       (ai ≠ JNull →
        ∃ resp doc s',
          AnalyzeController.analyzeRepository E req s = (Returned resp, s')
          ∧ code resp = 200
          ∧ db s' = upsert doc (db s)
          ∧ status doc = "completed"
          ∧ prop "aiInsights" (analysisData doc) = Some ai
          ∧ statusWrites s' = statusWrites s ++ [(nextId s, "completed")])
       ∧ (ai = JNull → String.eqb url "" = false →
          ∃ resp doc s',
            AnalyzeController.analyzeRepository E req s = (Returned resp, s')
            ∧ code resp = 500
            ∧ db s' = upsert doc (db s)
            ∧ status doc = "failed"
            ∧ statusWrites s' = statusWrites s ++ [(nextId s, "failed")]))
  ∧ (∀ c c' req s,
       (∀ r', inference_fails (with_completion c E) r' = true) →
       (∀ r', insights_usable (with_completion c' E) r' = true) →
       outcome_code (AnalyzeController.analyzeRepository (with_completion c E) req s).1
       = outcome_code (AnalyzeController.analyzeRepository (with_completion c' E) req s).1
       ∧ statusWrites (AnalyzeController.analyzeRepository (with_completion c E) req s).2
         = statusWrites (AnalyzeController.analyzeRepository (with_completion c' E) req s).2).
Proof.
  split_and!; [|done|done| | |].
  - unfold inference_fails, getRepositoryInsights, try_catch, bind, completion_content.
    by destruct (chat_completions_create E r).
  - intros content Hcall s.
    unfold getRepositoryInsights, try_catch, bind, completion_content, parseAIResponse.
    rewrite Hcall. simpl. by destruct (JSON_parse E content).
  - intros req s uid url s1 ai Huser Hurl Hsvc Hai Hdown.
    pose proof (keeps_analyzeRepository E url (options_of req) (log_emit "analysis-started" s))
      as (Hdb & Hsw & Hid & _).
    rewrite Hsvc in Hdb, Hsw, Hid. simpl in Hdb, Hsw, Hid.
    split.
    + intros Hnull. destruct (generateSummary_ok r ai Hnull) as [summary Hsum].
      destruct (try_on_result E req s uid url r s1 ai summary)
        as (resp & doc & Htry & Hcode & Hdoc & Hsame & Hwrites); try done.
      exists resp, doc, (log_emit "analysis-completed" (persist doc (take_id s1))).
      unfold AnalyzeController.analyzeRepository.
      rewrite (try_catch_Returned _ _ _ _ _ Htry). simpl. rewrite Hsame, Hwrites.
      subst doc. by split_and!.
    + intros -> Hne.
      destruct (try_on_null E req s uid url r s1 Huser Hurl Hsvc Hai) as [e Htry].
      destruct (catch_saves_failed E req e s1 uid url)
        as (resp & doc & Hcatch & Hcode & Hdoc); try done.
      exists resp, doc, (persist doc (take_id s1)).
      unfold AnalyzeController.analyzeRepository.
      rewrite (try_catch_Threw _ _ _ _ _ Htry). simpl. rewrite Hdb, Hsw.
      subst doc. simpl. split_and!; [done..|]. by rewrite Hid.
  - intros c c' req s Hc Hc'.
    assert (Hfail : ∀ r', insights_usable (with_completion c E) r' = true).
    { intros r'. specialize (Hc r'). revert Hc. unfold inference_fails, insights_usable.
      by destruct (chat_completions_create _ _). }
    destruct (usable_insights_outcome (with_completion c E) req s Hfail)
      as (o & w & Ho & Hw & Hany).
    destruct (Hany c') as [Ho' Hw']; [exact Hc'|].
    change (with_completion c' (with_completion c E)) with (with_completion c' E) in Ho', Hw'.
    by rewrite Ho, Hw, Ho', Hw'.
Qed.

Lemma enrichment_failure_falls_back_witness :
  let W := Worlds.world (Worlds.git_serves Worlds.small_repo) true (AIRejected "timeout") in
  ∃ r s1,
    analyzeRepository W Worlds.url0 (options_of Worlds.request0)
      (log_emit "analysis-started" Worlds.s0) = (Returned r, s1)
    ∧ inference_fails W r = true
    ∧ getRepositoryInsights W r s1 = (Returned (getMockInsights r), s1)
    ∧ ∃ resp doc s',
        AnalyzeController.analyzeRepository W Worlds.request0 Worlds.s0 = (Returned resp, s')
        ∧ code resp = 200
        ∧ db s' = upsert doc (db Worlds.s0)
        ∧ status doc = "completed"
        ∧ prop "aiInsights" (analysisData doc) = Some (getMockInsights r)
        ∧ statusWrites s' = [(0%N, "completed")].
Proof.
  intros W. eexists _, _. split; [reflexivity|].
  match goal with |- inference_fails _ ?r = true ∧ _ =>
    destruct (enrichment_failure_falls_back W r) as (Hmock & _ & _ & _ & Hrun & _) end.
  split; [reflexivity|]. split; [by apply Hmock|].
  destruct (Hrun Worlds.request0 Worlds.s0 "u1" Worlds.url0 _ _
              eq_refl eq_refl eq_refl (Hmock eq_refl _) eq_refl) as [Hcompleted _].
  by apply Hcompleted.
Defined.

(** ** C4: a manifest that does not parse *)







(** ** C7: from manifest entries to dependency records *)

(** One record for each entry whose version is a string. *)
Lemma npm_records_strings entries :
  Forall (λ e, ∃ v, e.2 = JStr v) entries →
  ∃ ds,
    npm_records entries = inr ds
    ∧ length ds = length entries
    ∧ Forall2 (λ e d, d_name d = e.1 ∧
                      ∃ v, e.2 = JStr v
                           ∧ d_version d = replace_first "~" (replace_first "^" v))
              entries ds.
Proof.
  induction 1 as [|[name j] entries [v Hv] _ (ds & Hds & Hlen & Hall)]; simpl.
  - exists []. by split_and!.
  - simpl in Hv. subst j. rewrite Hds. eexists. split_and!; [done|by simpl; f_equal|].
    constructor; [|done]. simpl. by eauto.
Qed.

(** One record for each line that matches the pattern. *)
Lemma pip_records_matching lines :
  Forall (λ line, is_Some (match_requirement line)) lines →
  length (omap pip_record lines) = length lines.
Proof.
  induction 1 as [|line lines [[name version] Hm] _ IH]; simpl; [done|].
  unfold pip_record at 1. rewrite Hm. simpl. by f_equal.
Qed.

Lemma occurs_occurrences c s : occurs c s = false ↔ occurrences c s = O.
Proof.
  induction s as [|a s IH]; simpl; [done|].
  destruct (Ascii.eqb a c); simpl; [done|apply IH].
Qed.

Lemma occurrences_replace_first c s :
  occurrences c (replace_first c s) = pred (occurrences c s).
Proof.
  induction s as [|a s IH]; simpl; [done|].
  destruct (Ascii.eqb a c) eqn:Hac; simpl; [done|]. by rewrite Hac.
Qed.

Lemma occurrences_replace_other c c' s :
  c ≠ c' → (occurrences c' (replace_first c s) ≤ occurrences c' s)%nat.
Proof.
  intros Hne. induction s as [|a s IH]; simpl; [done|].
  destruct (Ascii.eqb a c) eqn:Hac; simpl.
  - destruct (Ascii.eqb a c'); lia.
  - destruct (Ascii.eqb a c'); lia.
Qed.

(** A version with at most one [^] and at most one [~] comes out with
    neither. *)
Lemma single_markers_are_stripped v :
  (occurrences "^" v ≤ 1)%nat → (occurrences "~" v ≤ 1)%nat →
  let version := replace_first "~" (replace_first "^" v) in
  occurs "^" version = false ∧ occurs "~" version = false.
Proof.
  intros Hcaret Htilde. cbv zeta. rewrite !occurs_occurrences. split.
  - pose proof (occurrences_replace_other "~" "^" (replace_first "^" v)) as H.
    rewrite occurrences_replace_first in H. specialize (H ltac:(done)). lia.
  - rewrite occurrences_replace_first.
    pose proof (occurrences_replace_other "^" "~" v ltac:(done)). lia.
Qed.

(** C7, on the code. The claim asks that each record's version have the
    markers [^] and [~] stripped. For the entry ["glob": "^7.1.0 || ^8.0.0"]
    the record's version is ["7.1.0 || ^8.0.0"]: [replace] with a string
    pattern removes the first [^] only. (There are as many records as
    entries, and the entry with one marker comes out without it.) *)
Theorem compound_range_keeps_a_marker :
  let W := Worlds.world (Worlds.git_serves Worlds.compound_manifest) false AIMalformed in
  (analyzeDependencies W Worlds.workspace (Worlds.cloned Worlds.compound_manifest)).1
  = Returned [ {| d_name := "glob"; d_version := "7.1.0 || ^8.0.0";
                  d_type := "runtime"; d_manager := "npm" |};
               {| d_name := "chalk"; d_version := "4.1.2";
                  d_type := "runtime"; d_manager := "npm" |} ]
  ∧ occurs "^" "7.1.0 || ^8.0.0" = true.
Proof. by vm_compute. Qed.

(** ** C9: reading an analysis *)

Lemma find_owned (p : Analysis → bool) uid docs :
  List.find (λ a, p a && bool_decide (userId a = Some uid))
            (filter (λ a, userId a = Some uid) docs)
  = List.find (λ a, p a && bool_decide (userId a = Some uid)) docs.
Proof.
  induction docs as [|a docs IH]; [done|].
  rewrite filter_cons. destruct (decide (userId a = Some uid)) as [Ha|Ha]; simpl.
  - by rewrite IH.
  - rewrite (bool_decide_eq_false_2 _ Ha), andb_false_r. apply IH.
Qed.

Lemma getAnalysisById_found E req uid s :
  get_user req = Some uid →
  ∀ resp s',
    AnalyzeController.getAnalysisById E req s = (Returned resp, s') → code resp = 200 →
    ∃ a, a ∈ db s ∧ _id a = analysisId req ∧ userId a = Some uid.
Proof.
  intros Huser resp s'.
  unfold AnalyzeController.getAnalysisById, try_catch, bind, AnalysisModel.findOne.
  rewrite Huser. simpl.
  destruct (db_down E); [by intros [= <- <-]|].
  destruct (List.find _ (db s)) as [a|] eqn:Hfind; simpl; [|by intros [= <- <-]].
  intros _ _. apply find_some in Hfind as [Hin Hp]. apply list_elem_of_In in Hin.
  apply andb_true_iff in Hp as [Hid Howner].
  exists a. split_and!; [done|by apply N.eqb_eq|by apply bool_decide_eq_true in Howner].
Qed.

Lemma getAnalysisById_outcome E req uid s s0 :
  get_user req = Some uid →
  db_down E = false →
  List.find (λ a, N.eqb (_id a) (analysisId req) && bool_decide (userId a = Some uid)) (db s0)
  = List.find (λ a, N.eqb (_id a) (analysisId req) && bool_decide (userId a = Some uid)) (db s) →
  (AnalyzeController.getAnalysisById E req s0).1 = (AnalyzeController.getAnalysisById E req s).1.
Proof.
  intros Huser Hdown Hfind.
  unfold AnalyzeController.getAnalysisById, try_catch, bind, AnalysisModel.findOne.
  rewrite Huser, Hdown. simpl. rewrite Hfind. by destruct (List.find _ (db s)).
Qed.

(** C9. A read returns a record only when the record's stored owner is the
    caller; the answer to a caller is the one they would get if the records
    of all other owners did not exist; in particular a request for a record
    owned by someone else gets the same "Analysis not found" 404 as a
    request for an id that is not in the collection. *)
Theorem read_is_owner_checked E req uid s (Hcaller : get_user req = Some uid) :
  (∀ resp s',
     AnalyzeController.getAnalysisById E req s = (Returned resp, s') → code resp = 200 →
     ∃ a, a ∈ db s ∧ _id a = analysisId req ∧ userId a = Some uid)
  ∧ (∀ s0,
       db s0 = filter (λ a, userId a = Some uid) (db s) →
       (AnalyzeController.getAnalysisById E req s0).1
       = (AnalyzeController.getAnalysisById E req s).1)
  ∧ (db_down E = false →
     (∀ a, a ∈ db s → _id a = analysisId req → userId a ≠ Some uid) →
     AnalyzeController.getAnalysisById E req s = (Returned AnalyzeController.not_found, s)).
Proof.
  split_and!.
  - by apply getAnalysisById_found.
  - intros s0 Hs0. destruct (db_down E) eqn:Hdown.
    + unfold AnalyzeController.getAnalysisById, try_catch, bind, AnalysisModel.findOne.
      by rewrite Hcaller, Hdown.
    + apply (getAnalysisById_outcome E req uid); [done..|]. rewrite Hs0. apply find_owned.
  - intros Hdown Hforeign.
    unfold AnalyzeController.getAnalysisById, try_catch, bind, AnalysisModel.findOne.
    rewrite Hcaller, Hdown. simpl.
    destruct (List.find _ (db s)) as [a|] eqn:Hfind; [|done].
    apply find_some in Hfind as [Hin Hp]. apply list_elem_of_In in Hin.
    apply andb_true_iff in Hp as [Hid Howner].
    apply N.eqb_eq in Hid. apply bool_decide_eq_true in Howner. by destruct (Hforeign a).
Qed.

Lemma read_is_owner_checked_witness :
  let W := Worlds.world Worlds.git_unreachable false AIMalformed in
  let foreign := {| analysisId := 1; includeFiles := true; includeMetrics := true;
                    get_user := Some "u1" |} in
  let missing := {| analysisId := 7; includeFiles := true; includeMetrics := true;
                    get_user := Some "u1" |} in
  AnalyzeController.getAnalysisById W foreign Worlds.two_owners
    = (Returned AnalyzeController.not_found, Worlds.two_owners)
  ∧ AnalyzeController.getAnalysisById W missing Worlds.two_owners
    = (Returned AnalyzeController.not_found, Worlds.two_owners).
Proof.
  intros W foreign missing.
  destruct (read_is_owner_checked W foreign "u1" Worlds.two_owners eq_refl) as (_ & _ & Hf).
  split; [|reflexivity]. apply Hf; [reflexivity|].
  intros a Ha Hid. simpl in Ha.
  apply elem_of_cons in Ha as [->|Ha]; [done|].
  apply elem_of_cons in Ha as [->|Ha]; [done|]. by apply elem_of_nil in Ha.
Defined.

(** ** C5: the status of a record *)

Lemma includes_elem_of x l : includes x l = true ↔ x ∈ l.
Proof.
  unfold includes. rewrite existsb_exists. split.
  - intros (y & Hin & Heq). apply String.eqb_eq in Heq. subst y. by apply list_elem_of_In.
  - intros Hin. exists x. split; [by apply list_elem_of_In|apply String.eqb_refl].
Qed.


Lemma save_Returned E a s s' :
  AnalysisModel.save E a s = (Returned tt, s') → s' = persist a s ∧ status a ∈ status_enum.
Proof.
  destruct (save_cases E a s) as [[e ->]|(-> & _ & Hst & _)]; [done|].
  intros [= <-]. split; [done|by apply includes_elem_of].
Qed.

Lemma updateStatus_Returned E this st data doc s s' :
  AnalysisModel.updateStatus E this st data s = (Returned doc, s') →
  status doc = st ∧ st ∈ status_enum ∧ s' = persist doc s
  ∧ _id doc = _id this
  ∧ (st ≠ "completed" →
     analysisData doc = analysisData this ∧ a_metrics doc = a_metrics this)
  ∧ (st = "completed" →
     analysisData doc = default (JObj []) data ∧ is_Some (a_metrics doc)).
Proof.
  unfold AnalysisModel.updateStatus. unfold bind at 1.
  destruct (String.eqb st "completed") eqn:Hc.
  - apply String.eqb_eq in Hc. subst st. unfold bind at 1.
    destruct (AnalysisModel.calculateMetrics E (default (JObj []) data)) as [e|metrics]; [done|].
    simpl. unfold bind.
    match goal with |- context [AnalysisModel.save E ?a s] =>
      destruct (AnalysisModel.save E a s) as [[[]|e|] s1] eqn:Hsave end; try done.
    intros [= <- <-]. apply save_Returned in Hsave as [-> Hst]. simpl in *.
    split_and!; try done; by eexists.
  - assert (st ≠ "completed") as Hne by (by apply String.eqb_neq).
    destruct (String.eqb st "failed") eqn:Hf.
    + unfold bind at 1. destruct (member "error" (default (JObj []) data)) as [e|err]; [done|].
      simpl. unfold bind.
      match goal with |- context [AnalysisModel.save E ?a s] =>
        destruct (AnalysisModel.save E a s) as [[[]|e|] s1] eqn:Hsave end; try done.
      intros [= <- <-]. apply save_Returned in Hsave as [-> Hst]. simpl in *.
      by split_and!.
    + unfold ret at 1. unfold bind.
      match goal with |- context [AnalysisModel.save E ?a s] =>
        destruct (AnalysisModel.save E a s) as [[[]|e|] s1] eqn:Hsave end; try done.
      intros [= <- <-]. apply save_Returned in Hsave as [-> Hst]. simpl in *.
      by split_and!.
Qed.





(** * The walks of the service over one tree *)

(** ** [getFileList] as a list of entries *)

Lemma filelist_item_acc item :
  ∀ rel acc, filelist_item rel acc item = acc ++ filelist_item rel [] item.
Proof.
  induction item as [name size content|name children IH] using node_tree_ind;
    intros rel acc; simpl; [done|].
  set (entry := {| fe_name := name; fe_path := path_join rel name; fe_isDirectory := true;
                   fe_size := 0; fe_extension := toLowerCase (extname name) |}).
  assert (H : ∀ acc', foldl (filelist_item (path_join rel name)) acc' children
                      = acc' ++ foldl (filelist_item (path_join rel name)) [] children).
  { induction IH as [|x l Hx _ IHl]; intros acc'; simpl; [by rewrite app_nil_r|].
    rewrite IHl, (IHl (filelist_item _ [] x)), (Hx _ acc'). by rewrite app_assoc. }
  rewrite H, (H [entry]). by rewrite app_assoc.
Qed.

Lemma filelist_foldl rel items :
  ∀ acc, foldl (filelist_item rel) acc items
         = acc ++ flat_map (filelist_item rel []) items.
Proof.
  induction items as [|x l IH]; intros acc; simpl; [by rewrite app_nil_r|].
  by rewrite IH, filelist_item_acc, app_assoc.
Qed.

Lemma filelist_Dir rel name children :
  filelist_item rel [] (Dir name children)
  = {| fe_name := name; fe_path := path_join rel name; fe_isDirectory := true;
       fe_size := 0; fe_extension := toLowerCase (extname name) |}
    :: flat_map (filelist_item (path_join rel name) []) children.
Proof. simpl. by rewrite filelist_foldl. Qed.

Lemma filelist_walk_flat items : filelist_walk items = flat_map (filelist_item "" []) items.
Proof. unfold filelist_walk. by rewrite filelist_foldl. Qed.

Lemma filelist_item_files item :
  ∀ rel, fe_name <$> List.filter (λ f, negb (fe_isDirectory f)) (filelist_item rel [] item)
         = file_names_item item.
Proof.
  induction item as [name size content|name children IH] using node_tree_ind;
    intros rel; [done|].
  rewrite filelist_Dir. simpl. generalize (path_join rel name). intros rel'.
  induction IH as [|x l Hx _ IHl]; simpl; [done|].
  by rewrite List.filter_app, fmap_app, Hx, IHl.
Qed.

Lemma filelist_item_dirs item :
  ∀ rel, Z.of_nat (length (List.filter fe_isDirectory (filelist_item rel [] item)))
         = count_dirs_item item.
Proof.
  induction item as [name size content|name children IH] using node_tree_ind;
    intros rel; [done|].
  rewrite filelist_Dir. simpl. generalize (path_join rel name). intros rel'.
  assert (H : Z.of_nat (length (List.filter fe_isDirectory
                                  (flat_map (filelist_item rel' []) children)))
              = foldr (λ child n, count_dirs_item child + n) 0 children).
  { induction IH as [|x l Hx _ IHl]; simpl; [done|].
    rewrite List.filter_app, length_app, Nat2Z.inj_add, Hx, IHl. done. }
  lia.
Qed.

(** ** [analyzeStructure] *)

Lemma structure_item_counts item :
  ∀ depth st,
    files (structure_item depth st item)
    = files st + Z.of_nat (length (file_names_item item))
    ∧ directories (structure_item depth st item) = directories st + count_dirs_item item.
Proof.
  induction item as [name size content|name children IH] using node_tree_ind;
    intros depth st; simpl; [split; lia|].
  assert (H : ∀ st',
    files (foldl (structure_item (depth + 1)) st' children)
    = files st' + Z.of_nat (length (flat_map file_names_item children))
    ∧ directories (foldl (structure_item (depth + 1)) st' children)
      = directories st' + foldr (λ child n, count_dirs_item child + n) 0 children).
  { induction IH as [|x l Hx _ IHl]; intros st'; simpl; [split; lia|].
    destruct (IHl (structure_item (depth + 1) st' x)) as [-> ->].
    destruct (Hx (depth + 1) st') as [-> ->]. rewrite length_app. split; lia. }
  match goal with |- context [foldl _ ?st2 children] => destruct (H st2) as [-> ->] end.
  simpl. split; lia.
Qed.

Lemma structure_foldl_counts items :
  ∀ depth st,
    files (foldl (structure_item depth) st items)
    = files st + Z.of_nat (length (file_names items))
    ∧ directories (foldl (structure_item depth) st items) = directories st + count_dirs items.
Proof.
  unfold file_names, count_dirs.
  induction items as [|x l IHl]; intros depth st; simpl; [split; lia|].
  destruct (IHl depth (structure_item depth st x)) as [-> ->].
  destruct (structure_item_counts x depth st) as [-> ->]. rewrite length_app. split; lia.
Qed.

Lemma filelist_walk_files items :
  fe_name <$> List.filter (λ f, negb (fe_isDirectory f)) (filelist_walk items)
  = file_names items.
Proof.
  rewrite filelist_walk_flat. unfold file_names.
  induction items as [|x l IHl]; simpl; [done|].
  by rewrite List.filter_app, fmap_app, IHl, filelist_item_files.
Qed.

Lemma filelist_walk_dirs items :
  Z.of_nat (length (List.filter fe_isDirectory (filelist_walk items))) = count_dirs items.
Proof.
  rewrite filelist_walk_flat. unfold count_dirs.
  induction items as [|x l IHl]; simpl; [done|].
  by rewrite List.filter_app, length_app, Nat2Z.inj_add, filelist_item_dirs, IHl.
Qed.

(** X1. On a workspace that exists, [analyzeStructure] and [getFileList]
    agree: [structure.files] is the number of entries of the file list that
    are not directories, [structure.directories] the number of those that
    are, and the list has one entry for each. *)
Theorem structure_counts_match_the_file_list repoPath s items
    (Hworkspace : disk s !! repoPath = Some items) :
  ∃ st fl,
    analyzeStructure repoPath s = (Returned st, s)
    ∧ getFileList repoPath s = (Returned fl, s)
    ∧ files st = Z.of_nat (length (List.filter (λ f, negb (fe_isDirectory f)) fl))
    ∧ directories st = Z.of_nat (length (List.filter fe_isDirectory fl))
    ∧ Z.of_nat (length fl) = files st + directories st.
Proof.
  exists (structure_walk items), (filelist_walk items).
  split; [by apply analyzeStructure_some|]. split; [by apply getFileList_some|].
  destruct (structure_foldl_counts items 0
              {| directories := 0; files := 0; byType := []; maxDepth := Z.max 0 0 |})
    as [Hfiles Hdirs].
  fold (structure_walk items) in Hfiles, Hdirs. simpl in Hfiles, Hdirs.
  pose proof (f_equal length (filelist_walk_files items)) as Hf.
  rewrite length_fmap in Hf. apply (f_equal Z.of_nat) in Hf.
  pose proof (filelist_walk_dirs items) as Hd.
  rewrite Hf, Hd, Hfiles, Hdirs. split_and!; [done..|].
  rewrite <- Hf, <- Hd.
  rewrite <- (List.filter_length fe_isDirectory (filelist_walk items)). lia.
Qed.

Lemma structure_counts_match_the_file_list_witness :
  ∃ st fl,
    analyzeStructure Worlds.workspace (Worlds.cloned Samples.nested_repo)
      = (Returned st, Worlds.cloned Samples.nested_repo)
    ∧ getFileList Worlds.workspace (Worlds.cloned Samples.nested_repo)
      = (Returned fl, Worlds.cloned Samples.nested_repo)
    ∧ files st = Z.of_nat (length (List.filter (λ f, negb (fe_isDirectory f)) fl))
    ∧ directories st = Z.of_nat (length (List.filter fe_isDirectory fl))
    ∧ Z.of_nat (length fl) = files st + directories st.
Proof.
  apply (structure_counts_match_the_file_list Worlds.workspace
           (Worlds.cloned Samples.nested_repo) Samples.nested_repo).
  reflexivity.
Defined.

(** ** [byType] *)

Lemma assoc_bump (e e' : string) (l : list (string * Z)) :
  assoc e (bump e' l)
  = if String.eqb e e' then Some (default 0 (assoc e l) + 1) else assoc e l.
Proof.
  induction l as [|[k n] rest IH]; simpl.
  - by destruct (String.eqb e e').
  - destruct (String.eqb_spec k e') as [->|Hk]; simpl.
    + by destruct (String.eqb_spec e e') as [->|Hne].
    + destruct (String.eqb_spec e k) as [->|Hne]; [|apply IH].
      by destruct (String.eqb_spec k e').
Qed.

Lemma bump_keys (e : string) (l : list (string * Z)) :
  (bump e l).*1 = if includes e l.*1 then l.*1 else l.*1 ++ [e].
Proof.
  unfold includes. induction l as [|[k n] rest IH]; csimpl; [done|].
  rewrite (String.eqb_sym e k). destruct (String.eqb k e); csimpl; [done|].
  rewrite IH. by destruct (existsb _ _).
Qed.

Lemma bump_NoDup (e : string) (l : list (string * Z)) : NoDup l.*1 → NoDup (bump e l).*1.
Proof.
  intros Hnd. rewrite bump_keys. destruct (includes e l.*1) eqn:Hin; [done|].
  apply NoDup_app. split_and!; [done| |apply NoDup_singleton].
  intros k Hk ->%list_elem_of_singleton.
  apply includes_elem_of in Hk. congruence.
Qed.

Lemma bump_positive (e : string) (l : list (string * Z)) :
  Forall (λ kv, 0 < kv.2) l → Forall (λ kv, 0 < kv.2) (bump e l).
Proof.
  induction 1 as [|[k n] rest Hn Hrest IH]; simpl.
  - by constructor.
  - destruct (String.eqb k e); constructor; simpl in *; [lia|done|done|done].
Qed.

Lemma byType_item item :
  ∀ depth st count,
    counts_ok (byType st) count →
    counts_ok (byType (structure_item depth st item))
              (λ e, count e + files_with e (file_names_item item)).
Proof.
  induction item as [name size content|name children IH] using node_tree_ind;
    intros depth st count (Hnd & Hpos & Hcount); simpl.
  - split_and!; [by apply bump_NoDup|by apply bump_positive|].
    intros e. rewrite assoc_bump, <- Hcount. unfold files_with, extension_of. simpl.
    rewrite (String.eqb_sym _ e). destruct (String.eqb e _); simpl; lia.
  - assert (H : ∀ st' count',
      counts_ok (byType st') count' →
      counts_ok (byType (foldl (structure_item (depth + 1)) st' children))
                (λ e, count' e + files_with e (flat_map file_names_item children))).
    { induction IH as [|x l Hx _ IHl]; intros st' count' Hok; simpl.
      - destruct Hok as (? & ? & Hc). split_and!; [done..|].
        intros e. rewrite Hc. unfold files_with. simpl. lia.
      - apply (Hx (depth + 1)) in Hok. apply IHl in Hok.
        destruct Hok as (? & ? & Hc). split_and!; [done..|].
        intros e. rewrite Hc. unfold files_with.
        rewrite List.filter_app, length_app. lia. }
    by apply H.
Qed.

Lemma byType_walk items :
  counts_ok (byType (structure_walk items)) (λ e, files_with e (file_names items)).
Proof.
  unfold structure_walk, file_names.
  assert (H : ∀ st count,
    counts_ok (byType st) count →
    counts_ok (byType (foldl (structure_item 0) st items))
              (λ e, count e + files_with e (flat_map file_names_item items))).
  { induction items as [|x l IHl]; intros st count Hok; simpl.
    - destruct Hok as (? & ? & Hc). split_and!; [done..|].
      intros e. rewrite Hc. unfold files_with. simpl. lia.
    - apply (byType_item x 0) in Hok. apply IHl in Hok.
      destruct Hok as (? & ? & Hc). split_and!; [done..|].
      intros e. rewrite Hc. unfold files_with.
      rewrite List.filter_app, length_app. lia. }
  destruct (H {| directories := 0; files := 0; byType := []; maxDepth := Z.max 0 0 |}
              (λ _, 0)) as (? & ? & Hc).
  { split_and!; [constructor|constructor|done]. }
  by split_and!.
Qed.

Lemma assoc_elem_of {A} (k : string) (l : list (string * A)) (v : A) :
  assoc k l = Some v → (k, v) ∈ l.
Proof.
  induction l as [|[k' v'] rest IH]; simpl; [done|].
  destruct (String.eqb_spec k k') as [->|Hne].
  - intros [= ->]. apply elem_of_cons. by left.
  - intros H. apply elem_of_cons. right. by apply IH.
Qed.

(** X2. On a workspace that exists, [structure.files] is the number of files
    at any depth, and [structure.byType] lists no extension twice and maps
    each lower-cased extension to the number of files that carry it: an
    extension no file carries is not a key. *)
Theorem byType_counts_files_by_extension repoPath s items
    (Hworkspace : disk s !! repoPath = Some items) :
  ∃ st,
    analyzeStructure repoPath s = (Returned st, s)
    ∧ files st = Z.of_nat (length (file_names items))
    ∧ NoDup (byType st).*1
    ∧ ∀ e, assoc e (byType st)
           = (let n := files_with e (file_names items) in if n =? 0 then None else Some n).
Proof.
  exists (structure_walk items). split; [by apply analyzeStructure_some|].
  split.
  { destruct (structure_foldl_counts items 0
                {| directories := 0; files := 0; byType := []; maxDepth := Z.max 0 0 |})
      as [Hfiles _].
    by rewrite Z.add_0_l in Hfiles. }
  destruct (byType_walk items) as (Hnd & Hpos & Hcount). split; [done|].
  intros e. cbv zeta. rewrite <- Hcount.
  destruct (assoc e (byType (structure_walk items))) as [n|] eqn:He; simpl; [|done].
  apply assoc_elem_of in He. rewrite Forall_forall in Hpos. apply Hpos in He. simpl in He.
  destruct (Z.eqb_spec n 0); [lia|done].
Qed.

Lemma byType_counts_files_by_extension_witness :
  ∃ st,
    analyzeStructure Worlds.workspace (Worlds.cloned Samples.nested_repo)
      = (Returned st, Worlds.cloned Samples.nested_repo)
    ∧ files st = Z.of_nat (length (file_names Samples.nested_repo))
    ∧ NoDup (byType st).*1
    ∧ ∀ e, assoc e (byType st)
           = (let n := files_with e (file_names Samples.nested_repo) in
              if n =? 0 then None else Some n).
Proof.
  apply (byType_counts_files_by_extension Worlds.workspace
           (Worlds.cloned Samples.nested_repo) Samples.nested_repo).
  reflexivity.
Defined.

(** ** [maxDepth] *)

Lemma depth_foldr_nonneg (children : list node) :
  0 ≤ foldr (λ child d, Z.max (depth_item child) d) 0 children.
Proof. induction children; simpl; lia. Qed.

Lemma maxDepth_item item :
  ∀ depth st,
    depth ≤ maxDepth st →
    maxDepth (structure_item depth st item) = Z.max (maxDepth st) (depth + depth_item item).
Proof.
  induction item as [name size content|name children IH] using node_tree_ind;
    intros depth st Hle; simpl; [lia|].
  assert (H : ∀ st',
    depth + 1 ≤ maxDepth st' →
    maxDepth (foldl (structure_item (depth + 1)) st' children)
    = Z.max (maxDepth st')
            (depth + 1 + foldr (λ child d, Z.max (depth_item child) d) 0 children)).
  { induction IH as [|x l Hx _ IHl]; intros st' Hle'; simpl; [lia|].
    rewrite IHl; rewrite (Hx (depth + 1) st' Hle'); lia. }
  pose proof (depth_foldr_nonneg children). rewrite H; simpl; lia.
Qed.

Lemma maxDepth_walk items : maxDepth (structure_walk items) = tree_depth items.
Proof.
  unfold structure_walk, tree_depth.
  assert (H : ∀ st,
    0 ≤ maxDepth st →
    maxDepth (foldl (structure_item 0) st items)
    = Z.max (maxDepth st) (foldr (λ child d, Z.max (depth_item child) d) 0 items)).
  { induction items as [|x l IHl]; intros st Hle; simpl; [lia|].
    rewrite IHl; rewrite (maxDepth_item x 0 st Hle); lia. }
  pose proof (depth_foldr_nonneg items). rewrite H; simpl; lia.
Qed.

(** X3. On a workspace that exists, [structure.maxDepth] is the number of
    directories on the longest chain of nested directories: 0 when the root
    holds only files, and one more for every level of directories below it,
    empty directories included. *)
Theorem maxDepth_is_the_deepest_nesting repoPath s items
    (Hworkspace : disk s !! repoPath = Some items) :
  ∃ st,
    analyzeStructure repoPath s = (Returned st, s)
    ∧ maxDepth st = tree_depth items
    ∧ (maxDepth st = 0 ↔ directories st = 0).
Proof.
  exists (structure_walk items). split; [by apply analyzeStructure_some|].
  split; [apply maxDepth_walk|]. rewrite maxDepth_walk.
  destruct (structure_foldl_counts items 0
              {| directories := 0; files := 0; byType := []; maxDepth := Z.max 0 0 |})
    as [_ Hdirs].
  fold (structure_walk items) in Hdirs. rewrite Hdirs. simpl.
  unfold tree_depth, count_dirs. clear.
  assert (Hitem : ∀ item, (0 ≤ depth_item item ∧ 0 ≤ count_dirs_item item)
                          ∧ (depth_item item = 0 ↔ count_dirs_item item = 0)).
  { induction item as [name size content|name children IH] using node_tree_ind; simpl;
      [lia|].
    assert (0 ≤ foldr (λ child d, Z.max (depth_item child) d) 0 children
            ∧ 0 ≤ foldr (λ child n, count_dirs_item child + n) 0 children); [|lia].
    induction IH as [|x l Hx _ IHl]; simpl; lia. }
  induction items as [|x l IHl]; simpl; [done|].
  pose proof (Hitem x).
  assert (0 ≤ foldr (λ child d, Z.max (depth_item child) d) 0 l
          ∧ 0 ≤ foldr (λ child n, count_dirs_item child + n) 0 l); [|lia].
  clear IHl. induction l as [|y l' IHl']; simpl; [lia|]. pose proof (Hitem y). lia.
Qed.

Lemma maxDepth_is_the_deepest_nesting_witness :
  ∃ st,
    analyzeStructure Worlds.workspace (Worlds.cloned Samples.nested_repo)
      = (Returned st, Worlds.cloned Samples.nested_repo)
    ∧ maxDepth st = tree_depth Samples.nested_repo
    ∧ (maxDepth st = 0 ↔ directories st = 0).
Proof.
  apply (maxDepth_is_the_deepest_nesting Worlds.workspace
           (Worlds.cloned Samples.nested_repo) Samples.nested_repo).
  reflexivity.
Defined.

(** ** [detectLanguages] *)

Lemma set_add_elem_of (x y : string) (l : list string) : x ∈ set_add y l ↔ x ∈ l ∨ x = y.
Proof.
  unfold set_add. destruct (includes y l) eqn:Hin.
  - apply includes_elem_of in Hin. split; [by left|]. by intros [?| ->].
  - rewrite elem_of_app, list_elem_of_singleton. done.
Qed.

Lemma set_add_NoDup (y : string) (l : list string) : NoDup l → NoDup (set_add y l).
Proof.
  intros Hnd. unfold set_add. destruct (includes y l) eqn:Hin; [done|].
  apply NoDup_app. split_and!; [done| |apply NoDup_singleton].
  intros x Hx ->%list_elem_of_singleton. apply includes_elem_of in Hx. congruence.
Qed.

Lemma languages_item_spec item :
  ∀ languages,
    NoDup languages →
    NoDup (languages_item languages item)
    ∧ ∀ lang, lang ∈ languages_item languages item
              ↔ lang ∈ languages
                ∨ ∃ name, name ∈ file_names_item item ∧ speaks lang name.
Proof.
  induction item as [name size content|name children IH] using node_tree_ind;
    intros languages Hnd; [cbn [languages_item file_names_item]|simpl].
  - destruct (assoc (toLowerCase (extname name)) extensions) as [l|] eqn:Hl.
    + split; [by apply set_add_NoDup|]. intros lang. rewrite set_add_elem_of.
      split; intros [?|H]; [by left| |by left|].
      * subst. right. exists name. split; [apply list_elem_of_singleton; done|done].
      * destruct H as (n & ->%list_elem_of_singleton & Hn). right.
        unfold speaks in Hn. congruence.
    + split; [done|]. intros lang. split; [by left|]. intros [?|H]; [done|].
      destruct H as (n & ->%list_elem_of_singleton & Hn). unfold speaks in Hn. congruence.
  - revert languages Hnd. induction IH as [|x l Hx _ IHl]; intros languages Hnd; simpl.
    + split; [done|]. intros lang. split; [by left|]. intros [?|(n & Hn & _)]; [done|].
      by apply elem_of_nil in Hn.
    + destruct (Hx languages Hnd) as [Hnd1 Hin1].
      destruct (IHl (languages_item languages x) Hnd1) as [Hnd2 Hin2].
      split; [done|]. intros lang. rewrite Hin2, Hin1. setoid_rewrite elem_of_app.
      clear; firstorder.
Qed.

(** X4. On a workspace that exists, [detectLanguages] lists no language
    twice, and lists a language exactly when some file, at any depth, has an
    extension that the table maps to it once lower-cased. *)
Theorem languages_are_those_of_the_files repoPath s items
    (Hworkspace : disk s !! repoPath = Some items) :
  ∃ languages,
    detectLanguages repoPath s = (Returned languages, s)
    ∧ NoDup languages
    ∧ ∀ lang, lang ∈ languages
              ↔ ∃ name, name ∈ file_names items
                        ∧ assoc (toLowerCase (extname name)) extensions = Some lang.
Proof.
  exists (languages_walk items). split; [by apply detectLanguages_some|].
  unfold languages_walk, file_names.
  assert (H : ∀ languages,
    NoDup languages →
    NoDup (foldl languages_item languages items)
    ∧ ∀ lang, lang ∈ foldl languages_item languages items
              ↔ lang ∈ languages
                ∨ ∃ name, name ∈ flat_map file_names_item items ∧ speaks lang name).
  { clear. induction items as [|x l IHl]; intros languages Hnd; simpl.
    - split; [done|]. intros lang. split; [by left|]. intros [?|(n & Hn & _)]; [done|].
      by apply elem_of_nil in Hn.
    - destruct (languages_item_spec x languages Hnd) as [Hnd1 Hin1].
      destruct (IHl (languages_item languages x) Hnd1) as [Hnd2 Hin2].
      split; [done|]. intros lang. rewrite Hin2, Hin1. setoid_rewrite elem_of_app.
      clear; firstorder. }
  destruct (H [] (NoDup_nil_2)) as [Hnd Hin]. split; [done|].
  intros lang. rewrite Hin. split; [|by right]. intros [Hnil|?]; [|done].
  by apply elem_of_nil in Hnil.
Qed.

Lemma languages_are_those_of_the_files_witness :
  ∃ languages,
    detectLanguages Worlds.workspace (Worlds.cloned Samples.nested_repo)
      = (Returned languages, Worlds.cloned Samples.nested_repo)
    ∧ NoDup languages
    ∧ ∀ lang, lang ∈ languages
              ↔ ∃ name, name ∈ file_names Samples.nested_repo
                        ∧ assoc (toLowerCase (extname name)) extensions = Some lang.
Proof.
  apply (languages_are_those_of_the_files Worlds.workspace
           (Worlds.cloned Samples.nested_repo) Samples.nested_repo).
  reflexivity.
Defined.

(** ** [findConfigFiles] *)

Lemma config_item_entries item :
  ∀ rel configFiles,
    config_item rel configFiles item
    = configFiles ++ omap config_of_entry (filelist_item rel [] item).
Proof.
  induction item as [name size content|name children IH] using node_tree_ind;
    intros rel configFiles.
  - with_strategy opaque [includes] (simpl; unfold config_of_entry; simpl).
    destruct (includes name config_patterns); [done|by rewrite app_nil_r].
  - rewrite filelist_Dir. simpl. unfold config_of_entry at 1. simpl.
    generalize (path_join rel name). intros rel'. revert configFiles.
    induction IH as [|x l Hx _ IHl]; intros configFiles; simpl; [by rewrite app_nil_r|].
    by rewrite IHl, Hx, omap_app, app_assoc.
Qed.

(** X5. On a workspace that exists, the records of [findConfigFiles] are, in
    the same order and with the same path and size, the entries of
    [getFileList] that are files whose name is one of the listed
    configuration file names; a directory with such a name is not recorded,
    a file with such a name in a subdirectory is. *)
Theorem config_files_are_entries_of_the_file_list repoPath s items
    (Hworkspace : disk s !! repoPath = Some items) :
  ∃ configFiles fl,
    findConfigFiles repoPath s = (Returned configFiles, s)
    ∧ getFileList repoPath s = (Returned fl, s)
    ∧ configFiles = omap config_of_entry fl.
Proof.
  exists (config_walk items), (filelist_walk items).
  split; [by apply findConfigFiles_some|]. split; [by apply getFileList_some|].
  rewrite filelist_walk_flat. unfold config_walk.
  assert (H : ∀ configFiles,
    foldl (config_item "") configFiles items
    = configFiles ++ omap config_of_entry (flat_map (filelist_item "" []) items)).
  { clear. induction items as [|x l IHl]; intros configFiles; simpl; [by rewrite app_nil_r|].
    by rewrite IHl, config_item_entries, omap_app, app_assoc. }
  by rewrite H.
Qed.

Lemma config_files_are_entries_of_the_file_list_witness :
  ∃ configFiles fl,
    findConfigFiles Worlds.workspace (Worlds.cloned Samples.nested_repo)
      = (Returned configFiles, Worlds.cloned Samples.nested_repo)
    ∧ getFileList Worlds.workspace (Worlds.cloned Samples.nested_repo)
      = (Returned fl, Worlds.cloned Samples.nested_repo)
    ∧ configFiles = omap config_of_entry fl.
Proof.
  apply (config_files_are_entries_of_the_file_list Worlds.workspace
           (Worlds.cloned Samples.nested_repo) Samples.nested_repo).
  reflexivity.
Defined.

(** ** [calculateMetrics] *)

Lemma sum_of_lines_app fs gs : sum_of_lines (fs ++ gs) = sum_of_lines fs + sum_of_lines gs.
Proof. unfold sum_of_lines. induction fs as [|f fs IH]; simpl; lia. Qed.

Lemma sum_of_lines_nonneg fs : Forall (λ f : string * Z, 1 ≤ f.2) fs → 0 ≤ sum_of_lines fs.
Proof. unfold sum_of_lines. induction 1; simpl; lia. Qed.

Lemma metrics_item_totals item :
  ∀ rel metrics,
    totalFiles (metrics_item rel metrics item)
    = totalFiles metrics + Z.of_nat (length (List.filter isTextFile (file_names_item item)))
    ∧ totalLines (metrics_item rel metrics item)
      = totalLines metrics + sum_of_lines (readable_item rel item).
Proof.
  induction item as [name size content|name children IH] using node_tree_ind;
    intros rel metrics.
  - with_strategy opaque [isTextFile] simpl.
    destruct (isTextFile name), content as [text|]; simpl; try (split; lia).
    destruct (_ <? _); simpl; split; lia.
  - simpl. generalize (path_join rel name). intros rel'. revert metrics.
    induction IH as [|x l Hx _ IHl]; intros metrics; simpl; [split; lia|].
    destruct (IHl (metrics_item rel' metrics x)) as [-> ->].
    destruct (Hx rel' metrics) as [-> ->].
    rewrite List.filter_app, length_app, sum_of_lines_app. split; lia.
Qed.

Lemma metrics_foldl_totals items :
  ∀ rel metrics,
    totalFiles (foldl (metrics_item rel) metrics items)
    = totalFiles metrics + Z.of_nat (length (List.filter isTextFile (file_names items)))
    ∧ totalLines (foldl (metrics_item rel) metrics items)
      = totalLines metrics + sum_of_lines (flat_map (readable_item rel) items).
Proof.
  unfold file_names. induction items as [|x l IHl]; intros rel metrics; simpl; [split; lia|].
  destruct (IHl rel (metrics_item rel metrics x)) as [-> ->].
  destruct (metrics_item_totals x rel metrics) as [-> ->].
  rewrite List.filter_app, length_app, sum_of_lines_app. split; lia.
Qed.

Lemma metrics_item_avg item :
  ∀ rel metrics, avgLinesPerFile (metrics_item rel metrics item) = avgLinesPerFile metrics.
Proof.
  induction item as [name size content|name children IH] using node_tree_ind;
    intros rel metrics.
  - with_strategy opaque [isTextFile] simpl.
    destruct (isTextFile name), content as [text|]; simpl; try done.
    by destruct (_ <? _).
  - simpl. generalize (path_join rel name). intros rel'. revert metrics.
    induction IH as [|x l Hx _ IHl]; intros metrics; simpl; [done|].
    by rewrite IHl, Hx.
Qed.

Lemma metrics_foldl_avg items :
  ∀ rel metrics,
    avgLinesPerFile (foldl (metrics_item rel) metrics items) = avgLinesPerFile metrics.
Proof.
  induction items as [|x l IHl]; intros rel metrics; simpl; [done|].
  by rewrite IHl, metrics_item_avg.
Qed.

Lemma pick_below_the_sum fs :
  Forall (λ f : string * Z, 1 ≤ f.2) fs →
  ∀ largest,
    0 ≤ lf_lines largest →
    0 ≤ lf_lines (foldl pick largest fs)
    ∧ lf_lines (foldl pick largest fs) ≤ Z.max (lf_lines largest) (sum_of_lines fs).
Proof.
  induction 1 as [|[p n] fs Hn Hfs IH]; intros largest Hle; simpl; [lia|].
  pose proof (sum_of_lines_nonneg _ Hfs).
  simpl in Hn. unfold pick at 2 4. simpl. destruct (lf_lines largest <? n) eqn:Hlt.
  - destruct (IH {| lf_name := p; lf_lines := n |}) as [? ?]; simpl in *; [lia|].
    unfold sum_of_lines in *. simpl. lia.
  - apply Z.ltb_ge in Hlt. destruct (IH largest Hle) as [? ?].
    unfold sum_of_lines in *. simpl. lia.
Qed.

(** X6. On a workspace that exists, [calculateMetrics] counts in
    [totalFiles] every file whose extension is not a binary one, whether or
    not it can be read, and adds to [totalLines] the lines of those that can
    be read; the largest file has at most [totalLines] lines, and
    [avgLinesPerFile] is the rounded quotient of the two totals, 0 when there
    is no such file. *)
Theorem metrics_total_the_text_files repoPath s items
    (Hworkspace : disk s !! repoPath = Some items) :
  ∃ metrics,
    calculateMetrics repoPath s = (Returned metrics, s)
    ∧ totalFiles metrics = Z.of_nat (length (List.filter isTextFile (file_names items)))
    ∧ totalLines metrics = sum_of_lines (readable_text_files items)
    ∧ 0 ≤ lf_lines (largestFile metrics) ≤ totalLines metrics
    ∧ avgLinesPerFile metrics
      = if totalFiles metrics =? 0 then 0
        else Math_round_div (totalLines metrics) (totalFiles metrics).
Proof.
  exists (metrics_walk items). split; [by apply calculateMetrics_some|].
  destruct (metrics_foldl_totals items "" metrics_init) as [Hfiles Hlines].
  simpl in Hfiles, Hlines. fold (readable_text_files items) in Hlines.
  assert (Hlargest : largestFile (metrics_walk items)
                     = foldl pick (largestFile metrics_init) (readable_text_files items)).
  { unfold metrics_walk, readable_text_files. cbv zeta. rewrite <- largestFile_walk.
    by destruct (0 <? totalFiles _). }
  destruct (pick_below_the_sum _ (readable_text_files_pos items) (largestFile metrics_init))
    as [Hlo Hhi]; [done|].
  rewrite <- Hlargest in Hlo, Hhi. simpl in Hhi.
  pose proof (sum_of_lines_nonneg _ (readable_text_files_pos items)).
  rewrite Z.add_0_l in Hfiles, Hlines.
  set (n := Z.of_nat (length (List.filter isTextFile (file_names items)))) in *.
  set (lf := lf_lines (largestFile (metrics_walk items))) in *.
  assert (Hlf : lf = lf_lines (largestFile (foldl (metrics_item "") metrics_init items))).
  { unfold lf, metrics_walk. cbv zeta. by destruct (0 <? totalFiles _). }
  pose proof (metrics_foldl_avg items "" metrics_init) as Havg. simpl in Havg.
  clearbody lf. unfold metrics_walk. cbv zeta. rewrite Hfiles.
  destruct (Z.ltb_spec 0 n), (Z.eqb_spec n 0); try lia; simpl;
    rewrite ?Hfiles, ?Hlines, ?Havg.
  - destruct (Z.eqb_spec n 0); [lia|]. split_and!; [done|done|lia|lia|done].
  - destruct (Z.eqb_spec n 0); [|lia]. split_and!; [done|done|lia|lia|done].
Qed.

Lemma metrics_total_the_text_files_witness :
  ∃ metrics,
    calculateMetrics Worlds.workspace (Worlds.cloned Samples.nested_repo)
      = (Returned metrics, Worlds.cloned Samples.nested_repo)
    ∧ totalFiles metrics
      = Z.of_nat (length (List.filter isTextFile (file_names Samples.nested_repo)))
    ∧ totalLines metrics = sum_of_lines (readable_text_files Samples.nested_repo)
    ∧ 0 ≤ lf_lines (largestFile metrics) ≤ totalLines metrics
    ∧ avgLinesPerFile metrics
      = if totalFiles metrics =? 0 then 0
        else Math_round_div (totalLines metrics) (totalFiles metrics).
Proof.
  apply (metrics_total_the_text_files Worlds.workspace
           (Worlds.cloned Samples.nested_repo) Samples.nested_repo).
  reflexivity.
Defined.

(** * Repository urls and manifests *)

(** ** Strings *)

Lemma append_nil (b : string) : "" +:+ b = b.
Proof. done. Qed.

Lemma append_String (c : ascii) (a b : string) : String c a +:+ b = String c (a +:+ b).
Proof. done. Qed.

Lemma append_nil_r (a : string) : a +:+ "" = a.
Proof. induction a as [|c a IH]; [done|]. by rewrite append_String, IH. Qed.

Lemma append_assoc (a b c : string) : (a +:+ b) +:+ c = a +:+ (b +:+ c).
Proof. induction a as [|x a IH]; [done|]. by rewrite !append_String, IH. Qed.

Lemma length_append (a b : string) :
  String.length (a +:+ b) = (String.length a + String.length b)%nat.
Proof. induction a as [|x a IH]; [done|]. rewrite append_String. simpl. by rewrite IH. Qed.

Lemma occurs_append (c : ascii) (a b : string) :
  occurs c (a +:+ b) = occurs c a || occurs c b.
Proof.
  induction a as [|x a IH]; [done|]. rewrite append_String. simpl. by rewrite IH, orb_assoc.
Qed.

Lemma span_all (p : ascii → bool) (a b : string) :
  all_chars p a = true → head_is p b = false → span p (a +:+ b) = (a, b).
Proof.
  intros Ha Hb. induction a as [|c a IH].
  - rewrite append_nil. destruct b as [|c b]; [done|]. simpl in *. by rewrite Hb.
  - rewrite append_String. simpl in *. apply andb_prop in Ha as [-> Ha]. by rewrite (IH Ha).
Qed.

Lemma span_spec (p : ascii → bool) (s a b : string) :
  span p s = (a, b) → s = a +:+ b ∧ all_chars p a = true ∧ head_is p b = false.
Proof.
  revert a b. induction s as [|c s IH]; intros a b; simpl.
  - by intros [= <- <-].
  - destruct (p c) eqn:Hc.
    + destruct (span p s) as [a' b'] eqn:Hs. intros [= <- <-].
      destruct (IH a' b' eq_refl) as (-> & Ha & Hb). rewrite append_String. simpl.
      by rewrite Hc, Ha.
    + intros [= <- <-]. rewrite append_nil. simpl. by rewrite Hc.
Qed.

(** ** [parseRepoUrl] *)

Lemma all_not_slash (s : string) : occurs "/" s = false → all_chars not_slash s = true.
Proof.
  induction s as [|c s IH]; simpl; [done|]. unfold not_slash at 1.
  intros [-> Hs]%orb_false_elim. simpl. by apply IH.
Qed.

Lemma match_owner_repo_spec (o r : string) :
  o ≠ "" → r ≠ "" → occurs "/" o = false → occurs "/" r = false →
  match_owner_repo (o +:+ "/" +:+ r) = Some (o, r).
Proof.
  intros Ho Hr Hos Hrs. unfold match_owner_repo.
  rewrite (span_all not_slash o ("/" +:+ r)); [|by apply all_not_slash|done].
  destruct o as [|c o]; [done|]. rewrite append_String, append_nil.
  rewrite <- (append_nil_r r) at 1.
  rewrite (span_all not_slash r ""); [|by apply all_not_slash|done].
  by destruct r.
Qed.

Lemma strip_git_suffix_app (r : string) : strip_git_suffix (r +:+ ".git") = r.
Proof.
  induction r as [|c r IH]; [done|]. rewrite append_String.
  change (strip_git_suffix (String c (r +:+ ".git")))
    with (if String.eqb (String c (r +:+ ".git")) ".git" then ""
          else String c (strip_git_suffix (r +:+ ".git"))).
  rewrite IH. destruct (String.eqb_spec (String c (r +:+ ".git")) ".git") as [Heq|]; [|done].
  apply (f_equal String.length) in Heq. simpl in Heq. rewrite length_append in Heq.
  simpl in Heq. lia.
Qed.

(** X7. The clone url of a GitHub repository,
    [https://github.com/<owner>/<repo>.git] with an owner and a repository
    name that are not empty and hold no slash, is parsed into the platform
    [github], that owner and that name without the [.git] suffix (one suffix
    is removed: a name that itself ends in [.git] keeps its own); the url is
    kept as it was given. *)
Theorem github_clone_url_is_parsed (o r : string)
    (Howner : o ≠ "") (Hrepo : r ≠ "")
    (Howner_slash : occurs "/" o = false) (Hrepo_slash : occurs "/" r = false) :
  parseRepoUrl ("https://github.com/" +:+ o +:+ "/" +:+ r +:+ ".git")
  = {| platform := "github"; owner := Some o; repo := Some r;
       ri_url := "https://github.com/" +:+ o +:+ "/" +:+ r +:+ ".git" |}.
Proof.
  unfold parseRepoUrl, patterns_hosts, parseRepoUrl_from.
  assert (Hm : match_host "github.com/" ("https://github.com/" +:+ o +:+ "/" +:+ r +:+ ".git")
               = Some (o, r +:+ ".git")).
  { rewrite !append_String, !append_nil. simpl.
    change (String "/" (r +:+ ".git")) with ("/" +:+ r +:+ ".git").
    rewrite match_owner_repo_spec; [done|done| |done|].
    - by destruct r.
    - by rewrite occurs_append, Hrepo_slash. }
  rewrite Hm. by rewrite strip_git_suffix_app.
Qed.

Lemma github_clone_url_is_parsed_witness :
  parseRepoUrl Worlds.url0
  = {| platform := "github"; owner := Some "acme"; repo := Some "widgets";
       ri_url := Worlds.url0 |}.
Proof. apply (github_clone_url_is_parsed "acme" "widgets"); done. Defined.

(** ** The two manifests *)

Lemma strip_prefix_spec (pre s rest : string) :
  strip_prefix pre s = Some rest ↔ s = pre +:+ rest.
Proof.
  revert s. induction pre as [|a pre IH]; intros s; simpl.
  - rewrite append_nil. split; [by intros [= ->]|by intros ->].
  - destruct s as [|b s]; [done|]. rewrite append_String.
    destruct (Ascii.eqb_spec a b) as [->|Hne].
    + rewrite IH. split; [by intros ->|by intros [= ->]].
    + split; [done|]. intros [= -> ->]. done.
Qed.

(** X8. A line of [requirements.txt] gives a dependency record exactly when
    it starts with a name made of letters, digits, [_] and [-], followed by
    [==] and a version made of digits and dots, both non-empty; the record
    holds that name and the longest such version, with type [runtime] and
    manager [pip], and whatever follows the version is ignored. Lines with
    another specifier ([>=], [~=], no version at all) give no record. *)
Theorem requirement_line_is_an_exact_pin (line : string) (d : DependencyRecord) :
  pip_record line = Some d ↔
  ∃ rest,
    line = d_name d +:+ "==" +:+ d_version d +:+ rest
    ∧ d_name d ≠ "" ∧ all_chars name_char (d_name d) = true
    ∧ d_version d ≠ "" ∧ all_chars version_char (d_version d) = true
    ∧ head_is version_char rest = false
    ∧ d_type d = "runtime" ∧ d_manager d = "pip".
Proof.
  unfold pip_record, match_requirement. split.
  - destruct (span name_char line) as [name rest] eqn:Hname.
    apply span_spec in Hname as (-> & Hn & _).
    destruct name as [|c name]; [done|].
    destruct (strip_prefix "==" rest) as [rest'|] eqn:Hrest; [|done].
    apply strip_prefix_spec in Hrest as ->.
    destruct (span version_char rest') as [version rest''] eqn:Hversion.
    apply span_spec in Hversion as (-> & Hv & Hr).
    destruct version as [|c' version]; [done|]. intros [= <-]. simpl.
    exists rest''. by split_and!.
  - intros (rest & -> & Hn & Hnc & Hv & Hvc & Hr & Ht & Hm).
    rewrite (span_all name_char (d_name d)); [|done|done].
    destruct (d_name d) as [|c name] eqn:Hname; [done|].
    assert (Hstrip : strip_prefix "==" ("==" +:+ d_version d +:+ rest)
                     = Some (d_version d +:+ rest)) by (by apply strip_prefix_spec).
    rewrite Hstrip. rewrite (span_all version_char (d_version d)); [|done|done].
    destruct (d_version d) as [|c' version] eqn:Hversion; [done|].
    destruct d; simpl in *. by subst.
Qed.

Lemma npm_records_bad_entry (entries : list (string * json)) (dep : string) (v : json) :
  (dep, v) ∈ entries → (∀ str, v ≠ JStr str) →
  ∃ what, npm_records entries = inl (TypeError what).
Proof.
  intros Hin Hv. induction entries as [|[k x] rest IH]; [by apply elem_of_nil in Hin|].
  simpl. destruct x; try by eexists.
  apply elem_of_cons in Hin as [[= -> ->]|Hin]; [by destruct (Hv s)|].
  destruct (IH Hin) as [what ->]. by eexists.
Qed.

(** X9. When [package.json] parses to an object whose [dependencies] is an
    object with an entry whose value is not a string (a number, [null], a
    nested object), [analyzeDependencies] throws a [TypeError] and returns no
    records at all: the entries before it are lost and [requirements.txt] is
    not read. *)
Theorem non_string_version_fails_the_extraction
    E repoPath s items name size text fields entries dep v
    (Hworkspace : disk s !! repoPath = Some items)
    (Hfile : find_entry "package.json" items = Some (File name size (Some text)))
    (Hparse : JSON_parse E text = Some (JObj fields))
    (Hdependencies : assoc "dependencies" fields = Some (JObj entries))
    (Hentry : (dep, v) ∈ entries)
    (Hversion : ∀ str, v ≠ JStr str) :
  ∃ what, analyzeDependencies E repoPath s = (Threw (TypeError what), s).
Proof.
  rewrite (analyzeDependencies_records E repoPath s items Hworkspace).
  unfold manifest_records, manifest_text. rewrite Hfile, Hparse.
  unfold npm_dependencies, prop. rewrite Hdependencies. simpl.
  destruct (npm_records_bad_entry entries dep v Hentry Hversion) as [what ->].
  by exists what.
Qed.

Lemma non_string_version_fails_the_extraction_witness :
  let W := Worlds.world (Worlds.git_serves Samples.numeric_version) false AIMalformed in
  ∃ what,
    analyzeDependencies W Worlds.workspace (Worlds.cloned Samples.numeric_version)
    = (Threw (TypeError what), Worlds.cloned Samples.numeric_version).
Proof.
  intros W.
  eapply (non_string_version_fails_the_extraction W Worlds.workspace
            (Worlds.cloned Samples.numeric_version) Samples.numeric_version
            "package.json" 48 _ _ _ "left-pad" (JNum 1)).
  - reflexivity.
  - reflexivity.
  - vm_compute. reflexivity.
  - reflexivity.
  - apply elem_of_cons. right. apply elem_of_cons. by left.
  - done.
Defined.

(** ** [validateRepository] *)

(** X10. [validateRepository] never throws. For a url that is not a GitHub
    url it answers [true] only after a clone has succeeded, and then asks
    once for the removal of the workspace; it answers [false] after both
    clone commands have failed, and then the workspace it created is still on
    disk and no removal has been asked for. *)
Theorem failed_validation_leaves_its_workspace E octokit_repos_get url s
    (Hplatform : platform (parseRepoUrl url) ≠ "github") :
  let run := validateRepository E octokit_repos_get url s in
  (∀ e, run.1 ≠ Threw e)
  ∧ (run.1 = Returned true → rmLog run.2 = rmLog s ++ [workspace_path E])
  ∧ (run.1 = Returned false →
     rmLog run.2 = rmLog s
     ∧ is_Some (disk run.2 !! workspace_path E)
     ∧ ∃ first second, execLog run.2 = execLog s ++ [first; second]).
Proof.
  cbv zeta. destruct (validateRepository E octokit_repos_get url s) as [o s'] eqn:Hrun.
  simpl. revert Hrun. unfold validateRepository, try_catch.
  destruct (String.eqb_spec (platform (parseRepoUrl url)) "github") as [|_]; [done|].
  unfold bind at 1. rewrite cloneRepository_unfold. cbv zeta.
  assert (Hrm : rmLog (after_mkdir E s) = rmLog s).
  { unfold after_mkdir. by destruct (disk s !! workspace_path E). }
  assert (Hexec : execLog (after_mkdir E s) = execLog s).
  { unfold after_mkdir. by destruct (disk s !! workspace_path E). }
  pose proof (after_mkdir_exists E s) as Hdir.
  set (first := cloneCmd 1 "main" url (workspace_path E)).
  set (second := fallbackCmd 1 url (workspace_path E)).
  assert (Hclean : ∀ s1, ∃ s2,
    bind (cleanupTempDir E (workspace_path E)) (λ _, ret true) s1 = (Returned true, s2)
    ∧ rmLog s2 = rmLog s1 ++ [workspace_path E]).
  { intros s1. unfold bind, cleanupTempDir, try_catch, rmSync, ret.
    destruct (rmSync_fails E (workspace_path E)); by eexists. }
  destruct (shell E first (disk (after_mkdir E s))) as [d| |] eqn:Hfirst.
  - destruct (Hclean (set_disk d (log_exec first (after_mkdir E s)))) as (s2 & -> & Hlog).
    intros [= <- <-]. split_and!; [done| |done]. intros _. by rewrite Hlog, <- Hrm.
  - destruct (shell E second (disk (log_exec first (after_mkdir E s)))) as [d| |] eqn:Hsecond.
    + destruct (Hclean (set_disk d (log_exec second (log_exec first (after_mkdir E s)))))
        as (s2 & -> & Hlog).
      intros [= <- <-]. split_and!; [done| |done]. intros _. by rewrite Hlog, <- Hrm.
    + intros [= <- <-]. split_and!; [done|done|]. intros _. split_and!; [done|done|].
      exists first, second. simpl. by rewrite Hexec, <- app_assoc.
    + intros [= <- <-]. by split_and!.
  - intros [= <- <-]. by split_and!.
Qed.

Lemma failed_validation_leaves_its_workspace_witness :
  let W := Worlds.world Worlds.git_unreachable false AIMalformed in
  let run := validateRepository W (λ _ _, Resolved) "https://example.org/team/site.git"
                                Worlds.s0 in
  platform (parseRepoUrl "https://example.org/team/site.git") ≠ "github"
  ∧ run.1 = Returned false
  ∧ (∀ e, run.1 ≠ Threw e)
  ∧ (run.1 = Returned true → rmLog run.2 = rmLog Worlds.s0 ++ [workspace_path W])
  ∧ (run.1 = Returned false →
     rmLog run.2 = rmLog Worlds.s0
     ∧ is_Some (disk run.2 !! workspace_path W)
     ∧ ∃ first second, execLog run.2 = execLog Worlds.s0 ++ [first; second]).
Proof.
  intros W run. split; [by vm_compute|]. split; [by vm_compute|].
  apply (failed_validation_leaves_its_workspace W (λ _ _, Resolved)
           "https://example.org/team/site.git" Worlds.s0).
  by vm_compute.
Defined.

(** * The controller on stored analyses *)

(** ** [calculateQualityScore] *)

Lemma count_of_listed (k : string) (fields : list (string * json)) (items : list json) :
  listed k (JObj fields) = Some items →
  ∃ x, member k (JObj fields) = inr x
       ∧ AnalyzeController.count_of x = Some (Z.of_nat (length items)).
Proof.
  unfold listed, prop, member. intros H. exists (assoc k fields). split; [done|].
  unfold AnalyzeController.count_of, length_or_0, opt_member, member, or_else.
  destruct (assoc k fields) as [[]|]; simplify_eq/=; try done.
  by destruct items.
Qed.

(** X11. For insights whose [recommendations] and [issues] are arrays (or
    are missing), the quality score is 80, less 5 for every issue and plus 2
    for every recommendation, brought back into the range from 0 to 100: it
    is never negative and never above 100. *)
Theorem quality_score_is_clamped (fields : list (string * json)) (recs issues : list json)
    (Hrecs : listed "recommendations" (JObj fields) = Some recs)
    (Hissues : listed "issues" (JObj fields) = Some issues) :
  ∃ q,
    AnalyzeController.calculateQualityScore (JObj fields) = inr (JNum q)
    ∧ q = Z.max 0 (Z.min 100 (80 - 5 * Z.of_nat (length issues) + 2 * Z.of_nat (length recs)))
    ∧ 0 ≤ q ≤ 100.
Proof.
  destruct (count_of_listed _ _ _ Hrecs) as (x & Hx & Hcx).
  destruct (count_of_listed _ _ _ Hissues) as (y & Hy & Hcy).
  unfold AnalyzeController.calculateQualityScore. rewrite Hx, Hy, Hcx, Hcy.
  eexists. split; [reflexivity|]. split; lia.
Qed.

Lemma quality_score_is_clamped_witness :
  ∃ q,
    AnalyzeController.calculateQualityScore
      (JObj [("issues", JArr (replicate 20 (JStr "slow query")))]) = inr (JNum q)
    ∧ q = Z.max 0 (Z.min 100 (80 - 5 * Z.of_nat 20 + 2 * Z.of_nat 0))
    ∧ 0 ≤ q ≤ 100.
Proof.
  apply (quality_score_is_clamped [("issues", JArr (replicate 20 (JStr "slow query")))]
           [] (replicate 20 (JStr "slow query"))); reflexivity.
Defined.

(** ** [getFileStructure] *)

Lemma filter_items_path (path : string) (l : list FileEntry) :
  AnalyzeController.filter_items (AnalyzeController.path_startsWith path) (FileEntry_json <$> l)
  = inr (FileEntry_json <$> List.filter (λ f, startsWith path (fe_path f)) l).
Proof.
  induction l as [|f l IH]; [done|]. rewrite fmap_cons. simpl. rewrite IH.
  by destruct (startsWith path (fe_path f)).
Qed.

Lemma filter_items_type (type : string) (l : list FileEntry) :
  AnalyzeController.filter_items (AnalyzeController.type_matches type) (FileEntry_json <$> l)
  = inr (FileEntry_json <$>
           List.filter (λ f, if String.eqb type "file" then negb (fe_isDirectory f)
                             else fe_isDirectory f) l).
Proof.
  induction l as [|f l IH]; [done|]. rewrite fmap_cons. simpl. rewrite IH.
  by destruct (String.eqb type "file"), (fe_isDirectory f).
Qed.

Lemma filter_filter {A} (p q : A → bool) (l : list A) :
  List.filter q (List.filter p l) = List.filter (λ x, p x && q x) l.
Proof.
  induction l as [|x l IH]; [done|]. simpl. destruct (p x); simpl; [|done].
  destruct (q x); by rewrite IH.
Qed.

Lemma filter_all {A} (p : A → bool) (l : list A) : (∀ x, p x = true) → List.filter p l = l.
Proof. intros Hp. induction l as [|x l IH]; [done|]. simpl. by rewrite Hp, IH. Qed.

Lemma listed_entry_filter (path type : string) (stored : list FileEntry) :
  List.filter (listed_entry path type) stored
  = let by_path :=
      if String.eqb path "" then stored
      else List.filter (λ f, startsWith path (fe_path f)) stored in
    if String.eqb type "all" then by_path
    else List.filter (λ f, if String.eqb type "file" then negb (fe_isDirectory f)
                           else fe_isDirectory f) by_path.
Proof.
  cbv zeta. unfold listed_entry.
  destruct (String.eqb path ""), (String.eqb type "all"); simpl.
  - by apply filter_all.
  - apply filter_ext. done.
  - apply filter_ext. intros f. by rewrite andb_true_r.
  - by rewrite filter_filter.
Qed.

(** X12. For an analysis the caller owns, whose stored [files] is a list of
    file entries as [getFileList] makes them, [getFileStructure] answers 200
    with the entries whose path starts with the [path] of the query, as a
    string prefix (all of them when [path] is empty or missing), and which are
    not directories when [type] is [file], are directories for every other
    [type] but [all]; the order of the stored list is kept and [total] is the
    number of entries returned. *)
Theorem file_structure_is_a_filter_of_the_stored_list E req uid s analysis stored
    (Hcaller : fr_user req = Some uid)
    (Hfound : AnalysisModel.findOne E (fr_analysisId req) uid s = (Returned (Some analysis), s))
    (Hstored : prop "files" (analysisData analysis) = Some (JArr (FileEntry_json <$> stored))) :
  let path := default "" (fr_path req) in
  let type := default "all" (fr_type req) in
  let kept := List.filter (listed_entry path type) stored in
  AnalyzeController.getFileStructure E req s
  = (Returned
       {| code := 200;
          body := JObj [("success", JBool true);
                        ("data",
                         JObj [("analysisId", AnalyzeController.json_of_id (fr_analysisId req));
                               ("path", JStr path);
                               ("type", JStr type);
                               ("files", JArr (FileEntry_json <$> kept));
                               ("total", JNum (Z.of_nat (length kept)))])] |},
     s).
Proof.
  cbv zeta. unfold AnalyzeController.getFileStructure, try_catch.
  rewrite Hcaller. unfold bind at 1, AnalyzeController.user_id, ret at 1.
  rewrite (bind_Returned _ _ _ _ _ Hfound).
  assert (Hfiles : or_else (opt_member "files" (Some (analysisData analysis))) (JArr [])
                   = JArr (FileEntry_json <$> stored)).
  { destruct (analysisData analysis) as [| | | | |fields]; try done.
    simpl in Hstored. simpl. by rewrite Hstored. }
  rewrite Hfiles. clear Hfiles.
  set (path := default "" (fr_path req)). set (type := default "all" (fr_type req)).
  rewrite listed_entry_filter.
  destruct (String.eqb path "") eqn:Hpath, (String.eqb type "all") eqn:Htype; simpl.
  - unfold bind, ret, lift. simpl. by rewrite length_fmap.
  - unfold bind at 1, ret at 1. unfold bind at 1, lift at 1, AnalyzeController.Array_filter.
    rewrite filter_items_type. unfold ret at 1, bind, lift, ret. simpl.
    by rewrite length_fmap.
  - unfold bind at 1, lift at 1, AnalyzeController.Array_filter.
    rewrite filter_items_path. unfold ret at 1, bind, lift, ret. simpl.
    by rewrite length_fmap.
  - unfold bind at 1, lift at 1, AnalyzeController.Array_filter.
    rewrite filter_items_path. unfold ret at 1.
    unfold bind at 1, lift at 1, AnalyzeController.Array_filter.
    rewrite filter_items_type. unfold ret at 1, bind, lift, ret. simpl.
    by rewrite length_fmap.
Qed.

Lemma file_structure_is_a_filter_of_the_stored_list_witness :
  let W := Worlds.world Worlds.git_unreachable false AIMalformed in
  let req := {| fr_analysisId := 5; fr_path := Some "src"; fr_type := Some "file";
                fr_user := Some "u1" |} in
  let kept := List.filter (listed_entry "src" "file") (filelist_walk Samples.nested_repo) in
  AnalyzeController.getFileStructure W req Samples.collection
  = (Returned
       {| code := 200;
          body := JObj [("success", JBool true);
                        ("data",
                         JObj [("analysisId", AnalyzeController.json_of_id 5);
                               ("path", JStr "src");
                               ("type", JStr "file");
                               ("files", JArr (FileEntry_json <$> kept));
                               ("total", JNum (Z.of_nat (length kept)))])] |},
     Samples.collection).
Proof.
  intros W req kept.
  apply (file_structure_is_a_filter_of_the_stored_list W req "u1" Samples.collection
           Samples.stored_files (filelist_walk Samples.nested_repo)); reflexivity.
Defined.

(** ** [deleteAnalysis] *)

Lemma remove_first_split (p : Analysis → bool) (docs : list Analysis) (a : Analysis) :
  List.find p docs = Some a →
  ∃ before after,
    docs = before ++ a :: after ∧ remove_first p docs = before ++ after
    ∧ Forall (λ d, p d = false) before ∧ p a = true.
Proof.
  induction docs as [|d docs IH]; [done|]. simpl. destruct (p d) eqn:Hd.
  - intros [= ->]. exists [], docs. by split_and!.
  - intros Hfind. destruct (IH Hfind) as (before & after & -> & -> & Hb & Ha).
    exists (d :: before), after. split_and!; [done|done| |done]. by constructor.
Qed.

Lemma deleteAnalysis_cases E req uid s :
  get_user req = Some uid → db_down E = false →
  match List.find (owned_by (analysisId req) uid) (db s) with
  | Some a =>
      ∃ resp, AnalyzeController.deleteAnalysis E req s
              = (Returned resp,
                 set_db (remove_first (owned_by (analysisId req) uid) (db s)) s)
              ∧ code resp = 200
  | None =>
      AnalyzeController.deleteAnalysis E req s = (Returned AnalyzeController.not_found, s)
  end.
Proof.
  intros Hcaller Hup. unfold AnalyzeController.deleteAnalysis, try_catch.
  rewrite Hcaller. unfold bind at 1, AnalyzeController.user_id, ret at 1.
  unfold bind, AnalysisModel.deleteOne. rewrite Hup. unfold owned_by. simpl.
  destruct (List.find _ (db s)); simpl; [|done]. unfold ret. eexists. by split.
Qed.

(** X13. A delete removes a record only when the stored owner is the
    caller: then the answer is 200 and exactly that one record leaves the
    collection. When the caller owns no record with the id, whether or not
    someone else does, the answer is the 404 "Analysis not found" and nothing
    changes. In both cases the records of every other owner are untouched. *)
Theorem delete_is_owner_checked E req uid s
    (Hcaller : get_user req = Some uid) (Hup : db_down E = false) :
  let run := AnalyzeController.deleteAnalysis E req s in
  ((∃ resp before a after,
      run.1 = Returned resp ∧ code resp = 200
      ∧ db s = before ++ a :: after ∧ db run.2 = before ++ after
      ∧ _id a = analysisId req ∧ userId a = Some uid)
   ∨ (run = (Returned AnalyzeController.not_found, s)
      ∧ ∀ a, a ∈ db s → _id a = analysisId req → userId a ≠ Some uid))
  ∧ filter (λ a, userId a ≠ Some uid) (db run.2) = filter (λ a, userId a ≠ Some uid) (db s).
Proof.
  cbv zeta. pose proof (deleteAnalysis_cases E req uid s Hcaller Hup) as Hcases.
  destruct (List.find (owned_by (analysisId req) uid) (db s)) as [a|] eqn:Hfind.
  - destruct Hcases as (resp & -> & Hcode). simpl.
    destruct (remove_first_split _ _ _ Hfind) as (before & after & Hdb & -> & _ & Ha).
    apply andb_true_iff in Ha as [Hid Howner].
    apply N.eqb_eq in Hid. apply bool_decide_eq_true in Howner. split.
    + left. exists resp, before, a, after. by split_and!.
    + rewrite Hdb, !filter_app, filter_cons. by destruct (decide (userId a ≠ Some uid)).
  - rewrite Hcases. split; [|done]. right. split; [done|].
    intros a Hin Hid Howner. apply list_elem_of_In in Hin.
    eapply find_none in Hfind; [|done].
    unfold owned_by in Hfind. rewrite Hid, N.eqb_refl in Hfind.
    by rewrite (bool_decide_eq_true_2 _ Howner) in Hfind.
Qed.

Lemma delete_is_owner_checked_witness :
  let W := Worlds.world Worlds.git_unreachable false AIMalformed in
  let foreign := {| analysisId := 6; includeFiles := false; includeMetrics := false;
                    get_user := Some "u1" |} in
  let run := AnalyzeController.deleteAnalysis W foreign Samples.collection in
  run = (Returned AnalyzeController.not_found, Samples.collection)
  ∧ filter (λ a, userId a ≠ Some "u1") (db run.2)
    = filter (λ a, userId a ≠ Some "u1") (db Samples.collection).
Proof.
  intros W foreign run. split; [reflexivity|].
  by destruct (delete_is_owner_checked W foreign "u1" Samples.collection eq_refl eq_refl)
    as [_ H].
Defined.

Lemma find_none_intro {A} (p : A → bool) (l : list A) :
  (∀ x, In x l → p x = false) → List.find p l = None.
Proof.
  induction l as [|x l IH]; [done|]. intros H. simpl.
  rewrite (H x) by (by left). apply IH. intros y Hy. apply H. by right.
Qed.

Lemma find_remove_first_same (id : N) (uid : string) (docs : list Analysis) :
  NoDup (_id <$> docs) →
  List.find (owned_by id uid) (remove_first (owned_by id uid) docs) = None.
Proof.
  intros Hnd. destruct (List.find (owned_by id uid) docs) as [a|] eqn:Hfind.
  - destruct (remove_first_split _ _ _ Hfind) as (before & after & -> & -> & Hb & Ha).
    rewrite fmap_app, fmap_cons in Hnd.
    apply NoDup_app in Hnd as (_ & _ & Hnd). apply NoDup_cons in Hnd as [Hnotin _].
    apply andb_true_iff in Ha as [Hid%N.eqb_eq _].
    apply find_none_intro. intros d [Hd|Hd]%in_app_or.
    + rewrite Forall_forall in Hb. apply Hb. by apply list_elem_of_In.
    + unfold owned_by. destruct (N.eqb_spec (_id d) id) as [Heq|]; [|done].
      exfalso. apply Hnotin. rewrite Hid, <- Heq. apply list_elem_of_fmap_2.
      by apply list_elem_of_In.
  - assert (remove_first (owned_by id uid) docs = docs) as ->; [|done].
    clear Hnd. induction docs as [|d docs IH]; [done|]. simpl in *.
    destruct (owned_by id uid d); [done|]. by rewrite IH.
Qed.

Lemma find_remove_first_other (id id' : N) (uid uid' : string) (docs : list Analysis) :
  id' ≠ id →
  List.find (owned_by id' uid') (remove_first (owned_by id uid) docs)
  = List.find (owned_by id' uid') docs.
Proof.
  intros Hne. induction docs as [|d docs IH]; [done|]. simpl.
  destruct (owned_by id uid d) eqn:Hd.
  - apply andb_true_iff in Hd as [Hid%N.eqb_eq _].
    unfold owned_by at 2. rewrite Hid. by destruct (N.eqb_spec id id').
  - simpl. by rewrite IH.
Qed.

(** X14. Once a delete has answered 200, a read of the same id by the same
    caller answers the 404 "Analysis not found", given that no two stored
    records share an id; and a read of any other id, by anyone, is answered
    as it was before the delete. *)
Theorem deleted_analysis_cannot_be_read E req uid s resp s'
    (Hcaller : get_user req = Some uid)
    (Hunique : NoDup (_id <$> db s))
    (Hdeleted : AnalyzeController.deleteAnalysis E req s = (Returned resp, s'))
    (Hok : code resp = 200) :
  AnalyzeController.getAnalysisById E req s' = (Returned AnalyzeController.not_found, s')
  ∧ ∀ req' uid',
      get_user req' = Some uid' → analysisId req' ≠ analysisId req →
      (AnalyzeController.getAnalysisById E req' s').1
      = (AnalyzeController.getAnalysisById E req' s).1.
Proof.
  destruct (db_down E) eqn:Hup.
  { revert Hdeleted. unfold AnalyzeController.deleteAnalysis, try_catch.
    rewrite Hcaller. unfold bind at 1, AnalyzeController.user_id, ret at 1.
    unfold bind, AnalysisModel.deleteOne. rewrite Hup. by intros [= <- <-]. }
  pose proof (deleteAnalysis_cases E req uid s Hcaller Hup) as Hcases.
  destruct (List.find (owned_by (analysisId req) uid) (db s)) as [a|] eqn:Hfind.
  2:{ rewrite Hcases in Hdeleted. by simplify_eq. }
  destruct Hcases as (resp' & Hrun & _). rewrite Hrun in Hdeleted. simplify_eq. split.
  - unfold AnalyzeController.getAnalysisById, try_catch, bind, AnalysisModel.findOne.
    rewrite Hcaller, Hup. simpl. fold (owned_by (analysisId req) uid).
    by rewrite find_remove_first_same.
  - intros req' uid' Hcaller' Hother.
    apply (getAnalysisById_outcome E req' uid'); [done..|]. simpl.
    fold (owned_by (analysisId req') uid'). by apply find_remove_first_other.
Qed.

Lemma deleted_analysis_cannot_be_read_witness :
  let W := Worlds.world Worlds.git_unreachable false AIMalformed in
  let req := {| analysisId := 5; includeFiles := false; includeMetrics := false;
                get_user := Some "u1" |} in
  ∃ resp s',
    AnalyzeController.deleteAnalysis W req Samples.collection = (Returned resp, s')
    ∧ code resp = 200
    ∧ AnalyzeController.getAnalysisById W req s' = (Returned AnalyzeController.not_found, s')
    ∧ ∀ req' uid',
        get_user req' = Some uid' → analysisId req' ≠ analysisId req →
        (AnalyzeController.getAnalysisById W req' s').1
        = (AnalyzeController.getAnalysisById W req' Samples.collection).1.
Proof.
  intros W req. eexists _, _. split; [reflexivity|]. split; [reflexivity|].
  eapply (deleted_analysis_cannot_be_read W req "u1" Samples.collection);
    [reflexivity| |reflexivity|reflexivity].
  apply NoDup_cons. split; [by intros [=]%list_elem_of_singleton|apply NoDup_singleton].
Defined.

(** * The other requests to the model *)

Lemma parseSuggestions_nonblank (content : string) :
  Forall (λ line, trim line ≠ "") (AIService.parseSuggestions content).
Proof.
  unfold AIService.parseSuggestions. apply Forall_forall. intros line Hin.
  apply list_elem_of_In, filter_In in Hin as [_ Hline].
  apply negb_true_iff in Hline. by apply String.eqb_neq.
Qed.

Lemma getRepositorySuggestions_total completion analysisData options s :
  ∃ suggestions,
    AIService.getRepositorySuggestions completion analysisData options s
    = (Returned suggestions, s)
    ∧ Forall (λ line, trim line ≠ "") suggestions.
Proof.
  assert (Hmock : Forall (λ line, trim line ≠ "") AIService.getMockSuggestions).
  { unfold AIService.getMockSuggestions. repeat constructor; by vm_compute. }
  unfold AIService.getRepositorySuggestions, try_catch, bind, lift.
  destruct (member "aspects" options) as [e|aspects]; simpl; [by eexists|].
  unfold AIService.joined.
  destruct aspects as [[| | | |aspects|]|]; simpl; try by eexists.
  unfold AIService.content_of.
  destruct (completion aspects) as [reason| |content]; simpl; try by eexists.
  eexists. split; [done|]. apply parseSuggestions_nonblank.
Qed.

(** X15. For an analysis that the lookup finds for the caller,
    [getSuggestions] asks the model only when the status of the record is
    [completed]: for every other status, [failed] included, it answers 400
    "Analysis not completed yet". For a completed record it answers 200 with a
    list of suggestions none of which is blank, whatever the model does. The
    state is left as it was. *)
Theorem suggestions_need_a_completed_analysis E completion req uid s a
    (Hcaller : sr_user req = Some uid)
    (Hfound : AnalysisModel.findOne E (sr_analysisId req) uid s = (Returned (Some a), s)) :
  let run := AnalyzeController.getSuggestions E completion req s in
  run.2 = s
  ∧ if String.eqb (status a) "completed"
    then ∃ suggestions,
           run.1 = Returned
                     {| code := 200;
                        body := JObj [("success", JBool true);
                                      ("data",
                                       JObj [("analysisId",
                                              AnalyzeController.json_of_id (sr_analysisId req));
                                             ("aspects",
                                              default (JArr [JStr "security";
                                                             JStr "performance";
                                                             JStr "best-practices"])
                                                      (sr_aspects req));
                                             ("suggestions", JArr (JStr <$> suggestions))])] |}
           ∧ Forall (λ line, trim line ≠ "") suggestions
    else run.1 = Returned
                   {| code := 400;
                      body := JObj [("success", JBool false);
                                    ("error", JStr "Analysis not completed yet")] |}.
Proof.
  cbv zeta.
  destruct (AnalyzeController.getSuggestions E completion req s) as [o s'] eqn:Hrun.
  revert Hrun. unfold AnalyzeController.getSuggestions, try_catch.
  rewrite Hcaller. unfold bind at 1, AnalyzeController.user_id, ret at 1.
  rewrite (bind_Returned _ _ _ _ _ Hfound).
  destruct (String.eqb (status a) "completed"); cbn [negb];
    [|unfold ret; by intros [= <- <-]].
  match goal with |- context [AIService.getRepositorySuggestions ?c ?d ?o] =>
    destruct (getRepositorySuggestions_total c d o s) as (suggestions & Hsvc & Hall) end.
  unfold bind. rewrite Hsvc. unfold ret. intros [= <- <-]. split; [done|].
  by exists suggestions.
Qed.

Lemma suggestions_need_a_completed_analysis_witness :
  let W := Worlds.world Worlds.git_unreachable false AIMalformed in
  let req := {| sr_analysisId := 6; sr_aspects := None; sr_includeExamples := None;
                sr_user := Some "u2" |} in
  let run := AnalyzeController.getSuggestions W (λ _, AIContent "Add tests") req
               Samples.collection in
  run.2 = Samples.collection
  ∧ run.1 = Returned
              {| code := 400;
                 body := JObj [("success", JBool false);
                               ("error", JStr "Analysis not completed yet")] |}.
Proof.
  intros W req run.
  apply (suggestions_need_a_completed_analysis W (λ _, AIContent "Add tests") req "u2"
           Samples.collection Samples.failed_run); reflexivity.
Defined.

(** X16. [performCodeReview] and the [analyzeDependencies] of the model
    service return their fixed mock answers whatever the arguments and
    whatever the model answers: the parsers they hand the answer to,
    [parseCodeReview] and [parseDependencyAnalysis], are not methods of the
    class, so the call throws inside the [try] and the [catch] answers. *)
Theorem review_and_dependency_analysis_are_the_mocks
    review_completion dependency_completion analysisData options s :
  AIService.performCodeReview review_completion analysisData options s
  = (Returned AIService.getMockCodeReview, s)
  ∧ AIService.analyzeDependencies dependency_completion analysisData options s
    = (Returned AIService.getMockDependencyAnalysis, s).
Proof.
  split.
  - unfold AIService.performCodeReview, try_catch, bind, lift.
    destruct (member "files" options) as [e|files]; simpl; [done|].
    destruct (member "focus" options) as [e|focus]; simpl; [done|].
    unfold AIService.joined. destruct files as [[| | | |files|]|]; simpl; try done.
    unfold AIService.content_of. by destruct (review_completion focus files).
  - unfold AIService.analyzeDependencies, try_catch, bind, AIService.content_of.
    by destruct dependency_completion.
Qed.

(** * A run and the record it leaves *)

(** The document and the response of a run whose service returned. *)
Lemma try_trace E req s :
  let run := AnalyzeController.analyzeRepository_try E req s in
  match run.1 with
  | Returned resp =>
      ∃ uid url r s1 ai summary insights,
        req_user req = Some uid ∧ db_down E = false
        ∧ AnalyzeController.generateSummary r ai = inr summary
        ∧ db s1 = db s ∧ nextId s1 = nextId s
        ∧ emitted s1 = emitted s ++ ["analysis-started"]
        ∧ run.2 = log_emit "analysis-completed"
                    (persist {| _id := nextId s; userId := Some uid;
                                repositoryUrl := Some url;
                                a_branch := default "main" (body_branch req);
                                status := "completed";
                                analysisData :=
                                  JObj (AnalysisResult_fields r
                                        ++ [("aiInsights", ai); ("summary", summary)]);
                                a_metrics := Some (AnalyzeController.calculateMetrics E r);
                                a_error := None |}
                             (take_id s1))
        ∧ resp = {| code := 200;
                    body := JObj [("success", JBool true);
                                  ("data",
                                   JObj ([("analysisId",
                                           AnalyzeController.json_of_id (nextId s));
                                          ("repository", JStr url);
                                          ("summary", summary)]
                                         ++ opt_field "insights" insights
                                         ++ opt_field "metrics"
                                              (Some (AnalyzeController.calculateMetrics E r))))]
                 |}
  | Threw _ | Pending =>
      emitted run.2 = emitted s ++ ["analysis-started"] ∨ emitted run.2 = emitted s
  end.
Proof.
  cbv zeta. destruct (AnalyzeController.analyzeRepository_try E req s) as [o s'] eqn:Hrun.
  revert Hrun.
  destruct (req_user req) as [uid|] eqn:Huser.
  2:{ unfold AnalyzeController.analyzeRepository_try. rewrite Huser.
      intros [= <- <-]. by right. }
  destruct (body_url req) as [url|] eqn:Hurl.
  2:{ unfold AnalyzeController.analyzeRepository_try. rewrite Huser, Hurl.
      intros [= <- <-]. by left. }
  pose proof (keeps_analyzeRepository E url (options_of req) (log_emit "analysis-started" s))
    as (Hdb & Hsw & Hid & Hem).
  destruct (analyzeRepository E url (options_of req) (log_emit "analysis-started" s))
    as [[r|e|] s1] eqn:Hsvc; simpl in Hdb, Hsw, Hid, Hem.
  2,3: unfold AnalyzeController.analyzeRepository_try; rewrite Huser, Hurl;
    unfold bind at 1, ret at 1; unfold bind at 1, AnalyzeController.emit at 1, modify at 1;
    fold (options_of req); unfold bind at 1; rewrite Hsvc;
    intros [= <- <-]; by left.
  destruct (getRepositoryInsights_total E r s1) as [ai Hai].
  destruct (AnalyzeController.generateSummary r ai) as [e|summary] eqn:Hsum.
  { unfold AnalyzeController.analyzeRepository_try. rewrite Huser, Hurl.
    unfold bind at 1, ret at 1. unfold bind at 1, AnalyzeController.emit at 1, modify at 1.
    fold (options_of req). rewrite (bind_Returned _ _ _ _ _ Hsvc).
    rewrite (bind_Returned _ _ _ _ _ Hai). unfold bind at 1. rewrite Hsum.
    intros [= <- <-]. by left. }
  destruct (generateSummary_member _ _ _ Hsum) as [insights Hins].
  unfold AnalyzeController.analyzeRepository_try. rewrite Huser, Hurl.
  unfold bind at 1, ret at 1. unfold bind at 1, AnalyzeController.emit at 1, modify at 1.
  fold (options_of req). rewrite (bind_Returned _ _ _ _ _ Hsvc).
  rewrite (bind_Returned _ _ _ _ _ Hai). unfold bind at 1. rewrite Hsum. simpl.
  unfold bind at 1, AnalyzeController.completed_Analysis, AnalysisModel.new_Analysis.
  unfold bind at 1, AnalysisModel.save. simpl.
  destruct (db_down E) eqn:Hdown.
  { intros [= <- <-]. by left. }
  unfold bind at 1, AnalyzeController.emit, modify. unfold bind at 1. rewrite Hins. simpl.
  intros [= <- <-]. exists uid, url, r, s1, ai, summary, insights.
  rewrite Hid. by split_and!.
Qed.

Lemma catch_trace E req e s1 :
  let run := AnalyzeController.analyzeRepository_catch E req e s1 in
  emitted run.2 = emitted s1
  ∧ match run.1 with
    | Returned resp => code resp = 500
    | Threw _ => True
    | Pending => False
    end.
Proof.
  cbv zeta. destruct (AnalyzeController.analyzeRepository_catch E req e s1) as [o s'] eqn:Hrun.
  revert Hrun. unfold AnalyzeController.analyzeRepository_catch.
  destruct (body_url req) as [url|]; [|by intros [= <- <-]].
  destruct (String.eqb url ""); simpl; [by intros [= <- <-]|].
  unfold bind at 1. unfold bind at 1, AnalyzeController.failed_Analysis, AnalysisModel.new_Analysis.
  match goal with |- context [AnalysisModel.save E ?a ?s2] =>
    destruct (save_cases E a s2) as [[e' ->]|(-> & _)] end; by intros [= <- <-].
Qed.

(** X17. The socket event [analysis-completed] goes with the answer 200 and
    with nothing else: a run that answers 200 has emitted [analysis-started]
    and then [analysis-completed]; a run that answers 500, throws or never
    settles has emitted at most [analysis-started]. *)
Theorem completed_event_goes_with_200 E req s :
  let run := AnalyzeController.analyzeRepository E req s in
  match run.1 with
  | Returned resp =>
      (code resp = 200
       ∧ emitted run.2 = emitted s ++ ["analysis-started"; "analysis-completed"])
      ∨ (code resp = 500
         ∧ (emitted run.2 = emitted s ++ ["analysis-started"] ∨ emitted run.2 = emitted s))
  | Threw _ | Pending =>
      emitted run.2 = emitted s ++ ["analysis-started"] ∨ emitted run.2 = emitted s
  end.
Proof.
  cbv zeta. unfold AnalyzeController.analyzeRepository, try_catch.
  pose proof (try_trace E req s) as Htry. cbv zeta in Htry.
  destruct (AnalyzeController.analyzeRepository_try E req s) as [[resp|e|] s1]; simpl in *.
  - destruct Htry as (uid & url & r & s2 & ai & summary & insights & H).
    destruct H as (_ & _ & _ & _ & _ & Hem & -> & ->). left. split; [done|]. simpl.
    by rewrite Hem, <- app_assoc.
  - pose proof (catch_trace E req e s1) as [Hem Hcatch]. cbv zeta in Hem, Hcatch.
    destruct (AnalyzeController.analyzeRepository_catch E req e s1) as [[resp| |] s2];
      simpl in *; rewrite Hem; [by right|done|done].
  - done.
Qed.

Lemma find_upsert (uid : string) (doc : Analysis) (docs : list Analysis) :
  userId doc = Some uid →
  List.find (owned_by (_id doc) uid) (upsert doc docs) = Some doc.
Proof.
  intros Howner.
  assert (Hdoc : owned_by (_id doc) uid doc = true).
  { unfold owned_by. by rewrite N.eqb_refl, (bool_decide_eq_true_2 _ Howner). }
  induction docs as [|d docs IH]; simpl; [by rewrite Hdoc|].
  destruct (N.eqb (_id d) (_id doc)) eqn:Hd; simpl; [by rewrite Hdoc|].
  unfold owned_by at 1. by rewrite Hd.
Qed.

Lemma getAnalysisById_of E req uid s a :
  get_user req = Some uid → db_down E = false →
  List.find (owned_by (analysisId req) uid) (db s) = Some a →
  ∃ back,
    AnalyzeController.getAnalysisById E req s = (Returned back, s)
    ∧ code back = 200
    ∧ data_field "analysisId" back = Some (AnalyzeController.json_of_id (_id a))
    ∧ data_field "status" back = Some (JStr (status a))
    ∧ data_field "summary" back
      = Some (or_else (opt_member "summary" (Some (analysisData a))) (JObj []))
    ∧ data_field "insights" back
      = Some (or_else (opt_member "recommendations"
                         (opt_member "aiInsights" (Some (analysisData a)))) (JArr [])).
Proof.
  intros Hcaller Hup Hfind.
  unfold AnalyzeController.getAnalysisById, try_catch, bind, AnalysisModel.findOne.
  rewrite Hcaller, Hup. with_strategy opaque [opt_member or_else truthy] simpl.
  unfold owned_by in Hfind. rewrite Hfind. unfold ret.
  destruct (opt_member "files" (Some (analysisData a))) as [files|];
    [destruct (includeFiles req && truthy files)|];
    destruct (includeMetrics req);
    (destruct (opt_member "structure" (Some (analysisData a))) as [structure|];
     [destruct (truthy structure)|]); eexists; by split_and!.
Qed.

(** X18. A run that answers 200 can be read back: a read by the same caller
    of the id that the answer carries is answered 200 with the status
    [completed] and the summary of the run, whatever else the collection
    holds. *)
Theorem completed_run_can_be_read_back E req s resp s' files metrics
    (Hrun : AnalyzeController.analyzeRepository E req s = (Returned resp, s'))
    (Hok : code resp = 200) :
  ∃ id back,
    data_field "analysisId" resp = Some (AnalyzeController.json_of_id id)
    ∧ AnalyzeController.getAnalysisById E
        {| analysisId := id; includeFiles := files; includeMetrics := metrics;
           get_user := req_user req |} s'
      = (Returned back, s')
    ∧ code back = 200
    ∧ data_field "status" back = Some (JStr "completed")
    ∧ is_Some (data_field "summary" resp)
    ∧ data_field "summary" back = data_field "summary" resp.
Proof.
  revert Hrun. unfold AnalyzeController.analyzeRepository, try_catch.
  pose proof (try_trace E req s) as Htry. cbv zeta in Htry.
  destruct (AnalyzeController.analyzeRepository_try E req s) as [[resp0|e|] s1]; simpl in *.
  - intros [= <- <-].
    destruct Htry as (uid & url & r & s2 & ai & summary & insights & H).
    destruct H as (Huser & Hup & Hsum & _ & _ & _ & -> & ->).
    exists (nextId s). rewrite Huser.
    match goal with |- context [persist ?doc (take_id s2)] => set (d := doc) end.
    destruct (getAnalysisById_of E
                {| analysisId := nextId s; includeFiles := files; includeMetrics := metrics;
                   get_user := Some uid |} uid
                (log_emit "analysis-completed" (persist d (take_id s2))) d)
      as (back & Hback & Hcode & _ & Hstatus & Hsummary & _); [done|done| |].
    { simpl. apply (find_upsert uid d). done. }
    exists back. split; [done|]. split; [done|]. split; [done|]. split; [done|].
    split; [by eexists|]. rewrite Hsummary.
    assert (Hobj : ∃ fields, summary = JObj fields).
    { revert Hsum. unfold AnalyzeController.generateSummary.
      destruct (member "complexity" ai); [done|].
      destruct (AnalyzeController.calculateQualityScore ai); [done|].
      intros [= <-]. by eexists. }
    destruct Hobj as [fields ->]. done.
  - pose proof (catch_trace E req e s1) as [_ Hcatch]. cbv zeta in Hcatch.
    destruct (AnalyzeController.analyzeRepository_catch E req e s1) as [[resp1| |] s2];
      simpl in *; [|done..].
    intros [= <- <-]. congruence.
  - done.
Qed.

Lemma completed_run_can_be_read_back_witness :
  let W := Worlds.world (Worlds.git_serves Worlds.small_repo) true (AIContent "{}") in
  ∃ resp s' id back,
    AnalyzeController.analyzeRepository W Worlds.request0 Worlds.s0 = (Returned resp, s')
    ∧ code resp = 200
    ∧ data_field "analysisId" resp = Some (AnalyzeController.json_of_id id)
    ∧ AnalyzeController.getAnalysisById W
        {| analysisId := id; includeFiles := true; includeMetrics := false;
           get_user := req_user Worlds.request0 |} s'
      = (Returned back, s')
    ∧ code back = 200
    ∧ data_field "status" back = Some (JStr "completed")
    ∧ is_Some (data_field "summary" resp)
    ∧ data_field "summary" back = data_field "summary" resp.
Proof.
  intros W. eexists _, _.
  destruct (completed_run_can_be_read_back W Worlds.request0 Worlds.s0 _ _ true false
              eq_refl eq_refl) as (id & back & H).
  exists id, back. split; [reflexivity|]. split; [reflexivity|]. exact H.
Defined.

(** X19. A run that answers 500 for a request with a url leaves a record
    that can be read back: a read by the same caller of the id the run was
    given is answered 200 with the status [failed], an empty summary and no
    insights. *)
Theorem failed_run_can_be_read_back E req s uid url resp s' files metrics
    (Hcaller : req_user req = Some uid)
    (Hurl : body_url req = Some url)
    (Hnonempty : url ≠ "")
    (Hrun : AnalyzeController.analyzeRepository E req s = (Returned resp, s'))
    (Hfailed : code resp = 500) :
  ∃ back,
    AnalyzeController.getAnalysisById E
      {| analysisId := nextId s; includeFiles := files; includeMetrics := metrics;
         get_user := Some uid |} s'
    = (Returned back, s')
    ∧ code back = 200
    ∧ data_field "status" back = Some (JStr "failed")
    ∧ data_field "summary" back = Some (JObj [])
    ∧ data_field "insights" back = Some (JArr []).
Proof.
  revert Hrun. unfold AnalyzeController.analyzeRepository, try_catch.
  pose proof (try_outcomes E req s) as Htry. cbv zeta in Htry.
  destruct (AnalyzeController.analyzeRepository_try E req s) as [[resp0|e|] s1];
    simpl in *; [intros [= <- <-]; destruct Htry; congruence| |done].
  destruct Htry as (Hdb & _ & Hid).
  destruct (db_down E) eqn:Hup.
  { unfold AnalyzeController.analyzeRepository_catch. rewrite Hurl.
    apply String.eqb_neq in Hnonempty. rewrite Hnonempty. simpl.
    unfold bind at 1. unfold bind at 1, AnalyzeController.failed_Analysis,
      AnalysisModel.new_Analysis, AnalysisModel.save. rewrite Hcaller. simpl.
    by rewrite Hup. }
  destruct Hid as [Hid|?]; [|done].
  destruct (catch_saves_failed E req e s1 uid url) as (resp1 & doc & -> & _ & Hdoc);
    [done|done|by apply String.eqb_neq|done|].
  intros [= <- <-].
  destruct (getAnalysisById_of E
              {| analysisId := nextId s; includeFiles := files; includeMetrics := metrics;
                 get_user := Some uid |} uid (persist doc (take_id s1)) doc)
    as (back & Hback & Hcode & _ & Hstatus & Hsummary & Hinsights); [done|done| |].
  { simpl. rewrite <- Hid. replace (nextId s1) with (_id doc) by (by subst doc).
    apply find_upsert. by subst doc. }
  exists back. subst doc. by split_and!.
Qed.

Lemma failed_run_can_be_read_back_witness :
  let W := Worlds.world Worlds.git_unreachable false AIMalformed in
  ∃ resp s' back,
    AnalyzeController.analyzeRepository W Worlds.request0 Worlds.s0 = (Returned resp, s')
    ∧ code resp = 500
    ∧ AnalyzeController.getAnalysisById W
        {| analysisId := nextId Worlds.s0; includeFiles := false; includeMetrics := true;
           get_user := Some "u1" |} s'
      = (Returned back, s')
    ∧ code back = 200
    ∧ data_field "status" back = Some (JStr "failed")
    ∧ data_field "summary" back = Some (JObj [])
    ∧ data_field "insights" back = Some (JArr []).
Proof.
  intros W. eexists _, _.
  destruct (failed_run_can_be_read_back W Worlds.request0 Worlds.s0 "u1"
              "https://github.com/acme/widgets.git" _ _ false true
              eq_refl eq_refl ltac:(done) eq_refl eq_refl) as (back & H).
  exists back. split; [reflexivity|]. split; [reflexivity|]. exact H.
Defined.

(** ** [updateStatus] *)

Lemma updateStatus_owner E this st data doc s s' :
  AnalysisModel.updateStatus E this st data s = (Returned doc, s') →
  userId doc = userId this ∧ db_down E = false.
Proof.
  unfold AnalysisModel.updateStatus. unfold bind at 1.
  assert (Hsave : ∀ a r s2, bind (AnalysisModel.save E a) (λ _, ret a) s = (Returned r, s2) →
                            r = a ∧ db_down E = false).
  { intros a r s2. unfold bind. destruct (save_cases E a s) as [[e ->]|(-> & Hup & _)];
      [done|]. by intros [= <- <-]. }
  destruct (String.eqb st "completed").
  - unfold bind at 1.
    destruct (AnalysisModel.calculateMetrics E (default (JObj []) data)) as [e|m]; [done|].
    simpl. intros [-> ?]%Hsave. done.
  - destruct (String.eqb st "failed").
    + unfold bind at 1. destruct (member "error" (default (JObj []) data)) as [e|err]; [done|].
      simpl. intros [-> ?]%Hsave. done.
    + unfold ret at 1. intros [-> ?]%Hsave. done.
Qed.

(** X20. After [updateStatus('completed', data)] has returned on a record,
    a read of that record by its owner is answered 200 with the status
    [completed] and with the summary of [data] (an empty one when [data] has
    none): the data handed to the method is what the record now holds. *)
Theorem completed_status_is_read_back E this data uid s doc s' files metrics
    (Howner : userId this = Some uid)
    (Hrun : AnalysisModel.updateStatus E this "completed" (Some data) s = (Returned doc, s')) :
  analysisData doc = data
  ∧ ∃ back,
      AnalyzeController.getAnalysisById E
        {| analysisId := _id this; includeFiles := files; includeMetrics := metrics;
           get_user := Some uid |} s'
      = (Returned back, s')
      ∧ code back = 200
      ∧ data_field "status" back = Some (JStr "completed")
      ∧ data_field "summary" back
        = Some (or_else (opt_member "summary" (Some data)) (JObj [])).
Proof.
  destruct (updateStatus_owner _ _ _ _ _ _ _ Hrun) as [Huser Hup].
  apply updateStatus_Returned in Hrun as (Hstatus & _ & -> & Hid & _ & Hdata).
  specialize (Hdata eq_refl) as [Hdata _]. simpl in Hdata. split; [done|].
  destruct (getAnalysisById_of E
              {| analysisId := _id this; includeFiles := files; includeMetrics := metrics;
                 get_user := Some uid |} uid (persist doc s) doc)
    as (back & Hback & Hcode & _ & Hst & Hsummary & _); [done|done| |].
  { simpl. rewrite <- Hid. apply find_upsert. congruence. }
  exists back. rewrite Hstatus in Hst. rewrite Hdata in Hsummary. by split_and!.
Qed.

Lemma completed_status_is_read_back_witness :
  let W := Worlds.world Worlds.git_unreachable false AIMalformed in
  let data := JObj [("summary", JObj [("totalFiles", JNum 1)])] in
  ∃ doc s',
    AnalysisModel.updateStatus W Samples.failed_run "completed" (Some data) Samples.collection
    = (Returned doc, s')
    ∧ analysisData doc = data
    ∧ ∃ back,
        AnalyzeController.getAnalysisById W
          {| analysisId := 6; includeFiles := false; includeMetrics := false;
             get_user := Some "u2" |} s'
        = (Returned back, s')
        ∧ code back = 200
        ∧ data_field "status" back = Some (JStr "completed")
        ∧ data_field "summary" back = Some (JObj [("totalFiles", JNum 1)]).
Proof.
  intros W data. eexists _, _. split; [reflexivity|].
  apply (completed_status_is_read_back W Samples.failed_run data "u2" Samples.collection
           _ _ false false eq_refl eq_refl).
Defined.

(** * Who may ask *)

(** ** The daily quota of [models/User.js] *)

Lemma incrementAnalysisCount_used toDateString (now t : Z) (u : UserModel.User) :
  toDateString t = toDateString now →
  used_on toDateString now (UserModel.incrementAnalysisCount toDateString t u)
  = used_on toDateString now u + 1
  ∧ UserModel.analysesPerDay (UserModel.incrementAnalysisCount toDateString t u)
    = UserModel.analysesPerDay u.
Proof.
  intros Ht. unfold used_on, UserModel.incrementAnalysisCount,
    UserModel.resetDailyUsageIfNeeded. cbv zeta. rewrite Ht.
  destruct (String.eqb_spec (toDateString now) (toDateString (UserModel.lastReset u)))
    as [Heq|Hne]; simpl.
  - by rewrite <- Heq, String.eqb_refl.
  - by rewrite Ht, String.eqb_refl.
Qed.

(** X21. The quota of a day counts every analysis of that day and nothing
    else: after [incrementAnalysisCount] has run at any number of times of
    one day, the middleware [canAnalyze], at a time of the same day, lets the
    user through exactly when what they had used that day before, plus the
    number of increments, is below [analysesPerDay], and otherwise answers
    429 with that limit and that count. A counter left from another day
    counts as nothing; the increments themselves are never refused, so the
    count can pass the limit. *)
Theorem daily_quota_counts_the_analyses_of_the_day
    toDateString (now : Z) (times : list Z) (u : UserModel.User)
    (Hday : Forall (λ t, toDateString t = toDateString now) times) :
  let u' := foldl (λ u t, UserModel.incrementAnalysisCount toDateString t u) u times in
  let used := used_on toDateString now u + Z.of_nat (length times) in
  match AuthMiddleware.canAnalyze toDateString now (Some u') with
  | AuthMiddleware.Next v =>
      used < UserModel.analysesPerDay u ∧ UserModel.analysesToday v = used
  | AuthMiddleware.Responded r =>
      UserModel.analysesPerDay u ≤ used
      ∧ r = {| code := 429;
               body := JObj [("success", JBool false);
                             ("error", JStr "Daily analysis limit reached.");
                             ("limit", JNum (UserModel.analysesPerDay u));
                             ("used", JNum used)] |}
  | AuthMiddleware.NextError _ | AuthMiddleware.Waiting => False
  end.
Proof.
  cbv zeta.
  assert (Hfold :
    used_on toDateString now
      (foldl (λ u t, UserModel.incrementAnalysisCount toDateString t u) u times)
    = used_on toDateString now u + Z.of_nat (length times)
    ∧ UserModel.analysesPerDay
        (foldl (λ u t, UserModel.incrementAnalysisCount toDateString t u) u times)
      = UserModel.analysesPerDay u).
  { revert u. induction Hday as [|t times Ht _ IH]; intros u; simpl; [split; lia|].
    destruct (IH (UserModel.incrementAnalysisCount toDateString t u)) as [-> ->].
    destruct (incrementAnalysisCount_used toDateString now t u Ht) as [-> ->].
    split; lia. }
  destruct Hfold as [Hused Hlimit].
  set (u' := foldl _ u times) in *. clearbody u'.
  unfold AuthMiddleware.canAnalyze, UserModel.canAnalyze. cbv beta iota zeta.
  assert (Hreset : UserModel.analysesToday (UserModel.resetDailyUsageIfNeeded toDateString now u')
                   = used_on toDateString now u'
                   ∧ UserModel.analysesPerDay
                       (UserModel.resetDailyUsageIfNeeded toDateString now u')
                     = UserModel.analysesPerDay u').
  { unfold UserModel.resetDailyUsageIfNeeded, used_on. cbv zeta.
    by destruct (String.eqb _ _). }
  destruct Hreset as [Htoday Hper]. rewrite Htoday, Hper, Hused, Hlimit.
  destruct (Z.ltb_spec (used_on toDateString now u + Z.of_nat (length times))
                       (UserModel.analysesPerDay u)); simpl.
  - by rewrite ?Htoday, ?Hused.
  - done.
Qed.

Lemma daily_quota_counts_the_analyses_of_the_day_witness :
  let now := 19000 * 86400000 + 7200000 in
  ∃ r,
    AuthMiddleware.canAnalyze Samples.utc_day now
      (Some (foldl (λ u t, UserModel.incrementAnalysisCount Samples.utc_day t u)
                   Samples.alice [19000 * 86400000 + 3600000]))
    = AuthMiddleware.Responded r
    ∧ code r = 429.
Proof.
  intros now.
  pose proof (daily_quota_counts_the_analyses_of_the_day Samples.utc_day now
                [19000 * 86400000 + 3600000] Samples.alice) as H.
  cbv zeta in H.
  destruct (AuthMiddleware.canAnalyze Samples.utc_day now _) as [v|e|r|] eqn:Hrun.
  - exfalso. revert Hrun. by vm_compute.
  - exfalso. revert Hrun. by vm_compute.
  - exists r. split; [done|]. destruct H as [_ ->]; [|done].
    constructor; [by vm_compute|constructor].
  - exfalso. revert Hrun. by vm_compute.
Defined.

(** ** The token of a request *)

Lemma replace_text_prefix (pat rest : string) :
  replace_text pat (pat +:+ rest) = rest.
Proof.
  assert (H : strip_prefix pat (pat +:+ rest) = Some rest) by by apply strip_prefix_spec.
  destruct pat as [|a pat]; [rewrite append_nil in *|rewrite append_String in *].
  - destruct rest; simpl in *; congruence.
  - cbn [replace_text]. by rewrite H.
Qed.

Lemma replace_text_absent (pat s : string) :
  includes_text pat s = false → replace_text pat s = s.
Proof.
  induction s as [|c s IH]; cbn [includes_text replace_text]; unfold startsWith;
    destruct (strip_prefix pat _) eqn:Hpre; try done.
  simpl. intros H. by rewrite IH.
Qed.

(** X22. [verifyToken] lets a request through exactly when it has an
    [Authorization] header whose text, with the first [Bearer ] taken out,
    is not empty and is verified to a payload with a [userId] that
    [User.findById] finds as an active user; the request then carries that
    user and that text as its token. It never calls [next] with an error,
    and every refusal it sends has the status 401 or 500. *)
Theorem verifyToken_admits_verified_active_users
    (jwt_verify : string → AuthMiddleware.verified)
    (User_findById : option json → AuthMiddleware.looked_up)
    (authorization : option string) :
  (∀ user token,
     AuthMiddleware.verifyToken jwt_verify User_findById authorization
     = AuthMiddleware.Next (user, token)
     ↔ ∃ header decoded userId,
         authorization = Some header
         ∧ token = replace_text "Bearer " header ∧ token ≠ ""
         ∧ jwt_verify token = AuthMiddleware.Payload decoded
         ∧ member "userId" decoded = inr userId
         ∧ User_findById userId = AuthMiddleware.Found user
         ∧ UserModel.isActive user = true)
  ∧ (∀ e, AuthMiddleware.verifyToken jwt_verify User_findById authorization
          ≠ AuthMiddleware.NextError e)
  ∧ (∀ r, AuthMiddleware.verifyToken jwt_verify User_findById authorization
          = AuthMiddleware.Responded r →
          code r = 401 ∨ code r = 500).
Proof.
  unfold AuthMiddleware.verifyToken. cbv zeta.
  destruct authorization as [header|]; csimpl.
  2: { split_and!; [|done|intros r [= <-]; by left].
       intros user token. split; [done|]. by intros (? & ? & ? & ? & _). }
  assert (Hcatch : ∀ name, code (AuthMiddleware.verifyToken_catch name) = 401
                           ∨ code (AuthMiddleware.verifyToken_catch name) = 500).
  { intros name. unfold AuthMiddleware.verifyToken_catch.
    repeat destruct (String.eqb _ _); simpl; auto. }
  destruct (replace_text "Bearer " header) as [|c t] eqn:Htoken.
  { split_and!; [|done|intros r [= <-]; by left].
    intros user token. split; [done|].
    intros (h & ? & ? & [= <-] & -> & Hne & _). by rewrite Htoken in Hne. }
  destruct (jwt_verify (String c t)) as [decoded|name] eqn:Hverify.
  2: { split_and!; [|done|intros r [= <-]; apply Hcatch].
       intros user token. split; [done|].
       intros (h & ? & ? & [= <-] & -> & _ & Hv & _). rewrite Htoken in Hv. congruence. }
  destruct (member "userId" decoded) as [err|userId] eqn:Hmember.
  { split_and!; [|done|intros r [= <-]; apply Hcatch].
    intros user token. split; [done|].
    intros (h & ? & ? & [= <-] & -> & _ & Hv & Hm & _). rewrite Htoken in Hv.
    congruence. }
  destruct (User_findById userId) as [found|  |name| ] eqn:Hfind.
  - destruct (UserModel.isActive found) eqn:Hactive; simpl.
    + split_and!; [|done|done].
      intros user token. split.
      * intros [= <- <-]. exists header, decoded, userId. by rewrite Htoken.
      * intros (h & d & i & [= <-] & -> & _ & Hv & Hm & Hf & _).
        rewrite Htoken in *. congruence.
    + split_and!; [|done|intros r [= <-]; by left].
      intros user token. split; [done|].
      intros (h & d & i & [= <-] & -> & _ & Hv & Hm & Hf & Ha).
      rewrite Htoken in *. congruence.
  - split_and!; [|done|intros r [= <-]; by left].
    intros user token. split; [done|].
    intros (h & d & i & [= <-] & -> & _ & Hv & Hm & Hf & _).
    rewrite Htoken in *. congruence.
  - split_and!; [|done|intros r [= <-]; apply Hcatch].
    intros user token. split; [done|].
    intros (h & d & i & [= <-] & -> & _ & Hv & Hm & Hf & _).
    rewrite Htoken in *. congruence.
  - split_and!; [|done|done].
    intros user token. split; [done|].
    intros (h & d & i & [= <-] & -> & _ & Hv & Hm & Hf & _).
    rewrite Htoken in *. congruence.
Qed.

(** X23. The [Bearer ] prefix is optional: a header that is the bare token
    is handled as the same token behind [Bearer ], as long as the token does
    not itself contain the text [Bearer ]. *)
Theorem bearer_prefix_is_optional
    (jwt_verify : string → AuthMiddleware.verified)
    (User_findById : option json → AuthMiddleware.looked_up)
    (token : string)
    (Hplain : includes_text "Bearer " token = false) :
  AuthMiddleware.verifyToken jwt_verify User_findById (Some ("Bearer " +:+ token))
  = AuthMiddleware.verifyToken jwt_verify User_findById (Some token).
Proof.
  unfold AuthMiddleware.verifyToken. cbv zeta.
  cbn [fmap option_fmap option_map].
  by rewrite replace_text_prefix, (replace_text_absent _ _ Hplain).
Qed.

Lemma bearer_prefix_is_optional_witness :
  AuthMiddleware.verifyToken Samples.jwt_verify Samples.User_findById (Some "Bearer good")
  = AuthMiddleware.verifyToken Samples.jwt_verify Samples.User_findById (Some "good")
  ∧ AuthMiddleware.verifyToken Samples.jwt_verify Samples.User_findById (Some "good")
    = AuthMiddleware.Next (Samples.alice, "good").
Proof.
  split; [|reflexivity].
  apply (bearer_prefix_is_optional Samples.jwt_verify Samples.User_findById "good").
  reflexivity.
Defined.

(** ** Validating a Dockerfile *)

Lemma line_warnings_start (index : nat) (line w : string) :
  w ∈ DockerController.line_warnings index line → ∃ rest, w = String "L" rest.
Proof.
  unfold DockerController.line_warnings. cbv zeta.
  rewrite !elem_of_app.
  intros [H|[H|H]]; revert H; (destruct (_ && _)%bool; [|by intros ?%elem_of_nil]);
    intros ->%list_elem_of_singleton; rewrite !append_String; eauto.
Qed.

Lemma imap_warnings_start {A} (f : nat → A → list string) (l : list A) (w : string) :
  (∀ i x v, v ∈ f i x → ∃ rest, v = String "L" rest) →
  w ∈ concat (imap f l) → ∃ rest, w = String "L" rest.
Proof.
  revert f. induction l as [|x l IH]; intros f Hf; simpl; [by intros ?%elem_of_nil|].
  rewrite elem_of_app. intros [H|H]; [by eapply Hf|].
  eapply (IH (f ∘ S)); [|done]. intros i y v. apply Hf.
Qed.

Lemma imap_warnings_lookup {A} (f : nat → A → list string) (l : list A) i x (w : string) :
  l !! i = Some x → w ∈ f i x → w ∈ concat (imap f l).
Proof.
  revert f i. induction l as [|y l IH]; intros f [|i]; simpl; try done.
  - intros [= ->] Hw. apply elem_of_app. by left.
  - intros Hl Hw. apply elem_of_app. right. by apply (IH (f ∘ S) i).
Qed.

Lemma existsb_false_elem_of {A} (p : A → bool) (l : list A) :
  existsb p l = false ↔ ∀ x, x ∈ l → p x = false.
Proof.
  induction l as [|y l IH]; simpl.
  - split; [by intros _ x ?%elem_of_nil|done].
  - rewrite orb_false_iff, IH. split.
    + intros [Hy Hl] x [->|Hx]%elem_of_cons; auto.
    + intros H. split; [apply H; left|intros x Hx; apply H; by right].
Qed.

(** X24. [validateDockerfile] never finds a text invalid: for every text it
    answers 200 with [valid: true], no issues and the number of lines. Among
    the warnings, [No EXPOSE instruction found] is there exactly when no line
    starts, once trimmed, with [EXPOSE], [Consider adding WORKDIR instruction]
    exactly when none starts with [WORKDIR], and a [FROM] line without a colon
    is reported under its line number, counted from 1. *)
Theorem dockerfile_validation_only_warns (text : string) :
  ∃ warnings,
    DockerController.validateDockerfile (Some text)
    = {| code := 200;
         body := JObj [("success", JBool true);
                       ("data", JObj [("valid", JBool true);
                                      ("issues", JArr []);
                                      ("warnings", JArr (JStr <$> warnings));
                                      ("lineCount",
                                       JNum (Z.of_nat (length (split_lines text))))])] |}
    ∧ ("No EXPOSE instruction found" ∈ warnings
       ↔ ∀ line, line ∈ split_lines text → startsWith "EXPOSE" (trim line) = false)
    ∧ ("Consider adding WORKDIR instruction" ∈ warnings
       ↔ ∀ line, line ∈ split_lines text → startsWith "WORKDIR" (trim line) = false)
    ∧ (∀ i line,
         split_lines text !! i = Some line →
         startsWith "FROM" (trim line) = true →
         includes_text ":" (trim line) = false →
         "Line " +:+ pretty (S i) +:+ ": Consider specifying a tag in FROM instruction"
         ∈ warnings).
Proof.
  unfold DockerController.validateDockerfile. cbv zeta.
  set (lines := split_lines text).
  set (per_line := concat (imap DockerController.line_warnings lines)).
  assert (Hper : ∀ w, w ∈ per_line → ∃ rest, w = String "L" rest).
  { intros w. apply imap_warnings_start. intros i x v. apply line_warnings_start. }
  assert (Hfrom : ∀ i line,
            lines !! i = Some line →
            startsWith "FROM" (trim line) = true →
            includes_text ":" (trim line) = false →
            "Line " +:+ pretty (S i) +:+ ": Consider specifying a tag in FROM instruction"
            ∈ per_line).
  { intros i line Hl Hstart Hcolon.
    apply (imap_warnings_lookup _ _ i line); [done|].
    unfold DockerController.line_warnings. cbv zeta. rewrite Hstart, Hcolon.
    apply elem_of_app. left. apply list_elem_of_singleton. done. }
  pose proof (existsb_false_elem_of (λ line, startsWith "EXPOSE" (trim line)) lines)
    as Hexpose.
  pose proof (existsb_false_elem_of (λ line, startsWith "WORKDIR" (trim line)) lines)
    as Hworkdir.
  cbv beta in Hexpose, Hworkdir.
  eexists. split; [reflexivity|].
  assert (HE : "No EXPOSE instruction found" ∉ per_line).
  { by intros [rest [=]]%Hper. }
  assert (HW : "Consider adding WORKDIR instruction" ∉ per_line).
  { by intros [rest [=]]%Hper. }
  destruct (existsb (λ line, startsWith "EXPOSE" (trim line)) lines);
    destruct (existsb (λ line, startsWith "WORKDIR" (trim line)) lines);
    cbn [negb]; rewrite <- Hexpose, <- Hworkdir; split_and!;
    try (intros i line Hl Hs Hc; specialize (Hfrom i line Hl Hs Hc));
    rewrite ?elem_of_app, ?list_elem_of_singleton;
    intuition (try done; try congruence).
Qed.
